(** * MCP registry service: catalog, read API and webhook ingress

    A shallow embedding of the Go sources
    - [internal/registry/registry.go] (the catalog: index, LRU cache, counters),
    - package [api] (the handlers of the read API),
    - [internal/sync/webhook.go] (the webhook ingress) and [Manager.Trigger],
    - [internal/gitstore] ([Store.ReadFile], [Store.PullWithRetry]),
    - [internal/sync] (the sync controller: [debounceSync], [doSync]),
    - [internal/config/config.go] ([Load]),
    - [internal/middleware/middleware.go] ([normalizePath]),
    - [internal/domain/*.go] (the data model),
    together with the parts of the Go standard library (net/url, strconv,
    strings, encoding/hex, io) and of hashicorp/golang-lru that these files
    call.  Go strings are byte strings and are modelled by [string]; a
    [[]byte] is a [list byte]; a Go [int] is a [Z] in the 64-bit range.
    The decoders of YAML and JSON and the MAC are parameters of the model. *)

From Stdlib Require Import ZArith NArith QArith.
From Stdlib.Strings Require Import Ascii String Byte.
From stdpp Require Import base tactics decidable option list sorting strings gmap.

Open Scope string_scope.
Open Scope Z_scope.

(** ** Bytes of a string *)

Module Bytes.

Definition code (c : ascii) : N := N_of_ascii c.

(** [lo <= c && c <= hi] on bytes. *)
Definition between (lo hi c : ascii) : bool :=
  (code lo <=? code c)%N && (code c <=? code hi)%N.

Definition is_lower (c : ascii) : bool := between "a" "z" c.
Definition is_upper (c : ascii) : bool := between "A" "Z" c.
Definition is_digit (c : ascii) : bool := between "0" "9" c.
Definition is_alnum (c : ascii) : bool := is_lower c || is_upper c || is_digit c.

Fixpoint all (p : ascii -> bool) (s : string) : bool :=
  match s with
  | EmptyString => true
  | String c s' => p c && all p s'
  end.

(** [s[:n]] for [n <= len(s)]. *)
Fixpoint take (n : nat) (s : string) : string :=
  match n, s with
  | S n', String c s' => String c (take n' s')
  | _, _ => EmptyString
  end.

End Bytes.

(** [a < b] on Go strings. *)
Definition string_lt (a b : string) : Prop := String.ltb a b = true.

(** ** Go's [error] values that occur in the modelled packages *)

Inductive error : Type :=
  | EscapeError (s : string)            (* net/url: invalid URL escape *)
  | ErrNotExist (path : string)         (* os.ReadFile on a missing file *)
  | ErrRepoNotInitialized               (* gitstore: "repository not initialized" *)
  | ErrIndexYamlNotFound (cause : error)(* "index.yaml not found: %w" *)
  | ErrParseIndex                       (* "failed to parse index.yaml: %w" *)
  | ErrIndexNotLoaded                   (* "index not loaded" *)
  | ErrServerNotFound (name : string)   (* "server not found: %s" *)
  | ErrReadServerFile (cause : error)   (* "failed to read server file: %w" *)
  | ErrParseServerFile                  (* "failed to parse server file: %w" *)
  | ErrSyntax (s : string)              (* strconv.ErrSyntax *)
  | ErrRange (s : string)               (* strconv.ErrRange *)
  | ErrUnexpectedRead.                  (* an io error while reading a body *)

Inductive result (A : Type) : Type :=
  | Ok (a : A)
  | Err (e : error).
Arguments Ok {A} a.
Arguments Err {A} e.

(** ** net/url: path-segment escaping *)

Module URL.
Import Bytes.

Definition ishex (c : ascii) : bool :=
  between "0" "9" c || between "a" "f" c || between "A" "F" c.

Definition unhex (c : ascii) : N :=
  if between "0" "9" c then (code c - code "0")%N
  else if between "a" "f" c then (code c - code "a" + 10)%N
  else if between "A" "F" c then (code c - code "A" + 10)%N
  else 0%N.

(** [unhex(a)<<4 | unhex(b)] as a byte. *)
Definition unhex2 (a b : ascii) : ascii :=
  ascii_of_N (N.lor (N.shiftl (unhex a) 4) (unhex b) mod 256).

(** First pass of [unescape]: every ['%'] must be followed by two hex
    digits; the error carries the offending (at most three byte) piece. *)
Fixpoint unescape_check (s : string) : option error :=
  match s with
  | EmptyString => None
  | String c rest =>
      if Ascii.eqb c "%" then
        match rest with
        | String a (String b rest') =>
            if ishex a && ishex b then unescape_check rest'
            else Some (EscapeError (Bytes.take 3 s))
        | _ => Some (EscapeError (Bytes.take 3 s))
        end
      else unescape_check rest
  end.

(** Second pass of [unescape] in path-segment mode: ['+'] stays as it is. *)
Fixpoint unescape_build (s : string) : string :=
  match s with
  | EmptyString => EmptyString
  | String c rest =>
      if Ascii.eqb c "%" then
        match rest with
        | String a (String b rest') => String (unhex2 a b) (unescape_build rest')
        | _ => String c (unescape_build rest)
        end
      else String c (unescape_build rest)
  end.

Definition PathUnescape (s : string) : result string :=
  match unescape_check s with
  | Some e => Err e
  | None => Ok (unescape_build s)
  end.

(** [shouldEscape(c, encodePathSegment)]. *)
Definition shouldEscape (c : ascii) : bool :=
  if is_alnum c then false
  else if Ascii.eqb c "-" || Ascii.eqb c "_" || Ascii.eqb c "." || Ascii.eqb c "~"
  then false
  else if Ascii.eqb c "$" || Ascii.eqb c "&" || Ascii.eqb c "+" || Ascii.eqb c ","
          || Ascii.eqb c "/" || Ascii.eqb c ":" || Ascii.eqb c ";" || Ascii.eqb c "="
          || Ascii.eqb c "?" || Ascii.eqb c "@"
  then Ascii.eqb c "/" || Ascii.eqb c ";" || Ascii.eqb c "," || Ascii.eqb c "?"
  else true.

(** ["0123456789ABCDEF"[n]]. *)
Definition upperhex (n : N) : ascii :=
  if (n <? 10)%N then ascii_of_N (code "0" + n) else ascii_of_N (code "A" + (n - 10)).

(** Percent-encoding under an escaping policy [esc]: an escaped byte [c]
    becomes ['%'], [upperhex[c>>4]], [upperhex[c&15]]. *)
Fixpoint escape_with (esc : ascii -> bool) (s : string) : string :=
  match s with
  | EmptyString => EmptyString
  | String c rest =>
      if esc c then
        String "%" (String (upperhex (N.shiftr (code c) 4))
                   (String (upperhex (N.land (code c) 15)) (escape_with esc rest)))
      else String c (escape_with esc rest)
  end.

Definition PathEscape (s : string) : string := escape_with shouldEscape s.

(** Every ['%'] of [s] is escaped under the policy [esc]. *)
Definition escapes_percent (esc : ascii -> bool) (s : string) : bool :=
  Bytes.all (fun c => esc c || negb (Ascii.eqb c "%")) s.

End URL.

(** ** strconv.Atoi on a 64-bit platform *)

Module Strconv.
Import Bytes.

Definition int_min : Z := - 2 ^ 63.
Definition int_max : Z := 2 ^ 63 - 1.

(** The value of a run of decimal digits, most significant first;
    [None] when a byte is not a digit. *)
Fixpoint digits_value (acc : Z) (s : string) : option Z :=
  match s with
  | EmptyString => Some acc
  | String c rest =>
      if is_digit c then digits_value (acc * 10 + Z.of_N (code c - code "0")) rest
      else None
  end.

(** [Atoi]: an optional sign, then at least one digit and nothing else
    (base 10, so no underscores); a value outside the [int] range is
    [ErrRange], anything malformed is [ErrSyntax]. *)
Definition Atoi (s : string) : result Z :=
  match s with
  | EmptyString => Err (ErrSyntax s)
  | String c rest =>
      let neg := Ascii.eqb c "-" in
      let body := if neg || Ascii.eqb c "+" then rest else s in
      match body with
      | EmptyString => Err (ErrSyntax s)
      | _ =>
          match digits_value 0 body with
          | None => Err (ErrSyntax s)
          | Some un =>
              let n := if neg then - un else un in
              if (n <? int_min) || (int_max <? n) then Err (ErrRange s) else Ok n
          end
      end
  end.

End Strconv.

(** ** 64-bit machine integers and floats *)

(** Two's complement wrap-around of [atomic.Int64] arithmetic. *)
Definition wrap64 (z : Z) : Z := (z + 2 ^ 63) mod 2 ^ 64 - 2 ^ 63.

(** The [float64] operations that the catalog uses.  The conversion from
    an integer is exact at zero: only the integer 0 converts to a zero. *)
Class Float64 : Type := {
  float64 : Type;
  f64_zero : float64;
  f64_of_int64 : Z -> float64;
  f64_div : float64 -> float64 -> float64;
  f64_is_zero : float64 -> bool;
  f64_of_int64_zero : forall z : Z, f64_is_zero (f64_of_int64 z) = true -> z = 0
}.

(** A quotient together with the fact whether its divisor was zero. *)
Inductive quotient {F : Float64} : Type :=
  | Quotient (q : float64)
  | DivisionByZero.

Definition f64_quo {F : Float64} (x y : float64) : quotient :=
  if f64_is_zero y then DivisionByZero else Quotient (f64_div x y).

(** ** internal/domain *)

Module Domain.

Record KeyValueInput : Type := {
  kv_Name : string;
  kv_Description : string;
  kv_IsRequired : bool;
  kv_IsSecret : bool;
  kv_Default : string;
  kv_Choices : list string
}.

Record Transport : Type := {
  tr_Type : string;
  tr_URL : string;
  tr_Headers : list KeyValueInput
}.

Record EnvironmentVariable : Type := {
  env_Name : string;
  env_Description : string;
  env_IsRequired : bool;
  env_IsSecret : bool;
  env_Default : string;
  env_Choices : list string
}.

Record Argument : Type := {
  arg_Type : string;
  arg_Name : string;
  arg_Description : string;
  arg_IsRequired : bool;
  arg_Default : string;
  arg_Choices : list string
}.

Record Package : Type := {
  pkg_RegistryType : string;
  pkg_RegistryBaseURL : string;
  pkg_Identifier : string;
  pkg_Version : string;
  pkg_FileSHA256 : string;
  pkg_RuntimeHint : string;
  pkg_Transport : Transport;
  pkg_EnvironmentVariables : list EnvironmentVariable;
  pkg_PackageArguments : list Argument;
  pkg_RuntimeArguments : list Argument
}.

Record Remote : Type := {
  rem_Type : string;
  rem_URL : string;
  rem_Headers : list KeyValueInput
}.

Record Repository : Type := {
  repo_URL : string;
  repo_Source : string;
  repo_ID : string
}.

Record ServerJSON : Type := {
  Schema : string;
  Name : string;
  Description : string;
  Version : string;
  Title : string;
  WebsiteURL : string;
  Repository_ : option Repository;
  Packages : list Package;
  Remotes : list Remote
}.

Record OfficialMeta : Type := {
  Status : string;
  PublishedAt : Z;
  IsLatest : bool
}.

(** [PublisherProvided] is never set by the service and is left out. *)
Record ServerMeta : Type := {
  Official : option OfficialMeta
}.

Record IndexEntry : Type := {
  entry_Name : string;
  entry_Path : string;
  entry_Description : string;
  entry_Version : string;
  entry_Labels : list (string * string)
}.

Record Index : Type := {
  idx_Version : string;
  idx_Commit : string;
  idx_UpdatedAt : string;
  Servers : list IndexEntry
}.

Record ServerResponse : Type := {
  Server : ServerJSON;
  Meta : option ServerMeta
}.

Record ListMetadata : Type := {
  NextCursor : string;
  Count : Z
}.

Record ServerListResponse : Type := {
  list_Servers : list ServerResponse;
  Metadata : ListMetadata
}.

Record CacheStats {F : Float64} : Type := {
  stats_Size : Z;
  stats_Capacity : Z;
  HitRate : float64
}.

Record ErrorResponse : Type := {
  err_Status : Z;
  err_Title : string;
  err_Detail : string
}.

(** [ServerNameRegex]: [^[a-zA-Z0-9.-]+/[a-zA-Z0-9._-]+$]. *)
Definition namespace_byte (c : ascii) : bool :=
  Bytes.is_alnum c || Ascii.eqb c "." || Ascii.eqb c "-".

Definition local_byte (c : ascii) : bool :=
  Bytes.is_alnum c || Ascii.eqb c "." || Ascii.eqb c "_" || Ascii.eqb c "-".

(** After at least one namespace byte ([seen]), a slash and a nonempty
    run of local bytes up to the end of the text. *)
Fixpoint match_server_name (seen : bool) (s : string) : bool :=
  match s with
  | EmptyString => false
  | String c rest =>
      if namespace_byte c then match_server_name true rest
      else if Ascii.eqb c "/" then
        seen && negb (String.eqb rest EmptyString) && Bytes.all local_byte rest
      else false
  end.

Definition ServerNameRegex_MatchString (s : string) : bool :=
  match_server_name false s.

End Domain.

(** ** internal/gitstore: reading the working copy *)

Module GitStore.

(** The clone on disk: whether [repo] is set, and the files at the
    current HEAD by repository-relative path. *)
Record t : Type := {
  initialized : bool;
  files : gmap string (list byte)
}.

Definition ReadFile (s : t) (path : string) : result (list byte) :=
  if negb (initialized s) then Err ErrRepoNotInitialized
  else match files s !! path with
       | Some content => Ok content
       | None => Err (ErrNotExist path)
       end.

End GitStore.

(** ** hashicorp/golang-lru: a bounded map with least-recently-used eviction *)

Module LRU.
Section Cache.
Context {V : Type}.

(** [items] has the most recently used entry first. *)
Record t : Type := {
  size : nat;
  items : list (string * V)
}.

Definition New (n : nat) : t := {| size := n; items := [] |}.

Definition remove (k : string) (l : list (string * V)) : list (string * V) :=
  filter (fun kv => kv.1 <> k) l.

Definition find (k : string) (l : list (string * V)) : option V :=
  snd <$> List.find (fun kv => bool_decide (kv.1 = k)) l.

(** A hit moves the entry to the front. *)
Definition Get (k : string) (c : t) : option (V * t) :=
  match find k (items c) with
  | Some v => Some (v, {| size := size c; items := (k, v) :: remove k (items c) |})
  | None => None
  end.

(** An insert puts the entry in front and evicts the oldest one when
    the cache grows beyond its size. *)
Definition Add (k : string) (v : V) (c : t) : t :=
  match find k (items c) with
  | Some _ => {| size := size c; items := (k, v) :: remove k (items c) |}
  | None =>
      let l := (k, v) :: items c in
      {| size := size c;
         items := if decide (size c < length l)%nat then removelast l else l |}
  end.

Definition Purge (c : t) : t := {| size := size c; items := [] |}.

Definition Len (c : t) : Z := Z.of_nat (length (items c)).
End Cache.
Arguments t : clear implicits.
End LRU.

(** ** internal/registry: the catalog *)

Module Registry.
Import Domain.

Record t : Type := {
  store : GitStore.t;
  cache : LRU.t ServerJSON;
  index : option Index;
  cacheSize : Z;
  cacheHits : Z;
  cacheMisses : Z;
  lastSyncAt : Z
}.

Definition with_cache (c : LRU.t ServerJSON) (r : t) : t :=
  {| store := store r; cache := c; index := index r; cacheSize := cacheSize r;
     cacheHits := cacheHits r; cacheMisses := cacheMisses r;
     lastSyncAt := lastSyncAt r |}.

Definition with_hits (n : Z) (r : t) : t :=
  {| store := store r; cache := cache r; index := index r; cacheSize := cacheSize r;
     cacheHits := n; cacheMisses := cacheMisses r; lastSyncAt := lastSyncAt r |}.

Definition with_misses (n : Z) (r : t) : t :=
  {| store := store r; cache := cache r; index := index r; cacheSize := cacheSize r;
     cacheHits := cacheHits r; cacheMisses := n; lastSyncAt := lastSyncAt r |}.

Definition with_index (i : Index) (now : Z) (r : t) : t :=
  {| store := store r; cache := cache r; index := Some i; cacheSize := cacheSize r;
     cacheHits := cacheHits r; cacheMisses := cacheMisses r; lastSyncAt := now |}.

(** The working copy is owned by the sync controller, which replaces its
    content on a pull. *)
Definition with_store (s : GitStore.t) (r : t) : t :=
  {| store := s; cache := cache r; index := index r; cacheSize := cacheSize r;
     cacheHits := cacheHits r; cacheMisses := cacheMisses r;
     lastSyncAt := lastSyncAt r |}.

(** [New]: a nil store is the caller's error and is not modelled; the
    zero [time.Time] is 0. *)
Definition New (s : GitStore.t) (size : Z) : t :=
  let size := if size <=? 0 then 1000 else size in
  {| store := s; cache := LRU.New (Z.to_nat size); index := None; cacheSize := size;
     cacheHits := 0; cacheMisses := 0; lastSyncAt := 0 |}.

(** The order of [sort.Slice] with [less(i, j) = servers[i].Name < servers[j].Name].
    [sort.Slice] is not a stable sort and promises no order among rows
    of equal name; [sort_by_name] is one sorted arrangement of the rows,
    and it is the arrangement of [sort.Slice] when the names are
    pairwise distinct, where there is only one.  Statements about which
    rows are on a page are made for pairwise distinct names; what is
    stated without that hypothesis (counts, names, status codes) is the
    same for every sorted arrangement. *)
Definition name_le (a b : IndexEntry) : Prop :=
  String.le (entry_Name a) (entry_Name b).

Definition sort_by_name (l : list IndexEntry) : list IndexEntry :=
  merge_sort name_le l.

(** [a.Name < b.Name], the comparison of Go strings byte by byte. *)
Definition name_lt (a b : IndexEntry) : Prop :=
  String.ltb (entry_Name a) (entry_Name b) = true.

(** The rows whose name comes strictly after [cursor]. *)
Definition after (cursor : string) (l : list IndexEntry) : list IndexEntry :=
  filter (fun e => String.ltb cursor (entry_Name e) = true) l.

Definition minimal (entry : IndexEntry) : ServerJSON :=
  {| Schema := EmptyString; Name := entry_Name entry; Description := entry_Description entry;
     Version := entry_Version entry; Title := EmptyString; WebsiteURL := EmptyString;
     Repository_ := None; Packages := []; Remotes := [] |}.

Definition IndexStatus (r : t) : string :=
  match index r with
  | None => "not_loaded"
  | Some _ => "valid"
  end.

Definition ServerCount (r : t) : Z :=
  match index r with
  | None => 0
  | Some i => Z.of_nat (length (Servers i))
  end.

(** [CacheStats]: [None] stands for a division by zero. *)
Definition CacheStats {F : Float64} (r : t) : option CacheStats :=
  let hits := cacheHits r in
  let misses := cacheMisses r in
  let total := wrap64 (hits + misses) in
  let hitRate :=
    if total >? 0 then f64_quo (f64_of_int64 hits) (f64_of_int64 total)
    else Quotient f64_zero in
  match hitRate with
  | Quotient q =>
      Some {| stats_Size := LRU.Len (cache r); stats_Capacity := cacheSize r;
              HitRate := q |}
  | DivisionByZero => None
  end.

Section WithYAML.
(** [yaml.Unmarshal] into a fresh [domain.Index] and into a fresh
    [domain.ServerJSON]; [None] is a decoding error. *)
Variable yaml_Index : list byte -> option Index.
Variable yaml_ServerJSON : list byte -> option ServerJSON.

(** [now] is the reading of [time.Now()]. *)
Definition LoadIndex (now : Z) (r : t) : result unit * t :=
  match GitStore.ReadFile (store r) "index.yaml" with
  | Err e => (Err (ErrIndexYamlNotFound e), r)
  | Ok content =>
      match yaml_Index content with
      | None => (Err ErrParseIndex, r)
      | Some i => (Ok tt, with_index i now r)
      end
  end.

Definition Refresh (now : Z) (r : t) : result unit * t :=
  let r1 := with_cache (LRU.Purge (cache r)) r in
  let r2 := with_hits 0 r1 in
  let r3 := with_misses 0 r2 in
  LoadIndex now r3.

(** The part of [GetServer] after the name has been normalised. *)
Definition lookup (decodedName : string) (r : t) : result ServerJSON * t :=
  match LRU.Get decodedName (cache r) with
  | Some (server, c) =>
      (Ok server, with_hits (wrap64 (cacheHits r + 1)) (with_cache c r))
  | None =>
      let r1 := with_misses (wrap64 (cacheMisses r + 1)) r in
      match index r1 with
      | None => (Err ErrIndexNotLoaded, r1)
      | Some i =>
          match List.find (fun e => String.eqb (entry_Name e) decodedName) (Servers i) with
          | None => (Err (ErrServerNotFound decodedName), r1)
          | Some entry =>
              match GitStore.ReadFile (store r1) (entry_Path entry) with
              | Err e => (Err (ErrReadServerFile e), r1)
              | Ok content =>
                  match yaml_ServerJSON content with
                  | None => (Err ErrParseServerFile, r1)
                  | Some server =>
                      (Ok server, with_cache (LRU.Add decodedName server (cache r1)) r1)
                  end
              end
          end
      end
  end.

Definition GetServer (name : string) (r : t) : result ServerJSON * t :=
  let decodedName :=
    match URL.PathUnescape name with
    | Ok d => d
    | Err _ => name
    end in
  lookup decodedName r.

(** The loop that collects the results of a page. *)
Fixpoint hydrate (entries : list IndexEntry) (r : t) : list ServerResponse * t :=
  match entries with
  | [] => ([], r)
  | entry :: rest =>
      let '(res, r1) := GetServer (entry_Name entry) r in
      let server :=
        match res with
        | Ok s => s
        | Err _ => minimal entry
        end in
      let '(out, r2) := hydrate rest r1 in
      ({| Server := server; Meta := None |} :: out, r2)
  end.

Definition clamp_limit (limit : Z) : Z :=
  let limit := if limit <=? 0 then 30 else limit in
  if limit >? 100 then 100 else limit.

(** [startIdx]: one past the first entry named [cursor], 0 when the
    cursor is empty or names no entry. *)
Definition start_index (cursor : string) (servers : list IndexEntry) : Z :=
  if String.eqb cursor EmptyString then 0
  else match list_find (fun s => entry_Name s = cursor) servers with
       | Some (i, _) => Z.of_nat i + 1
       | None => 0
       end.

Definition end_index (startIdx limit : Z) (servers : list IndexEntry) : Z :=
  let endIdx := startIdx + limit in
  if endIdx >? Z.of_nat (length servers) then Z.of_nat (length servers) else endIdx.

(** [servers[startIdx:endIdx]]. *)
Definition slice (startIdx endIdx : Z) (servers : list IndexEntry) : list IndexEntry :=
  take (Z.to_nat (endIdx - startIdx)) (drop (Z.to_nat startIdx) servers).

Definition next_cursor (endIdx : Z) (servers : list IndexEntry) : string :=
  if endIdx <? Z.of_nat (length servers) then
    match servers !! Z.to_nat (endIdx - 1) with
    | Some e => entry_Name e
    | None => EmptyString
    end
  else EmptyString.

(** The rows of the index that a call of [ListServers] puts on its page. *)
Definition page_rows (i : Index) (cursor : string) (limit : Z) : list IndexEntry :=
  let limit := clamp_limit limit in
  let servers := sort_by_name (Servers i) in
  let startIdx := start_index cursor servers in
  slice startIdx (end_index startIdx limit servers) servers.

Definition ListServers (cursor : string) (limit : Z) (r : t)
  : result ServerListResponse * t :=
  match index r with
  | None => (Err ErrIndexNotLoaded, r)
  | Some i =>
      let limit := clamp_limit limit in
      let servers := sort_by_name (Servers i) in
      let startIdx := start_index cursor servers in
      let endIdx := end_index startIdx limit servers in
      let '(results, r1) := hydrate (slice startIdx endIdx servers) r in
      let nextCursor := next_cursor endIdx servers in
      (Ok {| list_Servers := results;
             Metadata := {| NextCursor := nextCursor;
                            Count := Z.of_nat (length results) |} |}, r1)
  end.

End WithYAML.
End Registry.

(** ** internal/api: the read API handlers *)

Module API.
Import Domain.

Inductive Payload : Type :=
  | PList (resp : ServerListResponse)
  | PServer (resp : ServerResponse)
  | PError (resp : ErrorResponse).

Record Response : Type := {
  status : Z;
  payload : Payload
}.

Definition StatusOK : Z := 200.
Definition StatusBadRequest : Z := 400.
Definition StatusUnauthorized : Z := 401.
Definition StatusNotFound : Z := 404.
Definition StatusMethodNotAllowed : Z := 405.
Definition StatusServiceUnavailable : Z := 503.

Definition writeError (code : Z) (title detail : string) : Response :=
  {| status := code;
     payload := PError {| err_Status := code; err_Title := title; err_Detail := detail |} |}.

(** The [limit] that [Handlers.ListServers] passes on, from the text of
    the query parameter (empty when the parameter is absent). *)
Definition query_limit (limitStr : string) : Z :=
  if String.eqb limitStr EmptyString then 30
  else match Strconv.Atoi limitStr with
       | Ok l => if l >? 0 then l else 30
       | Err _ => 30
       end.

Section WithYAML.
Variable yaml_ServerJSON : list byte -> option ServerJSON.

Definition ListServers (cursor limitStr : string) (r : Registry.t)
  : Response * Registry.t :=
  let limit := query_limit limitStr in
  match Registry.ListServers yaml_ServerJSON cursor limit r with
  | (Err _, r1) =>
      (writeError StatusServiceUnavailable "Service Unavailable"
         "Index not available. Ensure index.yaml exists and is valid.", r1)
  | (Ok resp, r1) => ({| status := StatusOK; payload := PList resp |}, r1)
  end.

Definition GetServer (serverName : string) (r : Registry.t)
  : Response * Registry.t :=
  if String.eqb serverName EmptyString then
    (writeError StatusBadRequest "Bad Request" "Server name is required", r)
  else
    let decodedName :=
      match URL.PathUnescape serverName with
      | Ok d => d
      | Err _ => serverName
      end in
    match Registry.GetServer yaml_ServerJSON decodedName r with
    | (Err _, r1) =>
        (writeError StatusNotFound "Not Found" ("Server not found: " ++ decodedName), r1)
    | (Ok server, r1) =>
        ({| status := StatusOK;
            payload := PServer
              {| Server := server;
                 Meta := Some {| Official := Some
                   {| Status := "active"; PublishedAt := Registry.lastSyncAt r1;
                      IsLatest := true |} |} |} |}, r1)
    end.
End WithYAML.
End API.

(** ** internal/sync: the trigger channel and the webhook ingress *)

Module Manager.

(** [triggerChan] is a channel of capacity one; the model keeps the
    number of triggers that wait in it. *)
Record t : Type := {
  triggerChan : nat
}.

(** [Trigger]: a send that does not block; [true] when the trigger
    went into the channel, [false] when one was pending already. *)
Definition Trigger (m : t) : bool * t :=
  if decide (triggerChan m < 1)%nat then (true, {| triggerChan := S (triggerChan m) |})
  else (false, m).

End Manager.

Module Webhook.

Record PushEvent : Type := {
  Ref : string;
  Before : string;
  After : string;
  repo_FullName : string;
  repo_CloneURL : string;
  pusher_Name : string;
  pusher_Email : string;
  Commits : list string
}.

Record WebhookHandler : Type := {
  secret : list byte;
  branch : string
}.

(** A request body is a reader: it delivers [data] and then ends, with
    EOF or with an error. *)
Record BodyReader : Type := {
  data : list byte;
  ending : option error
}.

(** Header names are taken in the spelling the handler asks for. *)
Record Request : Type := {
  Method : string;
  Header : gmap string (list string);
  Body : BodyReader;
  RemoteAddr : string
}.

Definition Header_Get (h : gmap string (list string)) (key : string) : string :=
  match h !! key with
  | Some (v :: _) => v
  | _ => EmptyString
  end.

Definition body_limit : Z := 10 * 1024 * 1024.

(** The request [r] with only the first [n] bytes of its body. *)
Definition first_bytes (n : Z) (r : Request) : Request :=
  {| Method := Method r; Header := Header r;
     Body := {| data := take (Z.to_nat n) (data (Body r)); ending := None |};
     RemoteAddr := RemoteAddr r |}.

(** [io.ReadAll(io.LimitReader(body, n))]: the reader stops with EOF
    after [n] bytes, whatever follows them. *)
Definition ReadAll_LimitReader (body : BodyReader) (n : Z) : result (list byte) :=
  if n <=? Z.of_nat (length (data body)) then Ok (take (Z.to_nat n) (data body))
  else match ending body with
       | None => Ok (data body)
       | Some e => Err e
       end.

(** [strings.SplitN(s, sep, 2)] for a one-byte separator. *)
Fixpoint cut (sep : ascii) (s : string) : option (string * string) :=
  match s with
  | EmptyString => None
  | String c rest =>
      if Ascii.eqb c sep then Some (EmptyString, rest)
      else match cut sep rest with
           | Some (a, b) => Some (String c a, b)
           | None => None
           end
  end.

Definition SplitN2 (s : string) (sep : ascii) : list string :=
  match cut sep s with
  | Some (a, b) => [a; b]
  | None => [s]
  end.

(** [hex.EncodeToString]. *)
Definition hexdigit (n : N) : ascii :=
  if (n <? 10)%N then ascii_of_N (Bytes.code "0" + n)
  else ascii_of_N (Bytes.code "a" + (n - 10)).

Fixpoint EncodeToString (src : list byte) : string :=
  match src with
  | [] => EmptyString
  | b :: rest =>
      String (hexdigit (N.shiftr (Byte.to_N b) 4))
        (String (hexdigit (N.land (Byte.to_N b) 15)) (EncodeToString rest))
  end.

(** [hmac.Equal]: equal lengths and equal bytes. *)
Fixpoint hmac_Equal (a b : list byte) : bool :=
  match a, b with
  | [], [] => true
  | x :: a', y :: b' => Byte.eqb x y && hmac_Equal a' b'
  | _, _ => false
  end.

(** [s[:n]]; [None] is the run-time panic for [n > len(s)]. *)
Definition slice_to (s : string) (n : nat) : option string :=
  if decide (n <= String.length s)%nat then Some (Bytes.take n s) else None.

Inductive Event : Type :=
  | EvLog (level msg : string)
  | EvUnmarshal (body : list byte)
  | EvTrigger.

Inductive Outcome : Type :=
  | Responded (code : Z) (body : string)
  | Panicked (msg : string).

Record Run : Type := {
  outcome : Outcome;
  manager : Manager.t;
  trace : list Event
}.

(** The literal bodies [{"status": "..."}] and
    [{"status": "...", "reason": "..."}] of the handler. *)
Definition quoted (s : string) : string :=
  String "034" (s ++ String "034" EmptyString).

Definition json_status (st : string) (reason : option string) : string :=
  match reason with
  | None => "{" ++ quoted "status" ++ ": " ++ quoted st ++ "}"
  | Some why =>
      "{" ++ quoted "status" ++ ": " ++ quoted st ++ ", "
          ++ quoted "reason" ++ ": " ++ quoted why ++ "}"
  end.

(** [http.Error]. *)
Definition http_Error (msg : string) (code : Z) : Outcome :=
  Responded code (msg ++ String "010" EmptyString).

Section WithCodecs.
(** [hmac.New(sha256.New, key)] applied to a message, and
    [json.Unmarshal] into a fresh [PushEvent]. *)
Variable hmac_sha256 : list byte -> list byte -> list byte.
Variable json_PushEvent : list byte -> option PushEvent.

Definition validateSignature (h : WebhookHandler) (signature : string)
    (body : list byte) : bool :=
  if String.eqb signature EmptyString then false
  else match SplitN2 signature "=" with
       | [p0; p1] =>
           if negb (String.eqb p0 "sha256") then false
           else
             let expectedMAC := EncodeToString (hmac_sha256 (secret h) body) in
             hmac_Equal (list_byte_of_string p1) (list_byte_of_string expectedMAC)
       | _ => false
       end.

Definition ServeHTTP (h : WebhookHandler) (m : Manager.t) (r : Request) : Run :=
  if negb (String.eqb (Method r) "POST") then
    {| outcome := http_Error "method not allowed" API.StatusMethodNotAllowed;
       manager := m; trace := [] |}
  else
    match ReadAll_LimitReader (Body r) body_limit with
    | Err _ =>
        {| outcome := http_Error "failed to read body" API.StatusBadRequest;
           manager := m;
           trace := [EvLog "ERROR" "failed to read webhook body"] |}
    | Ok body =>
        let signature := Header_Get (Header r) "X-Hub-Signature-256" in
        if negb (validateSignature h signature body) then
          {| outcome := http_Error "invalid signature" API.StatusUnauthorized;
             manager := m;
             trace := [EvLog "WARN" "invalid webhook signature"] |}
        else
          let eventType := Header_Get (Header r) "X-GitHub-Event" in
          let t1 := [EvLog "INFO" "webhook received"] in
          if negb (String.eqb eventType "push") then
            {| outcome := Responded API.StatusOK
                 (json_status "ignored" (Some "not a push event"));
               manager := m;
               trace := (t1 ++ [EvLog "DEBUG" "ignoring non-push event"])%list |}
          else
            let t2 := (t1 ++ [EvUnmarshal body])%list in
            match json_PushEvent body with
            | None =>
                {| outcome := http_Error "invalid payload" API.StatusBadRequest;
                   manager := m;
                   trace := (t2 ++ [EvLog "ERROR" "failed to parse push event"])%list |}
            | Some event =>
                let expectedRef := "refs/heads/" ++ branch h in
                if negb (String.eqb (Ref event) expectedRef) then
                  {| outcome := Responded API.StatusOK
                       (json_status "ignored" (Some "different branch"));
                     manager := m;
                     trace := (t2 ++ [EvLog "DEBUG" "ignoring push to different branch"])%list |}
                else
                  match slice_to (Before event) 8, slice_to (After event) 8 with
                  | Some _, Some _ =>
                      let '(_, m1) := Manager.Trigger m in
                      {| outcome := Responded API.StatusOK (json_status "accepted" None);
                         manager := m1;
                         trace := (t2 ++ [EvLog "INFO" "push event for tracked branch";
                                          EvTrigger])%list |}
                  | _, _ =>
                      {| outcome := Panicked "slice bounds out of range";
                         manager := m; trace := t2 |}
                  end
            end
    end.
End WithCodecs.
End Webhook.

(** ** Callers of the catalog *)

Module Client.
Import Domain.

(** A read of the catalog: [get(name)] or [list(cursor, limit)]. *)
Inductive Call : Type :=
  | CallGet (name : string)
  | CallList (cursor : string) (limit : Z).

Section WithYAML.
Variable yaml_ServerJSON : list byte -> option ServerJSON.

(** The error of one call, if any, and the catalog after it. *)
Definition call (c : Call) (r : Registry.t) : option error * Registry.t :=
  match c with
  | CallGet name =>
      match Registry.GetServer yaml_ServerJSON name r with
      | (Ok _, r1) => (None, r1)
      | (Err e, r1) => (Some e, r1)
      end
  | CallList cursor limit =>
      match Registry.ListServers yaml_ServerJSON cursor limit r with
      | (Ok _, r1) => (None, r1)
      | (Err e, r1) => (Some e, r1)
      end
  end.

Fixpoint calls (cs : list Call) (r : Registry.t) : list (option error) * Registry.t :=
  match cs with
  | [] => ([], r)
  | c :: rest =>
      let '(o, r1) := call c r in
      let '(os, r2) := calls rest r1 in
      (o :: os, r2)
  end.

(** A full pagination pass: the first page is asked for with the
    empty cursor, every further page with the [nextCursor] of the
    page before, until a page comes without one.  The pass records
    the cursor of every request with its page; [None] when the
    catalog is unavailable or [fuel] requests were not enough. *)
Fixpoint paginate (fuel : nat) (cursor : string) (limit : Z) (r : Registry.t)
  : option (list (string * ServerListResponse)) * Registry.t :=
  match fuel with
  | O => (None, r)
  | S fuel' =>
      match Registry.ListServers yaml_ServerJSON cursor limit r with
      | (Err _, r1) => (None, r1)
      | (Ok resp, r1) =>
          if String.eqb (NextCursor (Metadata resp)) EmptyString
          then (Some [(cursor, resp)], r1)
          else
            match paginate fuel' (NextCursor (Metadata resp)) limit r1 with
            | (Some pages, r2) => (Some ((cursor, resp) :: pages), r2)
            | (None, r2) => (None, r2)
            end
      end
  end.
End WithYAML.

(** Hydration is name-faithful in a catalog when looking a row up by
    its name can only produce a manifest of that name: the row names
    are their own percent-decoding, a manifest file that decodes carries
    the name of its row, and so does every cached manifest. *)
Definition decoded (name : string) : string :=
  match URL.PathUnescape name with
  | Ok d => d
  | Err _ => name
  end.

Definition faithful (yaml_ServerJSON : list byte -> option ServerJSON)
    (r : Registry.t) : Prop :=
  (forall i e, Registry.index r = Some i -> e ∈ Servers i ->
     decoded (entry_Name e) = entry_Name e) /\
  (forall i e content sv, Registry.index r = Some i -> e ∈ Servers i ->
     GitStore.ReadFile (Registry.store r) (entry_Path e) = Ok content ->
     yaml_ServerJSON content = Some sv -> Name sv = entry_Name e) /\
  (forall k sv, (k, sv) ∈ LRU.items (Registry.cache r) -> Name sv = k).

(** The names on a page, in the order of the response. *)
Definition page_names (resp : ServerListResponse) : list string :=
  (fun s => Name (Server s)) <$> list_Servers resp.

Definition row_names (rows : list IndexEntry) : list string :=
  entry_Name <$> rows.

(** The names of the rows behind the pages of a pass, and the names of
    the manifests on them, page after page. *)
Definition pass_rows (i : Index) (limit : Z)
    (pages : list (string * ServerListResponse)) : list string :=
  concat ((fun p => row_names (Registry.page_rows i p.1 limit)) <$> pages).

Definition pass_names (pages : list (string * ServerListResponse)) : list string :=
  concat ((fun p => page_names p.2) <$> pages).

End Client.

(** ** Concrete catalogs and requests used in the examples below *)

Module Sample.
Import Domain.

(** Stand-ins for the decoders in the examples: the index decoder
    rejects every content; the manifest decoder reads the whole file
    as the manifest's name. *)
Definition yaml_Index : list byte -> option Index := fun _ => None.

Definition named (n : string) : ServerJSON :=
  {| Schema := EmptyString; Name := n; Description := EmptyString;
     Version := EmptyString; Title := EmptyString; WebsiteURL := EmptyString;
     Repository_ := None; Packages := []; Remotes := [] |}.

Definition yaml_ServerJSON : list byte -> option ServerJSON :=
  fun content => Some (named (string_of_list_byte content)).

Definition row (n p : string) : IndexEntry :=
  {| entry_Name := n; entry_Path := p; entry_Description := EmptyString;
     entry_Version := EmptyString; entry_Labels := [] |}.

Definition index_of (rows : list IndexEntry) : Index :=
  {| idx_Version := "1"; idx_Commit := "c0ffee"; idx_UpdatedAt := EmptyString;
     Servers := rows |}.

(** A catalog over a working copy with the given files, with the given
    rows loaded and nothing cached. *)
Definition catalog (fs : gmap string (list byte)) (rows : list IndexEntry) : Registry.t :=
  {| Registry.store := {| GitStore.initialized := true; GitStore.files := fs |};
     Registry.cache := LRU.New 1000;
     Registry.index := Some (index_of rows);
     Registry.cacheSize := 1000;
     Registry.cacheHits := 0;
     Registry.cacheMisses := 0;
     Registry.lastSyncAt := 1 |}.

(** Two rows whose manifest files were removed upstream together with
    index.yaml. *)
Definition stale : Registry.t :=
  catalog ∅ [row "io.example/a" "servers/a.yaml"; row "io.example/c" "servers/c.yaml"].

(** A catalog that never loaded an index. *)
Definition fresh : Registry.t :=
  Registry.New {| GitStore.initialized := true; GitStore.files := ∅ |} 1000.

(** Two rows whose manifest files carry other names than the rows. *)
Definition renamed : Registry.t :=
  catalog {[ "servers/a.yaml" := list_byte_of_string "io.example/z";
             "servers/b.yaml" := list_byte_of_string "io.example/y" ]}
          [row "io.example/a" "servers/a.yaml"; row "io.example/b" "servers/b.yaml"].

(** Three rows with manifest files that carry the rows' names. *)
Definition three : Registry.t :=
  catalog {[ "servers/a.yaml" := list_byte_of_string "io.example/a";
             "servers/b.yaml" := list_byte_of_string "io.example/b";
             "servers/c.yaml" := list_byte_of_string "io.example/c" ]}
          [row "io.example/c" "servers/c.yaml"; row "io.example/a" "servers/a.yaml";
           row "io.example/b" "servers/b.yaml"].

(** Forty rows [io.example/s00] to [io.example/s39], without files. *)
Definition digit (n : nat) : ascii := ascii_of_nat (48 + n).

Definition numbered (n : nat) : IndexEntry :=
  row (String.append "io.example/s"
         (String (digit (n / 10)) (String (digit (n mod 10)) EmptyString)))
      "servers/s.yaml".

Definition forty : Registry.t := catalog ∅ (numbered <$> seq 0 40).

(** Stand-ins for the webhook codecs: the MAC is one byte, the sum of
    the key and message bytes; every body decodes to a push to [main]
    that carries no commit ids. *)
Definition hmac_sha256 (key msg : list byte) : list byte :=
  match Byte.of_N (fold_right (fun b acc => (Byte.to_N b + acc) mod 256)%N 0%N
                     (key ++ msg)%list) with
  | Some b => [b]
  | None => []
  end.

Definition bare_push : Webhook.PushEvent :=
  {| Webhook.Ref := "refs/heads/main"; Webhook.Before := EmptyString;
     Webhook.After := EmptyString; Webhook.repo_FullName := EmptyString;
     Webhook.repo_CloneURL := EmptyString; Webhook.pusher_Name := EmptyString;
     Webhook.pusher_Email := EmptyString; Webhook.Commits := [] |}.

Definition json_PushEvent : list byte -> option Webhook.PushEvent :=
  fun _ => Some bare_push.

Definition handler : Webhook.WebhookHandler :=
  {| Webhook.secret := list_byte_of_string "s3cret"; Webhook.branch := "main" |}.

Definition idle : Manager.t := {| Manager.triggerChan := 0 |}.

Definition post (headers : gmap string (list string)) (body : list byte)
  : Webhook.Request :=
  {| Webhook.Method := "POST"; Webhook.Header := headers;
     Webhook.Body := {| Webhook.data := body; Webhook.ending := None |};
     Webhook.RemoteAddr := "192.0.2.1:4711" |}.

Definition small_body : list byte := list_byte_of_string "{}".

(** A body of 10 MiB and one byte. *)
Definition big_body : list byte :=
  replicate (Z.to_nat (Webhook.body_limit + 1)) "x"%byte.

(** Exact rationals in the place of [float64]. *)
Definition Q_is_zero (q : Q) : bool := Qnum q =? 0.

Definition Q_of_int64_zero (z : Z) : Q_is_zero (inject_Z z) = true -> z = 0 :=
  fun H => proj1 (Z.eqb_eq z 0) H.

Definition Q_Float64 : Float64 :=
  {| float64 := Q; f64_zero := 0%Q; f64_of_int64 := inject_Z; f64_div := Qdiv;
     f64_is_zero := Q_is_zero; f64_of_int64_zero := Q_of_int64_zero |}.

End Sample.

(** ** internal/middleware: metric labels *)

Module Middleware.

(** [normalizePath].  The slices [path[:12]] and [path[:10]] are in
    bounds where they are evaluated, behind [len(path) > 20] and
    [len(path) > 15]. *)
Definition normalizePath (path : string) : string :=
  if (20 <? Z.of_nat (String.length path))
     && String.eqb (Bytes.take 12 path) "/v0.1/servers"
     && negb (String.eqb path "/v0.1/servers")
  then "/v0.1/servers/{serverName}"
  else if (15 <? Z.of_nat (String.length path))
          && String.eqb (Bytes.take 10 path) "/v0/servers"
          && negb (String.eqb path "/v0/servers")
  then "/v0/servers/{serverName}"
  else path.

End Middleware.

(** ** internal/gitstore: pulling with retries *)

Module GitPull.

(** The errors of [Pull] and of [PullWithRetry]. *)
Inductive pull_error : Type :=
  | ErrNotInitialized                 (* "repository not initialized" *)
  | ErrAuth                           (* "failed to get auth: %w" *)
  | ErrPull                           (* "pull failed: %w" *)
  | ErrCommit                         (* "failed to update commit: %w" *)
  | ErrContext                        (* ctx.Err() *)
  | ErrRetries (n : Z) (last : pull_error)
                                      (* "pull failed after %d retries: %w" *)
  | ErrRetriesNil (n : Z).            (* the same, wrapping a nil error *)

Definition retries_exhausted (n : Z) (lastErr : option pull_error) : pull_error :=
  match lastErr with
  | Some e => ErrRetries n e
  | None => ErrRetriesNil n
  end.

(** What [PullWithRetry] does to the outside: a call of [Pull], or a
    completed wait of the given duration. *)
Inductive Step : Type :=
  | StepPull
  | StepWait (d : Z).

Definition Second : Z := 1000000000.

Section WithWorld.
(** [W] is the state of everything a pull depends on and changes: the
    remote, the clone on disk, the context.  [Pull] is one call of
    [Store.Pull]; [wait d] is the [select] between the end of the
    context and [time.After(d)]: [true] when the wait came to its end,
    [false] when the context ended first. *)
Context {W : Type}.
Variable Pull : W -> (pull_error + bool) * W.
Variable wait : Z -> W -> bool * W.

(** The loop of [PullWithRetry] with [n] iterations left. *)
Fixpoint retry (maxRetries : Z) (n : nat) (backoff : Z) (lastErr : option pull_error)
    (w : W) : (pull_error + bool) * W * list Step :=
  match n with
  | O => (inl (retries_exhausted maxRetries lastErr), w, [])
  | S n' =>
      match Pull w with
      | (inr changed, w1) => (inr changed, w1, [StepPull])
      | (inl err, w1) =>
          match wait backoff w1 with
          | (false, w2) => (inl ErrContext, w2, [StepPull])
          | (true, w2) =>
              let backoff' := backoff * 2 in
              let backoff' := if backoff' >? 30 * Second then 30 * Second else backoff' in
              let '(res, w3, steps) := retry maxRetries n' backoff' (Some err) w2 in
              (res, w3, StepPull :: StepWait backoff :: steps)
          end
      end
  end.

Definition PullWithRetry (maxRetries : Z) (w : W) : (pull_error + bool) * W * list Step :=
  retry maxRetries (Z.to_nat maxRetries) (1 * Second) None w.

(** The world after [k] attempts that each made a pull and then waited
    to the end of the wait; the first wait is [backoff], every further
    one twice the wait before it, at most thirty seconds. *)
Fixpoint after_attempts (k : nat) (backoff : Z) (w : W) : W :=
  match k with
  | O => w
  | S k' =>
      let w1 := (Pull w).2 in
      let w2 := (wait backoff w1).2 in
      after_attempts k' (Z.min (backoff * 2) (30 * Second)) w2
  end.

End WithWorld.

(** The waits of the schedule: one second, doubled each time, at most
    thirty seconds. *)
Fixpoint schedule (n : nat) (backoff : Z) : list Z :=
  match n with
  | O => []
  | S n' => backoff :: schedule n' (Z.min (backoff * 2) (30 * Second))
  end.

Fixpoint pulls (steps : list Step) : nat :=
  match steps with
  | [] => 0
  | StepPull :: rest => S (pulls rest)
  | StepWait _ :: rest => pulls rest
  end.

Fixpoint waits (steps : list Step) : list Z :=
  match steps with
  | [] => []
  | StepPull :: rest => waits rest
  | StepWait d :: rest => d :: waits rest
  end.

End GitPull.

(** ** internal/sync: the sync controller *)

Module Sync.

Record t : Type := {
  debounce : Z;
  lastSync : Z;
  syncing : bool
}.

Definition with_lastSync (now : Z) (m : t) : t :=
  {| debounce := debounce m; lastSync := now; syncing := syncing m |}.

Definition with_syncing (b : bool) (m : t) : t :=
  {| debounce := debounce m; lastSync := lastSync m; syncing := b |}.

Section WithWorld.
(** The world of [GitPull], with the clone on disk that the catalog
    reads, and the decoder of index.yaml. *)
Context {W : Type}.
Variable Pull : W -> (GitPull.pull_error + bool) * W.
Variable wait : Z -> W -> bool * W.
Variable working_copy : W -> GitStore.t.
Variable yaml_Index : list byte -> option Domain.Index.

(** [doSync].  [t_load] is the reading of the clock in [LoadIndex],
    [t_done] the reading that becomes [lastSync].  The catalog holds a
    pointer to the store, so it sees the clone as the pulls left it. *)
Definition doSync (t_load t_done : Z) (m : t) (r : Registry.t) (w : W)
  : t * Registry.t * W :=
  if syncing m then (m, r, w)
  else
    let '(res, w1, _) := GitPull.PullWithRetry Pull wait 3 w in
    let r1 := Registry.with_store (working_copy w1) r in
    match res with
    | inl _ => (with_syncing false m, r1, w1)
    | inr false => (with_syncing false (with_lastSync t_done m), r1, w1)
    | inr true =>
        match Registry.Refresh yaml_Index t_load r1 with
        | (Err _, r2) => (with_syncing false m, r2, w1)
        | (Ok _, r2) => (with_syncing false (with_lastSync t_done m), r2, w1)
        end
    end.

(** [debounceSync].  [now] is the reading of the clock in [time.Since]. *)
Definition debounceSync (now t_load t_done : Z) (m : t) (r : Registry.t) (w : W)
  : t * Registry.t * W :=
  if now - lastSync m <? debounce m then (m, r, w)
  else doSync t_load t_done m r w.

End WithWorld.

(** [n] calls of [Manager.Trigger] in a row. *)
Fixpoint triggers (n : nat) (m : Manager.t) : Manager.t :=
  match n with
  | O => m
  | S n' => triggers n' (Manager.Trigger m).2
  end.

End Sync.

(** ** internal/config: the configuration from the environment *)

Module Config.

Record Config : Type := {
  RegistryRepoURL : string;
  RegistryBranch : string;
  GitHubAppID : Z;
  GitHubAppPrivateKey : list byte;
  GitHubInstallationID : Z;
  WebhookSecret : string;
  PollInterval : Z;
  CloneTimeout : Z;
  DataPath : string;
  CacheSize : Z;
  Port : Z;
  OTLPEndpoint : string
}.

Inductive config_error : Type :=
  | Required (var : string)             (* "<var> is required" *)
  | Invalid (var : string) (cause : error)   (* "invalid <var>: %w" *)
  | KeyFile (cause : error)             (* "failed to read private key file: %w" *)
  | KeyRequired.                        (* neither of the two key variables *)

Definition Minute : Z := 60 * GitPull.Second.

Definition bind {A B : Type} (x : config_error + A) (k : A -> config_error + B)
  : config_error + B :=
  match x with
  | inl e => inl e
  | inr a => k a
  end.

Notation "'ask' x ':=' c 'in' k" := (bind c (fun x => k))
  (at level 10, x name, c at level 100, k at level 200).

Section WithOS.
(** The environment ([os.Getenv] gives the empty string for a variable
    that is not set), [os.ReadFile] and [time.ParseDuration]. *)
Variable env : gmap string string.
Variable ReadFile : string -> result (list byte).
Variable ParseDuration : string -> result Z.

Definition Getenv (key : string) : string :=
  match env !! key with
  | Some v => v
  | None => EmptyString
  end.

Definition required (var : string) : config_error + string :=
  if String.eqb (Getenv var) EmptyString then inl (Required var) else inr (Getenv var).

(** [strconv.ParseInt(s, 10, 64)] and [strconv.Atoi(s)] read the same
    numbers on a 64-bit platform. *)
Definition number (var s : string) : config_error + Z :=
  match Strconv.Atoi s with
  | Ok n => inr n
  | Err e => inl (Invalid var e)
  end.

Definition duration (var : string) (default : Z) : config_error + Z :=
  if String.eqb (Getenv var) EmptyString then inr default
  else match ParseDuration (Getenv var) with
       | Ok d => inr d
       | Err e => inl (Invalid var e)
       end.

Definition optional_number (var : string) (default : Z) : config_error + Z :=
  if String.eqb (Getenv var) EmptyString then inr default
  else number var (Getenv var).

Definition optional (var default : string) : string :=
  if String.eqb (Getenv var) EmptyString then default else Getenv var.

Definition private_key : config_error + list byte :=
  if negb (String.eqb (Getenv "GITHUB_APP_PRIVATE_KEY_PATH") EmptyString) then
    match ReadFile (Getenv "GITHUB_APP_PRIVATE_KEY_PATH") with
    | Ok key => inr key
    | Err e => inl (KeyFile e)
    end
  else if negb (String.eqb (Getenv "GITHUB_APP_PRIVATE_KEY") EmptyString) then
    inr (list_byte_of_string (Getenv "GITHUB_APP_PRIVATE_KEY"))
  else inl KeyRequired.

Definition Load : config_error + Config :=
  ask url := required "REGISTRY_REPO_URL" in
  let branch := optional "REGISTRY_BRANCH" "main" in
  ask appIDStr := required "GITHUB_APP_ID" in
  ask appID := number "GITHUB_APP_ID" appIDStr in
  ask key := private_key in
  ask installIDStr := required "GITHUB_INSTALLATION_ID" in
  ask installID := number "GITHUB_INSTALLATION_ID" installIDStr in
  ask secret := required "WEBHOOK_SECRET" in
  ask poll := duration "POLL_INTERVAL" (5 * Minute) in
  ask clone := duration "CLONE_TIMEOUT" (2 * Minute) in
  let dataPath := optional "DATA_PATH" "/data" in
  ask size := optional_number "CACHE_SIZE" 1000 in
  ask port := optional_number "PORT" 8080 in
  inr {| RegistryRepoURL := url; RegistryBranch := branch; GitHubAppID := appID;
         GitHubAppPrivateKey := key; GitHubInstallationID := installID;
         WebhookSecret := secret; PollInterval := poll; CloneTimeout := clone;
         DataPath := dataPath; CacheSize := size; Port := port;
         OTLPEndpoint := Getenv "OTLP_ENDPOINT" |}.

(** A variable is usable as a number or a duration when it is unset (or
    empty) or when its text is accepted; a key is available from a
    readable key file or else from the key value. *)
Definition number_ok (var : string) : Prop :=
  Getenv var = EmptyString \/ exists n, Strconv.Atoi (Getenv var) = Ok n.

Definition duration_ok (var : string) : Prop :=
  Getenv var = EmptyString \/ exists d, ParseDuration (Getenv var) = Ok d.

Definition key_ok : Prop :=
  (Getenv "GITHUB_APP_PRIVATE_KEY_PATH" <> EmptyString /\
   exists key, ReadFile (Getenv "GITHUB_APP_PRIVATE_KEY_PATH") = Ok key) \/
  (Getenv "GITHUB_APP_PRIVATE_KEY_PATH" = EmptyString /\
   Getenv "GITHUB_APP_PRIVATE_KEY" <> EmptyString).

End WithOS.
End Config.

(** ** package api: the other handlers *)

Module Handlers.
Import Domain.

Definition StatusNotImplemented : Z := 501.

Record VersionsResponse : Type := {
  server_name : string;
  versions : list (string * bool)
}.

Record StoreInfo : Type := {
  RepoURL : string;
  Branch : string;
  CurrentCommit : string
}.

Record HealthResponse {F : Float64} : Type := {
  health_Status : string;
  health_RepoURL : string;
  health_Branch : string;
  health_CommitSHA : string;
  health_LastSyncAt : string;
  health_IndexStatus : string;
  health_ServerCount : Z;
  health_CacheStats : option CacheStats
}.

(** [Health]; the answer is written with status 200.  [format] is
    [Time.Format(time.RFC3339)]. *)
Definition Health {F : Float64} (format : Z -> string) (store : StoreInfo)
    (r : Registry.t) : HealthResponse :=
  let indexStatus := Registry.IndexStatus r in
  let status := if negb (String.eqb indexStatus "valid") then "degraded" else "ok" in
  {| health_Status := status;
     health_RepoURL := RepoURL store;
     health_Branch := Branch store;
     health_CommitSHA := CurrentCommit store;
     health_LastSyncAt := format (Registry.lastSyncAt r);
     health_IndexStatus := indexStatus;
     health_ServerCount := Registry.ServerCount r;
     health_CacheStats := Registry.CacheStats r |}.

Section WithYAML.
Variable yaml_ServerJSON : list byte -> option ServerJSON.

Definition GetServerVersions (serverName : string) (r : Registry.t)
  : Z * (ErrorResponse + VersionsResponse) * Registry.t :=
  if String.eqb serverName EmptyString then
    (API.StatusBadRequest,
     inl {| err_Status := API.StatusBadRequest; err_Title := "Bad Request";
            err_Detail := "Server name is required" |}, r)
  else
    let decodedName := Client.decoded serverName in
    match Registry.GetServer yaml_ServerJSON decodedName r with
    | (Err _, r1) =>
        (API.StatusNotFound,
         inl {| err_Status := API.StatusNotFound; err_Title := "Not Found";
                err_Detail := String.append "Server not found: " decodedName |}, r1)
    | (Ok server, r1) =>
        (API.StatusOK,
         inr {| server_name := Name server; versions := [(Version server, true)] |}, r1)
    end.

Definition GetServerVersion (serverName version : string) (r : Registry.t)
  : API.Response * Registry.t :=
  if String.eqb serverName EmptyString then
    (API.writeError API.StatusBadRequest "Bad Request" "Server name is required", r)
  else
    let decodedName := Client.decoded serverName in
    match Registry.GetServer yaml_ServerJSON decodedName r with
    | (Err _, r1) =>
        (API.writeError API.StatusNotFound "Not Found"
           (String.append "Server not found: " decodedName), r1)
    | (Ok server, r1) =>
        if negb (String.eqb version "latest") && negb (String.eqb version (Version server))
        then
          (API.writeError API.StatusNotFound "Not Found"
             "Version not found. This registry only serves the latest version.", r1)
        else
          ({| API.status := API.StatusOK;
              API.payload := API.PServer
                {| Server := server;
                   Meta := Some {| Official := Some
                     {| Status := "active"; PublishedAt := Registry.lastSyncAt r1;
                        IsLatest := true |} |} |} |}, r1)
    end.

End WithYAML.
End Handlers.

(** ** internal/registry: searching the index *)

Module Search.
Import Domain.

(** [strings.Contains]. *)
Fixpoint has_prefix (p s : string) : bool :=
  match p, s with
  | EmptyString, _ => true
  | String a p', String b s' => Ascii.eqb a b && has_prefix p' s'
  | String _ _, EmptyString => false
  end.

Fixpoint Contains (s substr : string) : bool :=
  has_prefix substr s ||
  match s with
  | EmptyString => false
  | String _ s' => Contains s' substr
  end.

Definition is_ascii (c : ascii) : bool := (Bytes.code c <? 128)%N.

Definition lower_byte (c : ascii) : ascii :=
  if Bytes.is_upper c then ascii_of_N (Bytes.code c + 32) else c.

Fixpoint map_bytes (f : ascii -> ascii) (s : string) : string :=
  match s with
  | EmptyString => EmptyString
  | String c s' => String (f c) (map_bytes f s')
  end.

Section WithUnicode.
(** [strings.ToLower]: a string of ASCII bytes is lowered byte by byte;
    any other string goes through the Unicode tables, [unicode_lower]. *)
Variable unicode_lower : string -> string.

Definition ToLower (s : string) : string :=
  if Bytes.all is_ascii s then map_bytes lower_byte s else unicode_lower s.

Definition SearchServers (query : string) (r : Registry.t) : result (list IndexEntry) :=
  match Registry.index r with
  | None => Err ErrIndexNotLoaded
  | Some i =>
      let query := ToLower query in
      Ok (List.filter
            (fun entry => Contains (ToLower (entry_Name entry)) query
                          || Contains (ToLower (entry_Description entry)) query)
            (Servers i))
  end.

End WithUnicode.
End Search.

(** ** Histories of a catalog *)

Module History.

(** What happens to a catalog: reads, index loads with the reading of
    the clock, and pulls that leave a new clone on disk. *)
Inductive Op : Type :=
  | Get (name : string)
  | List (cursor : string) (limit : Z)
  | Refresh (now : Z)
  | LoadIndex (now : Z)
  | Pulled (s : GitStore.t).

Section WithYAML.
Variable yaml_Index : list byte -> option Domain.Index.
Variable yaml_ServerJSON : list byte -> option Domain.ServerJSON.

Definition step (o : Op) (r : Registry.t) : Registry.t :=
  match o with
  | Get name => (Registry.GetServer yaml_ServerJSON name r).2
  | List cursor limit => (Registry.ListServers yaml_ServerJSON cursor limit r).2
  | Refresh now => (Registry.Refresh yaml_Index now r).2
  | LoadIndex now => (Registry.LoadIndex yaml_Index now r).2
  | Pulled s => Registry.with_store s r
  end.

Definition run (ops : list Op) (r : Registry.t) : Registry.t :=
  fold_left (fun r o => step o r) ops r.

End WithYAML.

(** The cache holds every key once and no more entries than its size,
    which is the capacity that the statistics report. *)
Definition cache_ok (r : Registry.t) : Prop :=
  (length (LRU.items (Registry.cache r)) <= LRU.size (Registry.cache r))%nat /\
  NoDup (LRU.items (Registry.cache r)).*1 /\
  Z.of_nat (LRU.size (Registry.cache r)) = Registry.cacheSize r.

(** No manifest of the index can be had from the working copy: the file
    of every row is unreadable or does not decode. *)
Definition unreadable (yaml_ServerJSON : list byte -> option Domain.ServerJSON)
    (i : Domain.Index) (s : GitStore.t) : Prop :=
  forall e content, e ∈ Domain.Servers i ->
    GitStore.ReadFile s (Domain.entry_Path e) = Ok content ->
    yaml_ServerJSON content = None.

End History.

(** ** A deployment used in the examples below *)

Module Deployment.

(** The environment of a service that takes its key from a file and
    leaves the optional variables unset, apart from the port. *)
Definition env : gmap string string :=
  {[ "REGISTRY_REPO_URL" := "https://github.com/example/registry.git";
     "GITHUB_APP_ID" := "42";
     "GITHUB_APP_PRIVATE_KEY_PATH" := "/keys/app.pem";
     "GITHUB_APP_PRIVATE_KEY" := "inline";
     "GITHUB_INSTALLATION_ID" := "7";
     "WEBHOOK_SECRET" := "s3cret";
     "PORT" := "-1" ]}.

Definition ReadFile (path : string) : result (list byte) :=
  if String.eqb path "/keys/app.pem" then Ok (list_byte_of_string "pem")
  else Err (ErrNotExist path).

Definition ParseDuration (s : string) : result Z := Err (ErrSyntax s).

Definition loaded : Config.Config :=
  {| Config.RegistryRepoURL := "https://github.com/example/registry.git";
     Config.RegistryBranch := "main";
     Config.GitHubAppID := 42;
     Config.GitHubAppPrivateKey := list_byte_of_string "pem";
     Config.GitHubInstallationID := 7;
     Config.WebhookSecret := "s3cret";
     Config.PollInterval := 5 * Config.Minute;
     Config.CloneTimeout := 2 * Config.Minute;
     Config.DataPath := "/data";
     Config.CacheSize := 1000;
     Config.Port := -1;
     Config.OTLPEndpoint := EmptyString |}.

(** A stand-in for the index decoder that reads every index.yaml as
    the index of the three rows. *)
Definition rows : list Domain.IndexEntry :=
  [Sample.row "io.example/c" "servers/c.yaml"; Sample.row "io.example/a" "servers/a.yaml";
   Sample.row "io.example/b" "servers/b.yaml"].

Definition yaml_Index : list byte -> option Domain.Index :=
  fun _ => Some (Sample.index_of rows).

(** A catalog that has not loaded an index yet, over a working copy
    with index.yaml and the three manifests. *)
Definition cloned : Registry.t :=
  Registry.New
    {| GitStore.initialized := true;
       GitStore.files :=
         {[ "index.yaml" := list_byte_of_string "servers";
            "servers/a.yaml" := list_byte_of_string "io.example/a";
            "servers/b.yaml" := list_byte_of_string "io.example/b";
            "servers/c.yaml" := list_byte_of_string "io.example/c" ]} |} 100.

(** A signed delivery of an event that is not a push. *)
Definition ping : Webhook.Request :=
  Sample.post {[ "X-Hub-Signature-256" := ["sha256=4c"];
                 "X-GitHub-Event" := ["ping"] ]} Sample.small_body.

(** A stand-in for the JSON decoder that reads every body as a push to
    [main] with full commit ids, and a signed delivery of a push. *)
Definition pushed : Webhook.PushEvent :=
  {| Webhook.Ref := "refs/heads/main";
     Webhook.Before := "4b825dc642cb6eb9a060e54bf8d69288fbee4904";
     Webhook.After := "e69de29bb2d1d6434b8b29ae775ad8c2e48c5391";
     Webhook.repo_FullName := "example/registry";
     Webhook.repo_CloneURL := "https://github.com/example/registry.git";
     Webhook.pusher_Name := "octocat"; Webhook.pusher_Email := EmptyString;
     Webhook.Commits := [] |}.

Definition json_PushEvent : list byte -> option Webhook.PushEvent :=
  fun _ => Some pushed.

Definition delivery : Webhook.Request :=
  Sample.post {[ "X-Hub-Signature-256" := ["sha256=4c"];
                 "X-GitHub-Event" := ["push"] ]} Sample.small_body.

(** A POST without a signature header whose connection breaks after
    the first byte of the body. *)
Definition broken : Webhook.Request :=
  {| Webhook.Method := "POST"; Webhook.Header := ∅;
     Webhook.Body := {| Webhook.data := list_byte_of_string "{";
                        Webhook.ending := Some ErrUnexpectedRead |};
     Webhook.RemoteAddr := "192.0.2.1:4711" |}.

(** A remote that cannot be reached: the world counts the pulls made;
    the first two pulls fail in the fetch, the third one and every later
    one while the credentials are fetched.  No wait is cut short. *)
Definition unreachable (w : nat) : (GitPull.pull_error + bool) * nat :=
  (inl (if (w <? 2)%nat then GitPull.ErrPull else GitPull.ErrAuth), S w).

Definition patient (d : Z) (w : nat) : bool * nat := (true, w).

End Deployment.

(** * Properties *)

(** ** The model on small inputs *)

Example PathEscape_slash : URL.PathEscape "io.example/demo" = "io.example%2Fdemo".
Proof. reflexivity. Qed.

Example PathUnescape_lower_hex :
  URL.PathUnescape "io.example%2fdemo" = Ok "io.example/demo".
Proof. reflexivity. Qed.

Example PathUnescape_not_hex : URL.PathUnescape "a%zzb" = Err (EscapeError "%zz").
Proof. reflexivity. Qed.

Example PathUnescape_cut_short : URL.PathUnescape "ab%4" = Err (EscapeError "%4").
Proof. reflexivity. Qed.

Example Atoi_signed : Strconv.Atoi "-12" = Ok (-12) /\ Strconv.Atoi "+7" = Ok 7.
Proof. split; reflexivity. Qed.

Example Atoi_largest : Strconv.Atoi "9223372036854775807" = Ok (2 ^ 63 - 1).
Proof. reflexivity. Qed.

Example Atoi_underscore : Strconv.Atoi "1_0" = Err (ErrSyntax "1_0").
Proof. reflexivity. Qed.

Example name_grammar :
  Domain.ServerNameRegex_MatchString "io.example/demo" = true /\
  Domain.ServerNameRegex_MatchString "io.example/a/b" = false /\
  Domain.ServerNameRegex_MatchString "io_example/demo" = false /\
  Domain.ServerNameRegex_MatchString "/demo" = false.
Proof. repeat split. Qed.

Example sorted_three :
  Client.row_names (Registry.sort_by_name
    [Sample.row "io.example/c" "servers/c.yaml";
     Sample.row "io.example/a" "servers/a.yaml";
     Sample.row "io.example/b" "servers/b.yaml"])
  = ["io.example/a"; "io.example/b"; "io.example/c"].
Proof. reflexivity. Qed.

Example lru_evicts_oldest :
  fst <$> LRU.items (LRU.Add "c" 3%nat (LRU.Add "b" 2%nat (LRU.Add "a" 1%nat (LRU.New 2))))
  = ["c"; "b"].
Proof. reflexivity. Qed.

Example lru_hit_moves_to_front :
  (fun x => fst <$> LRU.items x.2)
    <$> LRU.Get "a" (LRU.Add "b" 2%nat (LRU.Add "a" 1%nat (LRU.New 2)))
  = Some ["a"; "b"].
Proof. reflexivity. Qed.

(** A catalog that never loaded an index: the refresh fails, the status
    is [not_loaded] and a lookup is answered with index-not-loaded. *)
Example fresh_catalog_unavailable :
  (Registry.Refresh Sample.yaml_Index 7 Sample.fresh).1
  = Err (ErrIndexYamlNotFound (ErrNotExist "index.yaml")) /\
  Registry.IndexStatus (Registry.Refresh Sample.yaml_Index 7 Sample.fresh).2
  = "not_loaded" /\
  (Registry.GetServer Sample.yaml_ServerJSON "io.example/a"
     (Registry.Refresh Sample.yaml_Index 7 Sample.fresh).2).1
  = Err ErrIndexNotLoaded.
Proof. repeat split. Qed.

(** The second page of the three rows, two rows to a page. *)
Example second_page_of_three :
  Client.row_names (Registry.page_rows
    (Sample.index_of
       [Sample.row "io.example/c" "servers/c.yaml";
        Sample.row "io.example/a" "servers/a.yaml";
        Sample.row "io.example/b" "servers/b.yaml"]) "io.example/b" 2)
  = ["io.example/c"].
Proof. reflexivity. Qed.

(** ** The byte order of strings *)

Lemma compare_refl (s : string) : String.compare s s = Eq.
Proof.
  induction s as [|c s IH]; simpl; [reflexivity|].
  unfold Ascii.compare. rewrite N.compare_refl. exact IH.
Qed.

Lemma le_leb (a b : string) : String.le a b <-> String.leb a b = true.
Proof. unfold String.le. apply Is_true_true. Qed.

Lemma ltb_le_ne (a b : string) :
  String.ltb a b = true <-> String.le a b /\ a <> b.
Proof.
  rewrite le_leb. unfold String.ltb, String.leb.
  destruct (String.compare a b) eqn:Hc.
  - apply String.compare_eq_iff in Hc. subst. split; [discriminate|]. intros [_ Hne]. congruence.
  - split; [|reflexivity]. intros _. split; [reflexivity|].
    intros ->. rewrite compare_refl in Hc. discriminate.
  - split; [discriminate|]. intros [Hle _]. discriminate.
Qed.

Lemma ltb_irrefl (a : string) : String.ltb a a = false.
Proof. unfold String.ltb. rewrite compare_refl. reflexivity. Qed.

Lemma not_le_ltb (a b : string) : ~ String.le a b -> String.ltb b a = true.
Proof.
  intros Hn. apply ltb_le_ne. split.
  - destruct (total String.le a b) as [H|H]; [contradiction|exact H].
  - intros ->. apply Hn. reflexivity.
Qed.

(** ** Machine integers *)

Lemma wrap64_small (z : Z) : - 2 ^ 63 <= z < 2 ^ 63 -> wrap64 z = z.
Proof. intros Hz. unfold wrap64. rewrite Z.mod_small; lia. Qed.

(** ** Cache statistics *)

Lemma f64_quo_of_nonzero {F : Float64} (x : float64) (z : Z) :
  z <> 0 -> f64_quo x (f64_of_int64 z) = Quotient (f64_div x (f64_of_int64 z)).
Proof.
  intros Hz. unfold f64_quo.
  destruct (f64_is_zero (f64_of_int64 z)) eqn:Hzero; [|reflexivity].
  apply f64_of_int64_zero in Hzero. contradiction.
Qed.

(** C9. [CacheStats] always returns statistics and never divides by
    zero.  When hits plus misses is zero the hit rate is zero; when the
    counters are non-negative and their sum is positive (and has not left
    the 64-bit range) the hit rate is the quotient of the hits by the sum. *)
Theorem C9_cache_stats_total {F : Float64} (r : Registry.t) :
  exists s : Domain.CacheStats,
    Registry.CacheStats r = Some s /\
    Domain.stats_Size s = LRU.Len (Registry.cache r) /\
    Domain.stats_Capacity s = Registry.cacheSize r /\
    (Registry.cacheHits r + Registry.cacheMisses r = 0 ->
       Domain.HitRate s = f64_zero) /\
    (0 <= Registry.cacheHits r -> 0 <= Registry.cacheMisses r ->
     0 < Registry.cacheHits r + Registry.cacheMisses r < 2 ^ 63 ->
       Domain.HitRate s =
         f64_div (f64_of_int64 (Registry.cacheHits r))
                 (f64_of_int64 (Registry.cacheHits r + Registry.cacheMisses r))).
Proof.
  unfold Registry.CacheStats.
  destruct (wrap64 (Registry.cacheHits r + Registry.cacheMisses r) >? 0) eqn:Hpos.
  - apply Z.gtb_lt in Hpos.
    rewrite f64_quo_of_nonzero by lia.
    eexists; split; [reflexivity|]. simpl. repeat split.
    + intros H0. rewrite H0 in Hpos. vm_compute in Hpos. discriminate.
    + intros Hh Hm Hsum. rewrite wrap64_small by lia. reflexivity.
  - eexists; split; [reflexivity|]. simpl. repeat split.
    intros Hh Hm Hsum. rewrite wrap64_small in Hpos by lia.
    rewrite Z.gtb_ltb in Hpos. apply Z.ltb_ge in Hpos. lia.
Qed.

(** One hit and three misses give a hit rate of one quarter. *)
Lemma C9_cache_stats_total_witness :
  exists s : @Domain.CacheStats Sample.Q_Float64,
    Registry.CacheStats
      (Registry.with_misses 3 (Registry.with_hits 1 Sample.three)) = Some s /\
    Domain.HitRate s = Qdiv (inject_Z 1) (inject_Z 4).
Proof.
  destruct (@C9_cache_stats_total Sample.Q_Float64
              (Registry.with_misses 3 (Registry.with_hits 1 Sample.three)))
    as (s & Hs & _ & _ & _ & Hrate).
  exists s. split; [exact Hs|].
  apply Hrate; simpl; lia.
Defined.

(** ** Names that do not decode *)

(** C10. When the percent-decoding of the name fails, [GetServer] looks
    the raw name up: it fails only with index-not-loaded, with not-found
    for the raw name, or with a file read or parse error. *)
Theorem C10_undecodable_name_is_looked_up_raw
    (yaml_ServerJSON : list byte -> option Domain.ServerJSON)
    (name : string) (r : Registry.t) (e : error) :
  URL.PathUnescape name = Err e ->
  Registry.GetServer yaml_ServerJSON name r = Registry.lookup yaml_ServerJSON name r /\
  forall (err : error) (r' : Registry.t),
    Registry.GetServer yaml_ServerJSON name r = (Err err, r') ->
    err = ErrIndexNotLoaded \/ err = ErrServerNotFound name \/
    (exists cause, err = ErrReadServerFile cause) \/ err = ErrParseServerFile.
Proof.
  intros Hdec. unfold Registry.GetServer. rewrite Hdec. split; [reflexivity|].
  intros err r'. unfold Registry.lookup.
  repeat case_match; intros Heq; simplify_eq; eauto.
Qed.

Lemma C10_undecodable_name_is_looked_up_raw_witness :
  Registry.GetServer Sample.yaml_ServerJSON "io.example/%zz" Sample.three
  = Registry.lookup Sample.yaml_ServerJSON "io.example/%zz" Sample.three.
Proof.
  apply (C10_undecodable_name_is_looked_up_raw Sample.yaml_ServerJSON
           "io.example/%zz" Sample.three (EscapeError "%zz")).
  reflexivity.
Defined.

(** ** The webhook ingress *)

Section WebhookFacts.
Import Webhook.
Variable hmac_sha256 : list byte -> list byte -> list byte.
Variable json_PushEvent : list byte -> option PushEvent.

Local Abbreviation validateSignature := (Webhook.validateSignature hmac_sha256).
Local Abbreviation ServeHTTP := (Webhook.ServeHTTP hmac_sha256 json_PushEvent).

(** An event that differs from every event of a literal trace. *)
Ltac absent :=
  let Hin := fresh "Hin" in
  intros Hin;
  repeat (apply elem_of_cons in Hin as [Hin|Hin]; [discriminate Hin|]);
  apply elem_of_nil in Hin; exact Hin.

Lemma hmac_Equal_eq (a b : list byte) : hmac_Equal a b = true <-> a = b.
Proof.
  revert b. induction a as [|x a IH]; intros [|y b]; simpl; try (split; congruence).
  rewrite andb_true_iff, IH. split.
  - intros [Hxy ->]. apply Byte.byte_dec_bl in Hxy. congruence.
  - intros Heq. injection Heq as -> ->. split; [apply Byte.byte_dec_lb|]; reflexivity.
Qed.

Lemma list_byte_of_string_inj (s1 s2 : string) :
  list_byte_of_string s1 = list_byte_of_string s2 -> s1 = s2.
Proof.
  intros Heq. rewrite <- (string_of_list_byte_of_string s1),
    <- (string_of_list_byte_of_string s2). congruence.
Qed.

Lemma cut_Some (sep : ascii) (s a b : string) :
  cut sep s = Some (a, b) -> s = String.append a (String sep b).
Proof.
  revert a b. induction s as [|c s IH]; intros a b; simpl; [discriminate|].
  destruct (Ascii.eqb_spec c sep) as [->|Hne].
  - intros [= <- <-]. reflexivity.
  - destruct (cut sep s) as [[a' b']|]; [|discriminate].
    intros [= <- <-]. unfold String.append; fold String.append.
    f_equal. apply IH. reflexivity.
Qed.

(** The signature check accepts exactly the header [sha256=<hex>] in
    which [<hex>] is the lower-case hex MAC of the body. *)
Lemma validateSignature_true (h : WebhookHandler) (signature : string) (body : list byte) :
  validateSignature h signature body = true <->
  signature = String.append "sha256=" (EncodeToString (hmac_sha256 (secret h) body)).
Proof.
  unfold Webhook.validateSignature, SplitN2. split.
  - destruct (String.eqb signature EmptyString); [discriminate|].
    destruct (cut "=" signature) as [[p0 p1]|] eqn:Hcut; [|discriminate].
    destruct (String.eqb_spec p0 "sha256") as [->|]; [|discriminate]. simpl.
    intros Heq%hmac_Equal_eq%list_byte_of_string_inj.
    apply cut_Some in Hcut. subst. reflexivity.
  - intros ->. cbv [String.append]. simpl.
    apply hmac_Equal_eq. reflexivity.
Qed.

Lemma ReadAll_over_limit (b : BodyReader) (n : Z) :
  n <= Z.of_nat (length (data b)) ->
  ReadAll_LimitReader b n = Ok (take (Z.to_nat n) (data b)).
Proof.
  intros Hlen. unfold ReadAll_LimitReader.
  destruct (Z.leb_spec n (Z.of_nat (length (data b)))); [reflexivity|lia].
Qed.

Lemma ReadAll_bounded (b : BodyReader) (n : Z) (body : list byte) :
  0 <= n -> ReadAll_LimitReader b n = Ok body -> Z.of_nat (length body) <= n.
Proof.
  intros Hn. unfold ReadAll_LimitReader.
  destruct (Z.leb_spec n (Z.of_nat (length (data b)))) as [Hle|Hgt].
  - generalize (Z.to_nat n) (Z2Nat.id n Hn). intros k Hk Heq.
    assert (body = take k (data b)) as -> by congruence.
    rewrite length_take. lia.
  - destruct (ending b); [discriminate|]. intros Heq.
    assert (body = data b) as -> by congruence. lia.
Qed.

(** A body within the limit is read whole. *)
Lemma ReadAll_whole (b : BodyReader) (n : Z) :
  Z.of_nat (length (data b)) <= n -> ending b = None ->
  ReadAll_LimitReader b n = Ok (data b).
Proof.
  intros Hlen Hend. unfold ReadAll_LimitReader. rewrite Hend.
  destruct (Z.leb_spec n (Z.of_nat (length (data b)))); [|reflexivity].
  rewrite take_ge by lia. reflexivity.
Qed.

Lemma first_bytes_data (n : Z) (r : Request) :
  data (Body (first_bytes n r)) = take (Z.to_nat n) (data (Body r)).
Proof. reflexivity. Qed.

Lemma first_bytes_ending (n : Z) (r : Request) :
  ending (Body (first_bytes n r)) = None.
Proof. reflexivity. Qed.

(** What the handler does with a POST whose signature check fails. *)
Lemma rejected_run (h : WebhookHandler) (m : Manager.t) (r : Request) (body : list byte) :
  Method r = "POST" ->
  ReadAll_LimitReader (Body r) body_limit = Ok body ->
  validateSignature h (Header_Get (Header r) "X-Hub-Signature-256") body = false ->
  ServeHTTP h m r =
    {| outcome := http_Error "invalid signature" API.StatusUnauthorized;
       manager := m;
       trace := [EvLog "WARN" "invalid webhook signature"] |}.
Proof.
  intros Hm Hb Hsig. unfold Webhook.ServeHTTP. rewrite Hm, Hb, Hsig. reflexivity.
Qed.

(** What the handler does with a signed push to the tracked branch,
    by the lengths of the two commit ids. *)
Lemma tracked_push_run (h : WebhookHandler) (m : Manager.t) (r : Request)
    (body : list byte) (event : PushEvent) :
  Method r = "POST" ->
  ReadAll_LimitReader (Body r) body_limit = Ok body ->
  validateSignature h (Header_Get (Header r) "X-Hub-Signature-256") body = true ->
  Header_Get (Header r) "X-GitHub-Event" = "push" ->
  json_PushEvent body = Some event ->
  Ref event = String.append "refs/heads/" (branch h) ->
  ServeHTTP h m r =
    match slice_to (Before event) 8, slice_to (After event) 8 with
    | Some _, Some _ =>
        {| outcome := Responded API.StatusOK (json_status "accepted" None);
           manager := (Manager.Trigger m).2;
           trace := [EvLog "INFO" "webhook received"; EvUnmarshal body;
                     EvLog "INFO" "push event for tracked branch"; EvTrigger] |}
    | _, _ =>
        {| outcome := Panicked "slice bounds out of range"; manager := m;
           trace := [EvLog "INFO" "webhook received"; EvUnmarshal body] |}
    end.
Proof.
  intros Hm Hb Hsig Hev Hjson Href. unfold Webhook.ServeHTTP.
  rewrite Hm, Hb, Hsig, Hev, Hjson, Href. simpl.
  rewrite String.eqb_refl. simpl.
  destruct (slice_to (Before event) 8), (slice_to (After event) 8);
    try reflexivity.
  destruct (Manager.Trigger m). reflexivity.
Qed.

Lemma slice_to_short (s : string) (n : nat) :
  (String.length s < n)%nat -> slice_to s n = None.
Proof. intros Hlt. unfold slice_to. case_decide; [lia|reflexivity]. Qed.

Lemma slice_to_long (s : string) (n : nat) :
  (n <= String.length s)%nat -> slice_to s n = Some (Bytes.take n s).
Proof. intros Hle. unfold slice_to. case_decide; [reflexivity|lia]. Qed.

(** A signed push to the tracked branch whose commit ids have eight
    bytes or more is accepted, and a trigger is emitted. *)
Lemma tracked_push_accepted (h : WebhookHandler) (m : Manager.t) (r : Request)
    (body : list byte) (event : PushEvent) :
  Method r = "POST" ->
  ReadAll_LimitReader (Body r) body_limit = Ok body ->
  validateSignature h (Header_Get (Header r) "X-Hub-Signature-256") body = true ->
  Header_Get (Header r) "X-GitHub-Event" = "push" ->
  json_PushEvent body = Some event ->
  Ref event = String.append "refs/heads/" (branch h) ->
  (8 <= String.length (Before event))%nat ->
  (8 <= String.length (After event))%nat ->
  outcome (ServeHTTP h m r) = Responded 200 (json_status "accepted" None) /\
  EvTrigger ∈ trace (ServeHTTP h m r).
Proof.
  intros Hm Hb Hsig Hev Hjson Href Hbefore Hafter.
  rewrite (tracked_push_run h m r body event) by assumption.
  rewrite !slice_to_long by assumption. simpl.
  split; [reflexivity|]. do 3 apply list_elem_of_further. apply list_elem_of_here.
Qed.

(** C3. A signed push to the tracked branch in which [before] or
    [after] has fewer than eight bytes makes the handler panic while it
    builds its log entry: there is no response from the handler and no
    trigger. *)
Theorem C3_short_commit_id_panics (h : WebhookHandler) (m : Manager.t) (r : Request)
    (body : list byte) (event : PushEvent) :
  Method r = "POST" ->
  ReadAll_LimitReader (Body r) body_limit = Ok body ->
  validateSignature h (Header_Get (Header r) "X-Hub-Signature-256") body = true ->
  Header_Get (Header r) "X-GitHub-Event" = "push" ->
  json_PushEvent body = Some event ->
  Ref event = String.append "refs/heads/" (branch h) ->
  (String.length (Before event) < 8 \/ String.length (After event) < 8)%nat ->
  outcome (ServeHTTP h m r) = Panicked "slice bounds out of range" /\
  manager (ServeHTTP h m r) = m /\
  EvTrigger ∉ trace (ServeHTTP h m r).
Proof.
  intros Hm Hb Hsig Hev Hjson Href Hshort.
  rewrite (tracked_push_run h m r body event) by assumption.
  assert (Hnone : slice_to (Before event) 8 = None \/ slice_to (After event) 8 = None).
  { destruct Hshort; [left|right]; apply slice_to_short; assumption. }
  destruct (slice_to (Before event) 8), (slice_to (After event) 8);
    try (destruct Hnone; discriminate); simpl;
    (split; [reflexivity|split; [reflexivity|absent]]).
Qed.

(** The bytes that the handler reads are the first 10 MiB of the raw
    body, which is the raw body itself when it is no longer than that. *)
Lemma ReadAll_prefix (b : BodyReader) (n : Z) (body : list byte) :
  ReadAll_LimitReader b n = Ok body ->
  body = take (Z.to_nat n) (data b) /\
  (Z.of_nat (length (data b)) <= n -> body = data b).
Proof.
  unfold ReadAll_LimitReader.
  destruct (Z.leb_spec n (Z.of_nat (length (data b)))) as [Hle|Hgt].
  - intros Heq. assert (body = take (Z.to_nat n) (data b)) as -> by congruence.
    split; [reflexivity|]. intros Hlen. apply take_ge. lia.
  - destruct (ending b); [discriminate|]. intros Heq.
    assert (body = data b) as -> by congruence.
    split; [|reflexivity]. symmetry. apply take_ge. lia.
Qed.

(** What the handler does with a POST whose body cannot be read. *)
Lemma unread_run (h : WebhookHandler) (m : Manager.t) (r : Request) (e : error) :
  Method r = "POST" ->
  ReadAll_LimitReader (Body r) body_limit = Err e ->
  ServeHTTP h m r =
    {| outcome := http_Error "failed to read body" API.StatusBadRequest;
       manager := m;
       trace := [EvLog "ERROR" "failed to read webhook body"] |}.
Proof.
  intros Hm Hb. unfold Webhook.ServeHTTP. rewrite Hm, Hb. reflexivity.
Qed.

(** C5, as the code has it.  The handler reads the body before it looks
    at the signature, and only the first 10 MiB of it.  A POST whose
    body cannot be read is answered with 400, whatever its signature
    header is.  A POST whose body is read, and whose signature header
    is not [sha256=<hex>] with the hex MAC of the bytes read (a missing
    header, another prefix, another hex value), is answered with 401;
    the bytes read are the first 10 MiB of the raw body, the raw body
    itself when it is no longer.  In both cases the body is not parsed
    and no trigger is emitted. *)
Theorem C5_bad_signature_is_rejected (h : WebhookHandler) (m : Manager.t) (r : Request) :
  Method r = "POST" ->
  (forall e : error,
     ReadAll_LimitReader (Body r) body_limit = Err e ->
     outcome (ServeHTTP h m r) = http_Error "failed to read body" 400 /\
     manager (ServeHTTP h m r) = m /\
     (forall b : list byte, EvUnmarshal b ∉ trace (ServeHTTP h m r)) /\
     (EvTrigger ∉ trace (ServeHTTP h m r))) /\
  (forall body : list byte,
     ReadAll_LimitReader (Body r) body_limit = Ok body ->
     body = take (Z.to_nat body_limit) (data (Body r)) /\
     (Z.of_nat (length (data (Body r))) <= body_limit -> body = data (Body r)) /\
     (Header_Get (Header r) "X-Hub-Signature-256"
        <> String.append "sha256=" (EncodeToString (hmac_sha256 (secret h) body)) ->
      outcome (ServeHTTP h m r) = http_Error "invalid signature" 401 /\
      manager (ServeHTTP h m r) = m /\
      (forall b : list byte, EvUnmarshal b ∉ trace (ServeHTTP h m r)) /\
      (EvTrigger ∉ trace (ServeHTTP h m r)))).
Proof.
  intros Hm. split.
  - intros e Hb. rewrite (unread_run h m r e Hm Hb). cbn [outcome manager trace].
    split; [reflexivity|]. split; [reflexivity|]. split; [intros b|]; absent.
  - intros body Hb. destruct (ReadAll_prefix _ _ _ Hb) as [Hprefix Hwhole].
    split; [exact Hprefix|]. split; [exact Hwhole|]. intros Hbad.
    rewrite (rejected_run h m r body Hm Hb).
    + cbn [outcome manager trace].
      split; [reflexivity|]. split; [reflexivity|]. split; [intros b|]; absent.
    + destruct (validateSignature h _ body) eqn:Hv; [|reflexivity].
      apply validateSignature_true in Hv. contradiction.
Qed.

(** C4, as the code has it.  A body of more than 10 MiB is not refused
    for its size: the handler reads its first 10 MiB and goes on as if
    they were the whole body.  Unless the signature header is the MAC
    of these first 10 MiB, the answer is 401, without a trigger. *)
Theorem C4_long_body_is_cut (h : WebhookHandler) (m : Manager.t) (r : Request) :
  body_limit < Z.of_nat (length (data (Body r))) ->
  ServeHTTP h m r = ServeHTTP h m (first_bytes body_limit r) /\
  (Method r = "POST" ->
   Header_Get (Header r) "X-Hub-Signature-256"
     <> String.append "sha256="
          (EncodeToString
             (hmac_sha256 (secret h) (take (Z.to_nat body_limit) (data (Body r))))) ->
   outcome (ServeHTTP h m r) = http_Error "invalid signature" 401 /\
   manager (ServeHTTP h m r) = m /\
   EvTrigger ∉ trace (ServeHTTP h m r)).
Proof.
  intros Hlong.
  assert (Hpos : 0 <= body_limit) by (unfold body_limit; lia).
  assert (Hread : ReadAll_LimitReader (Body r) body_limit
                  = Ok (take (Z.to_nat body_limit) (data (Body r)))).
  { apply ReadAll_over_limit. lia. }
  assert (Hcut : ReadAll_LimitReader (Body (first_bytes body_limit r)) body_limit
                 = Ok (take (Z.to_nat body_limit) (data (Body r)))).
  { rewrite ReadAll_whole.
    - rewrite first_bytes_data. reflexivity.
    - rewrite first_bytes_data, length_take. lia.
    - apply first_bytes_ending. }
  split.
  - unfold Webhook.ServeHTTP. rewrite Hread, Hcut. reflexivity.
  - intros Hm Hbad.
    rewrite (rejected_run h m r _ Hm Hread).
    + simpl. repeat split. absent.
    + destruct (validateSignature h _ _) eqn:Hv; [|reflexivity].
      apply validateSignature_true in Hv. contradiction.
Qed.

End WebhookFacts.

Lemma Header_Get_post (hs : gmap string (list string)) (b : list byte) (k : string) :
  Webhook.Header_Get (Webhook.Header (Sample.post hs b)) k = Webhook.Header_Get hs k.
Proof. reflexivity. Qed.

Lemma ReadAll_post (hs : gmap string (list string)) (b : list byte) :
  Webhook.ReadAll_LimitReader (Webhook.Body (Sample.post hs b)) Webhook.body_limit
  = Webhook.ReadAll_LimitReader
      {| Webhook.data := b; Webhook.ending := None |} Webhook.body_limit.
Proof. reflexivity. Qed.

Lemma no_header_is_no_signature (hex : string) :
  Webhook.Header_Get ∅ "X-Hub-Signature-256" <> String.append "sha256=" hex.
Proof. cbv [String.append]. discriminate. Qed.

Lemma big_body_length :
  Z.of_nat (length Sample.big_body) = Webhook.body_limit + 1.
Proof.
  unfold Sample.big_body. rewrite length_replicate.
  apply Z2Nat.id. unfold Webhook.body_limit. lia.
Qed.

(** A signed push to [main] without commit ids. *)
Lemma C3_short_commit_id_panics_witness :
  Webhook.outcome
    (Webhook.ServeHTTP Sample.hmac_sha256 Sample.json_PushEvent Sample.handler Sample.idle
       (Sample.post {[ "X-Hub-Signature-256" := ["sha256=4c"];
                       "X-GitHub-Event" := ["push"] ]} Sample.small_body))
  = Webhook.Panicked "slice bounds out of range".
Proof.
  apply (C3_short_commit_id_panics Sample.hmac_sha256 Sample.json_PushEvent
           Sample.handler Sample.idle _ Sample.small_body Sample.bare_push).
  - reflexivity.
  - vm_compute. reflexivity.
  - vm_compute. reflexivity.
  - vm_compute. reflexivity.
  - reflexivity.
  - reflexivity.
  - left. simpl. lia.
Defined.

(** A request without the signature header. *)
Lemma C5_bad_signature_is_rejected_witness :
  Webhook.outcome
    (Webhook.ServeHTTP Sample.hmac_sha256 Sample.json_PushEvent Sample.handler Sample.idle
       (Sample.post ∅ Sample.small_body))
  = Webhook.http_Error "invalid signature" 401.
Proof.
  destruct (C5_bad_signature_is_rejected Sample.hmac_sha256 Sample.json_PushEvent
              Sample.handler Sample.idle (Sample.post ∅ Sample.small_body) eq_refl)
    as [_ Hread].
  destruct (Hread Sample.small_body) as (_ & _ & Hbad).
  - vm_compute. reflexivity.
  - apply Hbad. rewrite Header_Get_post. apply no_header_is_no_signature.
Defined.

(** A POST without the signature header whose body cannot be read is
    answered with 400 and not with 401. *)
Lemma C5_counterexample :
  Webhook.Method Deployment.broken = "POST" /\
  Webhook.Header_Get (Webhook.Header Deployment.broken) "X-Hub-Signature-256"
  = EmptyString /\
  Webhook.ReadAll_LimitReader (Webhook.Body Deployment.broken) Webhook.body_limit
  = Err ErrUnexpectedRead /\
  Webhook.outcome
    (Webhook.ServeHTTP Sample.hmac_sha256 Sample.json_PushEvent Sample.handler Sample.idle
       Deployment.broken)
  = Webhook.Responded 400 (String.append "failed to read body" (String "010" EmptyString)) /\
  Webhook.outcome
    (Webhook.ServeHTTP Sample.hmac_sha256 Sample.json_PushEvent Sample.handler Sample.idle
       Deployment.broken)
  <> Webhook.http_Error "invalid signature" 401.
Proof.
  assert (Hread : Webhook.ReadAll_LimitReader (Webhook.Body Deployment.broken)
                    Webhook.body_limit = Err ErrUnexpectedRead).
  { vm_compute. reflexivity. }
  split; [reflexivity|]. split; [reflexivity|]. split; [exact Hread|].
  rewrite (unread_run Sample.hmac_sha256 Sample.json_PushEvent Sample.handler Sample.idle
             Deployment.broken ErrUnexpectedRead eq_refl Hread).
  split; [reflexivity|discriminate].
Qed.

(** A POST without the signature header, with a body at or over the limit. *)
Lemma unsigned_long_post_run (h : Webhook.WebhookHandler) (m : Manager.t)
    (body : list byte) :
  Webhook.body_limit <= Z.of_nat (length body) ->
  Webhook.ServeHTTP Sample.hmac_sha256 Sample.json_PushEvent h m (Sample.post ∅ body) =
    {| Webhook.outcome := Webhook.http_Error "invalid signature" API.StatusUnauthorized;
       Webhook.manager := m;
       Webhook.trace := [Webhook.EvLog "WARN" "invalid webhook signature"] |}.
Proof.
  intros Hlen.
  apply (rejected_run Sample.hmac_sha256 Sample.json_PushEvent h m (Sample.post ∅ body)
           (take (Z.to_nat Webhook.body_limit) body)).
  - reflexivity.
  - rewrite ReadAll_post. apply ReadAll_over_limit. exact Hlen.
  - rewrite Header_Get_post. reflexivity.
Qed.

(** A body of 10 MiB and one byte, POSTed without a signature header, is
    answered with 401 and not with 400 or 413. *)
Lemma C4_counterexample :
  Webhook.body_limit < Z.of_nat (length Sample.big_body) /\
  Webhook.outcome
    (Webhook.ServeHTTP Sample.hmac_sha256 Sample.json_PushEvent Sample.handler Sample.idle
       (Sample.post ∅ Sample.big_body))
  = Webhook.Responded 401 (String.append "invalid signature" (String "010" EmptyString)) /\
  ~ (exists b : string,
       Webhook.outcome
         (Webhook.ServeHTTP Sample.hmac_sha256 Sample.json_PushEvent Sample.handler
            Sample.idle (Sample.post ∅ Sample.big_body))
       = Webhook.Responded 400 b \/
       Webhook.outcome
         (Webhook.ServeHTTP Sample.hmac_sha256 Sample.json_PushEvent Sample.handler
            Sample.idle (Sample.post ∅ Sample.big_body))
       = Webhook.Responded 413 b).
Proof.
  assert (Hlen : Webhook.body_limit < Z.of_nat (length Sample.big_body)).
  { rewrite big_body_length. lia. }
  pose proof (unsigned_long_post_run Sample.handler Sample.idle Sample.big_body
                (Z.lt_le_incl _ _ Hlen)) as Hrun.
  split; [exact Hlen|]. rewrite Hrun.
  split; [reflexivity|].
  intros [b [Hb|Hb]]; discriminate Hb.
Qed.

Lemma C4_long_body_is_cut_witness :
  Webhook.outcome
    (Webhook.ServeHTTP Sample.hmac_sha256 Sample.json_PushEvent Sample.handler Sample.idle
       (Sample.post ∅ Sample.big_body))
  = Webhook.http_Error "invalid signature" 401.
Proof.
  apply (C4_long_body_is_cut Sample.hmac_sha256 Sample.json_PushEvent
           Sample.handler Sample.idle (Sample.post ∅ Sample.big_body)).
  - change (Webhook.data (Webhook.Body (Sample.post ∅ Sample.big_body)))
      with Sample.big_body.
    rewrite big_body_length. lia.
  - reflexivity.
  - rewrite Header_Get_post. apply no_header_is_no_signature.
Defined.

(** ** The page size *)

Lemma clamp_limit_range (limit : Z) : 1 <= Registry.clamp_limit limit <= 100.
Proof.
  unfold Registry.clamp_limit.
  destruct (Z.leb_spec limit 0); [vm_compute; split; discriminate|].
  destruct (Z.gtb_spec limit 100); lia.
Qed.

Lemma clamp_limit_cases (limit : Z) :
  (limit <= 0 -> Registry.clamp_limit limit = 30) /\
  (0 < limit <= 100 -> Registry.clamp_limit limit = limit) /\
  (100 < limit -> Registry.clamp_limit limit = 100).
Proof.
  unfold Registry.clamp_limit.
  destruct (Z.leb_spec limit 0).
  - repeat split; intros; first [reflexivity|lia].
  - destruct (Z.gtb_spec limit 100); repeat split; intros; lia.
Qed.

Section RegistryFacts.
Import Domain.
Variable yaml_ServerJSON : list byte -> option ServerJSON.

Local Abbreviation GetServer := (Registry.GetServer yaml_ServerJSON).
Local Abbreviation lookup := (Registry.lookup yaml_ServerJSON).
Local Abbreviation hydrate := (Registry.hydrate yaml_ServerJSON).
Local Abbreviation ListServers := (Registry.ListServers yaml_ServerJSON).

Lemma hydrate_length (rows : list IndexEntry) (r : Registry.t) :
  length (hydrate rows r).1 = length rows.
Proof.
  revert r. induction rows as [|e rows IH]; intros r; simpl; [reflexivity|].
  destruct (GetServer (entry_Name e) r) as [res r1].
  specialize (IH r1). destruct (hydrate rows r1) as [out r2]. simpl in *.
  congruence.
Qed.

Lemma start_index_range (cursor : string) (servers : list IndexEntry) :
  0 <= Registry.start_index cursor servers <= Z.of_nat (length servers).
Proof.
  unfold Registry.start_index.
  destruct (String.eqb cursor EmptyString); [lia|].
  destruct (list_find _ servers) as [[i e]|] eqn:Hfind; [|lia].
  apply list_find_Some in Hfind as (Hi & _ & _).
  apply lookup_lt_Some in Hi. lia.
Qed.

Lemma end_index_eq (startIdx limit : Z) (servers : list IndexEntry) :
  Registry.end_index startIdx limit servers
  = Z.min (startIdx + limit) (Z.of_nat (length servers)).
Proof.
  unfold Registry.end_index.
  destruct (Z.gtb_spec (startIdx + limit) (Z.of_nat (length servers))); lia.
Qed.

(** The page is the first [limit] rows from [startIdx] on. *)
Lemma slice_take_drop (startIdx limit : Z) (servers : list IndexEntry) :
  0 <= startIdx <= Z.of_nat (length servers) -> 0 <= limit ->
  Registry.slice startIdx (Registry.end_index startIdx limit servers) servers
  = take (Z.to_nat limit) (drop (Z.to_nat startIdx) servers).
Proof.
  intros Hs Hl. unfold Registry.slice. rewrite end_index_eq.
  destruct (Z.le_gt_cases (startIdx + limit) (Z.of_nat (length servers))).
  - rewrite Z.min_l by lia. f_equal. lia.
  - rewrite Z.min_r by lia.
    rewrite !take_ge; [reflexivity| |]; rewrite length_drop; lia.
Qed.

Lemma page_rows_take_drop (i : Index) (cursor : string) (limit : Z) :
  Registry.page_rows i cursor limit
  = take (Z.to_nat (Registry.clamp_limit limit))
      (drop (Z.to_nat (Registry.start_index cursor (Registry.sort_by_name (Servers i))))
         (Registry.sort_by_name (Servers i))).
Proof.
  unfold Registry.page_rows. apply slice_take_drop.
  - apply start_index_range.
  - pose proof (clamp_limit_range limit). lia.
Qed.

Lemma page_rows_length (i : Index) (cursor : string) (limit : Z) :
  Z.of_nat (length (Registry.page_rows i cursor limit))
  = Z.min (Registry.clamp_limit limit)
      (Z.of_nat (length (Servers i))
       - Registry.start_index cursor (Registry.sort_by_name (Servers i))).
Proof.
  rewrite page_rows_take_drop, length_take, length_drop.
  pose proof (start_index_range cursor (Registry.sort_by_name (Servers i))) as Hs.
  pose proof (clamp_limit_range limit).
  assert (Hlen : length (Registry.sort_by_name (Servers i)) = length (Servers i)).
  { apply Permutation_length, merge_sort_Permutation. }
  rewrite Hlen in *. lia.
Qed.

(** With an index loaded, [ListServers] answers with the hydrated rows
    of the page. *)
Lemma ListServers_loaded (cursor : string) (limit : Z) (r : Registry.t) (i : Index) :
  Registry.index r = Some i ->
  ListServers cursor limit r =
    (Ok {| list_Servers := (hydrate (Registry.page_rows i cursor limit) r).1;
           Metadata :=
             {| NextCursor :=
                  Registry.next_cursor
                    (Registry.end_index
                       (Registry.start_index cursor (Registry.sort_by_name (Servers i)))
                       (Registry.clamp_limit limit) (Registry.sort_by_name (Servers i)))
                    (Registry.sort_by_name (Servers i));
                Count := Z.of_nat (length (Registry.page_rows i cursor limit)) |} |},
     (hydrate (Registry.page_rows i cursor limit) r).2).
Proof.
  intros Hi. unfold Registry.ListServers. rewrite Hi.
  fold (Registry.page_rows i cursor limit).
  pose proof (hydrate_length (Registry.page_rows i cursor limit) r) as Hlen.
  destruct (hydrate (Registry.page_rows i cursor limit) r) as [results r1].
  simpl in *. rewrite Hlen. reflexivity.
Qed.

(** C8, as the code has it.  The page size of a list request is the
    limit that [strconv.Atoi] reads from the query, clamped: 30 for a
    limit that is absent, empty, not positive or refused by [Atoi], 100
    for a limit above 100, the limit itself otherwise; the page holds
    that many rows, or the rows that remain. *)
Theorem C8_page_size (cursor limitStr : string) (r : Registry.t) (i : Index) :
  Registry.index r = Some i ->
  let size := Registry.clamp_limit (API.query_limit limitStr) in
  1 <= size <= 100 /\
  (limitStr = EmptyString -> size = 30) /\
  (forall e, Strconv.Atoi limitStr = Err e -> size = 30) /\
  (forall l, Strconv.Atoi limitStr = Ok l ->
     (l <= 0 -> size = 30) /\ (0 < l <= 100 -> size = l) /\ (100 < l -> size = 100)) /\
  exists resp r',
    API.ListServers yaml_ServerJSON cursor limitStr r
    = ({| API.status := 200; API.payload := API.PList resp |}, r') /\
    Count (Metadata resp) = Z.of_nat (length (list_Servers resp)) /\
    Count (Metadata resp)
    = Z.min size (Z.of_nat (length (Servers i))
                  - Registry.start_index cursor (Registry.sort_by_name (Servers i))).
Proof.
  intros Hi size. subst size.
  split; [apply clamp_limit_range|].
  split.
  { intros ->. reflexivity. }
  split.
  { intros e He. unfold API.query_limit. rewrite He.
    destruct (String.eqb limitStr EmptyString); reflexivity. }
  split.
  { intros l Hl. unfold API.query_limit. rewrite Hl.
    destruct (String.eqb_spec limitStr EmptyString) as [->|_]; [discriminate Hl|].
    destruct (Z.gtb_spec l 0) as [Hpos|Hneg].
    - pose proof (clamp_limit_cases l) as (H1 & H2 & H3).
      repeat split; intros; [lia|auto..].
    - repeat split; intros; first [reflexivity|lia]. }
  unfold API.ListServers.
  rewrite (ListServers_loaded cursor (API.query_limit limitStr) r i Hi).
  eexists _, _. split; [reflexivity|]. simpl.
  rewrite hydrate_length. split; [reflexivity|]. apply page_rows_length.
Qed.

End RegistryFacts.

(** [limit=250] is served with pages of 100 rows. *)
Lemma C8_page_size_witness :
  Registry.clamp_limit (API.query_limit "250") = 100.
Proof.
  destruct (C8_page_size Sample.yaml_ServerJSON EmptyString "250" Sample.forty
              (Sample.index_of (Sample.numbered <$> seq 0 40)) eq_refl)
    as (_ & _ & _ & Hok & _).
  apply (Hok 250); [reflexivity|lia].
Defined.

(** [limit=9223372036854775808] is above 100, and the forty rows are
    served thirty to a page. *)
Lemma C8_counterexample :
  Strconv.Atoi "9223372036854775808" = Err (ErrRange "9223372036854775808") /\
  Registry.clamp_limit (API.query_limit "9223372036854775808") = 30 /\
  exists resp r',
    API.ListServers Sample.yaml_ServerJSON EmptyString "9223372036854775808" Sample.forty
    = ({| API.status := 200; API.payload := API.PList resp |}, r') /\
    length (Domain.list_Servers resp) = 30%nat /\
    Domain.NextCursor (Domain.Metadata resp) = "io.example/s29".
Proof.
  split; [reflexivity|]. split; [reflexivity|].
  eexists _, _. split; [vm_compute; reflexivity|]. split; reflexivity.
Qed.

(** ** Percent-encoded names *)

Lemma upperhex_unhex (c : ascii) :
  URL.ishex (URL.upperhex (N.shiftr (Bytes.code c) 4)) = true /\
  URL.ishex (URL.upperhex (N.land (Bytes.code c) 15)) = true /\
  URL.unhex2 (URL.upperhex (N.shiftr (Bytes.code c) 4))
             (URL.upperhex (N.land (Bytes.code c) 15)) = c.
Proof.
  destruct c as [b0 b1 b2 b3 b4 b5 b6 b7].
  destruct b0, b1, b2, b3, b4, b5, b6, b7; vm_compute; repeat split.
Qed.

Lemma unescape_escape (esc : ascii -> bool) (s : string) :
  URL.escapes_percent esc s = true ->
  URL.PathUnescape (URL.escape_with esc s) = Ok s.
Proof.
  unfold URL.PathUnescape, URL.escapes_percent.
  enough (Bytes.all (fun c => esc c || negb (Ascii.eqb c "%")) s = true ->
          URL.unescape_check (URL.escape_with esc s) = None /\
          URL.unescape_build (URL.escape_with esc s) = s) as Hboth.
  { intros Hall. destruct (Hboth Hall) as [-> ->]. reflexivity. }
  induction s as [|c s IH]; simpl; [split; reflexivity|].
  intros [Hc Hs]%andb_true_iff. destruct (IH Hs) as [IHc IHb].
  destruct (esc c) eqn:Hesc.
  - destruct (upperhex_unhex c) as (Hx & Hy & Hxy).
    cbn [URL.unescape_check URL.unescape_build].
    change (Ascii.eqb "%" "%") with true. cbv iota.
    rewrite Hx, Hy, Hxy, IHc, IHb. split; reflexivity.
  - simpl in Hc. apply negb_true_iff in Hc.
    cbn [URL.unescape_check URL.unescape_build]. rewrite Hc, IHc, IHb.
    split; reflexivity.
Qed.

Lemma all_impl (p q : ascii -> bool) (s : string) :
  (forall c, p c = true -> q c = true) -> Bytes.all p s = true -> Bytes.all q s = true.
Proof.
  intros Hpq. induction s as [|c s IH]; simpl; [reflexivity|].
  intros [Hc Hs]%andb_true_iff. rewrite (Hpq c Hc), (IH Hs). reflexivity.
Qed.

Lemma namespace_byte_not_percent (c : ascii) :
  Domain.namespace_byte c = true -> Ascii.eqb c "%" = false.
Proof.
  destruct (Ascii.eqb_spec c "%") as [->|]; [|reflexivity]. vm_compute. discriminate.
Qed.

Lemma local_byte_not_percent (c : ascii) :
  Domain.local_byte c = true -> Ascii.eqb c "%" = false.
Proof.
  destruct (Ascii.eqb_spec c "%") as [->|]; [|reflexivity]. vm_compute. discriminate.
Qed.

(** A name of the grammar has no ['%']. *)
Lemma match_server_name_no_percent (seen : bool) (s : string) :
  Domain.match_server_name seen s = true ->
  Bytes.all (fun c => negb (Ascii.eqb c "%")) s = true.
Proof.
  revert seen. induction s as [|c s IH]; intros seen;
    cbn [Bytes.all Domain.match_server_name]; [discriminate|].
  destruct (Domain.namespace_byte c) eqn:Hns.
  - intros Hm. rewrite (namespace_byte_not_percent c Hns). exact (IH true Hm).
  - destruct (Ascii.eqb_spec c "/") as [->|]; [|discriminate].
    intros [[_ _]%andb_true_iff Hloc]%andb_true_iff.
    change (Ascii.eqb "/" "%") with false. cbn [negb andb].
    revert Hloc. apply all_impl. intros c Hc.
    rewrite (local_byte_not_percent c Hc). reflexivity.
Qed.

Lemma server_name_no_percent (s : string) :
  Domain.ServerNameRegex_MatchString s = true ->
  Bytes.all (fun c => negb (Ascii.eqb c "%")) s = true.
Proof. apply match_server_name_no_percent. Qed.

Lemma server_name_not_empty (s : string) :
  Domain.ServerNameRegex_MatchString s = true -> s <> EmptyString.
Proof. intros Hm ->. discriminate Hm. Qed.

Lemma escape_with_not_empty (esc : ascii -> bool) (s : string) :
  s <> EmptyString -> URL.escape_with esc s <> EmptyString.
Proof. destruct s as [|c s]; [congruence|]. simpl. destruct (esc c); discriminate. Qed.

Lemma server_name_decodes (esc : ascii -> bool) (name : string) :
  Domain.ServerNameRegex_MatchString name = true ->
  URL.PathUnescape (URL.escape_with esc name) = Ok name /\
  URL.PathUnescape name = Ok name.
Proof.
  intros Hm%server_name_no_percent. split.
  - apply unescape_escape. revert Hm. apply all_impl.
    intros c ->. apply orb_true_r.
  - assert (Hid : URL.escape_with (fun _ => false) name = name).
    { clear Hm. induction name as [|c s IH]; simpl; congruence. }
    rewrite <- Hid at 1. apply unescape_escape. exact Hm.
Qed.

(** C6. For a name of the name grammar, [GetServer] on a
    percent-encoding of the name, whichever bytes the encoding escapes,
    gives the result and the catalog that [GetServer] on the name itself
    gives; so does the HTTP handler. *)
Theorem C6_encoding_invariance
    (yaml_ServerJSON : list byte -> option Domain.ServerJSON)
    (esc : ascii -> bool) (name : string) (r : Registry.t) :
  Domain.ServerNameRegex_MatchString name = true ->
  Registry.GetServer yaml_ServerJSON (URL.escape_with esc name) r
  = Registry.GetServer yaml_ServerJSON name r /\
  API.GetServer yaml_ServerJSON (URL.escape_with esc name) r
  = API.GetServer yaml_ServerJSON name r.
Proof.
  intros Hm. destruct (server_name_decodes esc name Hm) as [Henc Hraw].
  split.
  - unfold Registry.GetServer. rewrite Henc, Hraw. reflexivity.
  - unfold API.GetServer. rewrite Henc, Hraw.
    pose proof (server_name_not_empty name Hm) as Hne.
    pose proof (escape_with_not_empty esc name Hne) as Hne'.
    apply String.eqb_neq in Hne, Hne'. rewrite Hne, Hne'. reflexivity.
Qed.

Lemma C6_encoding_invariance_witness :
  Registry.GetServer Sample.yaml_ServerJSON "io.example%2Fb" Sample.three
  = Registry.GetServer Sample.yaml_ServerJSON "io.example/b" Sample.three.
Proof.
  apply (C6_encoding_invariance Sample.yaml_ServerJSON URL.shouldEscape
           "io.example/b" Sample.three).
  reflexivity.
Defined.

(** ** The catalog after a failed refresh *)

Section CatalogFacts.
Import Domain.
Variable yaml_Index : list byte -> option Index.
Variable yaml_ServerJSON : list byte -> option ServerJSON.

Local Abbreviation GetServer := (Registry.GetServer yaml_ServerJSON).
Local Abbreviation lookup := (Registry.lookup yaml_ServerJSON).
Local Abbreviation hydrate := (Registry.hydrate yaml_ServerJSON).
Local Abbreviation ListServers := (Registry.ListServers yaml_ServerJSON).
Local Abbreviation Refresh := (Registry.Refresh yaml_Index).

Lemma Refresh_failed (now : Z) (r r' : Registry.t) (e : error) :
  Refresh now r = (Err e, r') ->
  r' = Registry.with_misses 0
         (Registry.with_hits 0 (Registry.with_cache (LRU.Purge (Registry.cache r)) r)).
Proof.
  unfold Registry.Refresh, Registry.LoadIndex.
  repeat case_match; intros Heq; simplify_eq; reflexivity.
Qed.

(** A catalog without an index and with an empty cache answers every
    lookup with index-not-loaded, and stays such a catalog. *)
Lemma GetServer_unavailable (name : string) (r : Registry.t) :
  Registry.index r = None -> LRU.items (Registry.cache r) = [] ->
  GetServer name r
  = (Err ErrIndexNotLoaded,
     Registry.with_misses (wrap64 (Registry.cacheMisses r + 1)) r).
Proof.
  intros Hi Hc. unfold Registry.GetServer, Registry.lookup, LRU.Get, LRU.find.
  rewrite Hc. simpl. rewrite Hi. reflexivity.
Qed.

Lemma ListServers_unavailable (cursor : string) (limit : Z) (r : Registry.t) :
  Registry.index r = None -> ListServers cursor limit r = (Err ErrIndexNotLoaded, r).
Proof. intros Hi. unfold Registry.ListServers. rewrite Hi. reflexivity. Qed.

Lemma calls_unavailable (cs : list Client.Call) (r : Registry.t) :
  Registry.index r = None -> LRU.items (Registry.cache r) = [] ->
  Forall (fun o => o = Some ErrIndexNotLoaded) (Client.calls yaml_ServerJSON cs r).1.
Proof.
  revert r. induction cs as [|c cs IH]; intros r Hi Hc; simpl; [constructor|].
  destruct c as [name|cursor limit]; simpl.
  - rewrite (GetServer_unavailable name r Hi Hc).
    specialize (IH (Registry.with_misses (wrap64 (Registry.cacheMisses r + 1)) r) Hi Hc).
    destruct (Client.calls yaml_ServerJSON cs _) as [os r2]. simpl in *.
    constructor; [reflexivity|exact IH].
  - rewrite (ListServers_unavailable cursor limit r Hi).
    specialize (IH r Hi Hc).
    destruct (Client.calls yaml_ServerJSON cs r) as [os r2]. simpl in *.
    constructor; [reflexivity|exact IH].
Qed.

(** C1, as the code has it.  A refresh whose [LoadIndex] fails leaves
    the index as it was, with the cache purged and the counters at zero.
    The status is [not_loaded], and every later get or list is answered
    with index-not-loaded, when no index had been loaded before; with an
    index loaded before, the status stays [valid] and every list is
    answered from that index. *)
Theorem C1_failed_refresh_keeps_index (now : Z) (r r' : Registry.t) (e : error) :
  Refresh now r = (Err e, r') ->
  Registry.index r' = Registry.index r /\
  Registry.IndexStatus r' = Registry.IndexStatus r /\
  LRU.items (Registry.cache r') = [] /\
  Registry.cacheHits r' = 0 /\ Registry.cacheMisses r' = 0 /\
  (Registry.index r = None ->
     Registry.IndexStatus r' = "not_loaded" /\
     forall cs : list Client.Call,
       Forall (fun o => o = Some ErrIndexNotLoaded)
              (Client.calls yaml_ServerJSON cs r').1) /\
  (forall i : Index, Registry.index r = Some i ->
     Registry.IndexStatus r' = "valid" /\
     forall (cursor : string) (limit : Z),
       exists resp r'', ListServers cursor limit r' = (Ok resp, r'')).
Proof.
  intros ->%Refresh_failed.
  do 5 (split; [reflexivity|]). split.
  - intros Hi. split.
    + unfold Registry.IndexStatus. simpl. rewrite Hi. reflexivity.
    + intros cs. apply calls_unavailable; [exact Hi|reflexivity].
  - intros i Hi. split.
    + unfold Registry.IndexStatus. simpl. rewrite Hi. reflexivity.
    + intros cursor limit. eexists _, _.
      apply (ListServers_loaded yaml_ServerJSON cursor limit _ i). exact Hi.
Qed.

End CatalogFacts.

(** The refresh of a catalog whose working copy has lost index.yaml. *)
Lemma C1_failed_refresh_keeps_index_witness :
  Registry.index (Registry.Refresh Sample.yaml_Index 7 Sample.stale).2
  = Registry.index Sample.stale.
Proof.
  apply (C1_failed_refresh_keeps_index Sample.yaml_Index Sample.yaml_ServerJSON 7
           Sample.stale (Registry.Refresh Sample.yaml_Index 7 Sample.stale).2
           (ErrIndexYamlNotFound (ErrNotExist "index.yaml"))).
  reflexivity.
Defined.

(** An index is loaded, index.yaml disappears upstream, the refresh
    fails: the status is still [valid] and a list is still served. *)
Lemma C1_counterexample :
  Registry.IndexStatus Sample.stale = "valid" /\
  (Registry.Refresh Sample.yaml_Index 7 Sample.stale).1
  = Err (ErrIndexYamlNotFound (ErrNotExist "index.yaml")) /\
  Registry.IndexStatus (Registry.Refresh Sample.yaml_Index 7 Sample.stale).2 = "valid" /\
  exists resp r',
    Registry.ListServers Sample.yaml_ServerJSON EmptyString 30
      (Registry.Refresh Sample.yaml_Index 7 Sample.stale).2 = (Ok resp, r') /\
    Client.page_names resp = ["io.example/a"; "io.example/c"].
Proof.
  split; [reflexivity|]. split; [reflexivity|]. split; [reflexivity|].
  eexists _, _. split; [vm_compute; reflexivity|reflexivity].
Qed.

(** ** The sorted index and the cursor *)

Section SortedIndex.
Import Domain.

Lemma ltb_asym (a b : string) : String.ltb a b = true -> String.ltb b a = false.
Proof.
  intros [Hab Hne]%ltb_le_ne.
  destruct (String.ltb b a) eqn:Hba; [|reflexivity].
  apply ltb_le_ne in Hba as [Hba _].
  destruct Hne. apply (anti_symm String.le); assumption.
Qed.

#[local] Instance name_le_total : Total Registry.name_le.
Proof. intros a b. apply (total String.le). Qed.

#[local] Instance name_le_trans : Transitive Registry.name_le.
Proof.
  intros a b c. unfold Registry.name_le. apply (transitivity (R := String.le)).
Qed.

#[local] Instance string_lt_trans : Transitive string_lt.
Proof.
  unfold string_lt. intros a b c Hab Hbc.
  pose proof Hab as [Hab' _]%ltb_le_ne. pose proof Hbc as [Hbc' _]%ltb_le_ne.
  apply ltb_le_ne. split; [etrans; eassumption|].
  intros ->. apply ltb_asym in Hbc. congruence.
Qed.

Lemma sort_by_name_Permutation (l : list IndexEntry) : Registry.sort_by_name l ≡ₚ l.
Proof. apply merge_sort_Permutation. Qed.

Lemma sort_by_name_length (l : list IndexEntry) :
  length (Registry.sort_by_name l) = length l.
Proof. apply Permutation_length, sort_by_name_Permutation. Qed.

Lemma sort_by_name_sorted (l : list IndexEntry) :
  StronglySorted Registry.name_le (Registry.sort_by_name l).
Proof. apply StronglySorted_merge_sort; apply _. Qed.

Lemma row_names_NoDup_sorted (l : list IndexEntry) :
  NoDup (Client.row_names l) -> NoDup (Client.row_names (Registry.sort_by_name l)).
Proof.
  unfold Client.row_names. intros Hnd.
  rewrite (sort_by_name_Permutation l). exact Hnd.
Qed.

(** Rows in the order of [<=] with pairwise distinct names are in the
    order of [<]. *)
Lemma sorted_distinct_strict (l : list IndexEntry) :
  StronglySorted Registry.name_le l -> NoDup (Client.row_names l) ->
  StronglySorted Registry.name_lt l.
Proof.
  induction 1 as [|x l Hs IH Hall]; intros Hnd; [constructor|].
  unfold Client.row_names in Hnd. rewrite fmap_cons in Hnd.
  apply NoDup_cons in Hnd as [Hx Hnd].
  constructor; [exact (IH Hnd)|].
  rewrite Forall_forall in Hall |- *. intros y Hy.
  apply ltb_le_ne. split; [exact (Hall y Hy)|].
  intros Heq. apply Hx. rewrite Heq. apply list_elem_of_fmap_2. exact Hy.
Qed.

Lemma sort_by_name_strict (l : list IndexEntry) :
  NoDup (Client.row_names l) ->
  StronglySorted Registry.name_lt (Registry.sort_by_name l).
Proof.
  intros Hnd. apply sorted_distinct_strict.
  - apply sort_by_name_sorted.
  - apply row_names_NoDup_sorted, Hnd.
Qed.

(** With pairwise distinct names the sorted order is the only one, so
    any sorting procedure yields [sort_by_name]. *)
Lemma sort_by_name_unique (l l' : list IndexEntry) :
  NoDup (Client.row_names l) -> l' ≡ₚ l -> StronglySorted Registry.name_le l' ->
  l' = Registry.sort_by_name l.
Proof.
  intros Hnd Hperm Hs.
  apply (StronglySorted_unique_strong Registry.name_le);
    [|exact Hs|apply sort_by_name_sorted|rewrite sort_by_name_Permutation; exact Hperm].
  intros x y Hx Hy Hxy Hyx.
  assert (Hname : entry_Name x = entry_Name y) by (apply (anti_symm String.le); assumption).
  rewrite Hperm in Hx. rewrite sort_by_name_Permutation in Hy.
  apply list_elem_of_lookup in Hx as [ix Hix], Hy as [iy Hiy].
  assert (ix = iy) as ->.
  { apply (NoDup_lookup (Client.row_names l) ix iy (entry_Name x) Hnd);
      unfold Client.row_names; rewrite list_lookup_fmap.
    - rewrite Hix. reflexivity.
    - rewrite Hiy, Hname. reflexivity. }
  congruence.
Qed.

Lemma strict_lookup (l : list IndexEntry) (j i : nat) (y e : IndexEntry) :
  StronglySorted Registry.name_lt l ->
  l !! j = Some y -> l !! i = Some e -> (j < i)%nat -> Registry.name_lt y e.
Proof.
  intros Hs Hj Hi Hlt.
  rewrite <- (take_drop_middle l j y Hj) in Hs, Hi.
  apply StronglySorted_app_1_r, StronglySorted_cons in Hs as [Hall _].
  rewrite Forall_forall in Hall. apply Hall.
  rewrite lookup_app_r in Hi by (rewrite length_take; lia).
  rewrite length_take in Hi. apply lookup_lt_Some in Hj.
  replace (i - j `min` length l)%nat with (S (i - S j)) in Hi by lia.
  simpl in Hi. apply list_elem_of_lookup. eauto.
Qed.

Lemma filter_Forall_id (P : IndexEntry -> Prop) `{!forall x, Decision (P x)}
    (l : list IndexEntry) :
  Forall P l -> filter P l = l.
Proof.
  induction 1 as [|x l Hx Hl IH]; [reflexivity|].
  rewrite filter_cons_True by exact Hx. rewrite IH. reflexivity.
Qed.

(** In strictly sorted rows, the rows behind a row are the rows whose
    name comes strictly after the name of that row. *)
Lemma drop_after (l : list IndexEntry) (i : nat) (e : IndexEntry) :
  StronglySorted Registry.name_lt l -> l !! i = Some e ->
  drop (S i) l = Registry.after (entry_Name e) l.
Proof.
  unfold Registry.after. intros Hs. revert i.
  induction Hs as [|x l Hs IH Hall]; intros i Hi; [discriminate Hi|].
  destruct i as [|j]; simpl in Hi.
  - injection Hi as ->. simpl.
    rewrite filter_cons_False by (rewrite ltb_irrefl; discriminate).
    symmetry. apply filter_Forall_id. exact Hall.
  - simpl. rewrite (IH j Hi).
    rewrite filter_cons_False; [reflexivity|].
    rewrite Forall_forall in Hall.
    assert (He : Registry.name_lt x e).
    { apply Hall, list_elem_of_lookup. eauto. }
    apply ltb_asym in He. rewrite He. discriminate.
Qed.

Lemma list_find_by_name (l : list IndexEntry) (i : nat) (e : IndexEntry) :
  StronglySorted Registry.name_lt l -> l !! i = Some e ->
  list_find (fun s => entry_Name s = entry_Name e) l = Some (i, e).
Proof.
  intros Hs Hi. apply list_find_Some. split; [exact Hi|]. split; [reflexivity|].
  intros j y Hj Hlt Heq.
  pose proof (strict_lookup l j i y e Hs Hj Hi Hlt) as Hye.
  unfold Registry.name_lt in Hye. rewrite Heq, ltb_irrefl in Hye. discriminate.
Qed.

Lemma start_index_found (l : list IndexEntry) (i : nat) (e : IndexEntry) :
  StronglySorted Registry.name_lt l -> l !! i = Some e ->
  entry_Name e <> EmptyString ->
  Registry.start_index (entry_Name e) l = Z.of_nat i + 1.
Proof.
  intros Hs Hi Hne. unfold Registry.start_index.
  apply String.eqb_neq in Hne. rewrite Hne.
  rewrite (list_find_by_name l i e Hs Hi). reflexivity.
Qed.

Lemma start_index_absent (cursor : string) (l : list IndexEntry) :
  cursor ∉ Client.row_names l -> Registry.start_index cursor l = 0.
Proof.
  intros Hno. unfold Registry.start_index.
  destruct (String.eqb cursor EmptyString); [reflexivity|].
  destruct (list_find _ l) as [[i e]|] eqn:Hfind; [|reflexivity].
  apply list_find_Some in Hfind as (Hi & Heq & _).
  destruct Hno. rewrite <- Heq. apply list_elem_of_fmap_2, list_elem_of_lookup. eauto.
Qed.

(** C2, as the code has it.  With pairwise distinct names in the index
    and a nonempty cursor: when the cursor is the name of an entry, the
    page begins at the first entry whose name is strictly greater than
    the cursor; when it is the name of no entry, the page begins at the
    first entry of the sorted index. *)
Theorem C2_cursor_is_matched_exactly
    (yaml_ServerJSON : list byte -> option ServerJSON)
    (r : Registry.t) (i : Index) (cursor : string) (limit : Z) :
  Registry.index r = Some i ->
  NoDup (Client.row_names (Servers i)) ->
  cursor <> EmptyString ->
  (exists resp r',
     Registry.ListServers yaml_ServerJSON cursor limit r = (Ok resp, r') /\
     Registry.hydrate yaml_ServerJSON (Registry.page_rows i cursor limit) r
     = (list_Servers resp, r')) /\
  (cursor ∈ Client.row_names (Servers i) ->
     Registry.page_rows i cursor limit
     = take (Z.to_nat (Registry.clamp_limit limit))
         (Registry.after cursor (Registry.sort_by_name (Servers i)))) /\
  (cursor ∉ Client.row_names (Servers i) ->
     Registry.page_rows i cursor limit
     = take (Z.to_nat (Registry.clamp_limit limit)) (Registry.sort_by_name (Servers i))).
Proof.
  intros Hi Hnd Hne. split; [|split].
  - rewrite (ListServers_loaded yaml_ServerJSON cursor limit r i Hi).
    eexists _, _. split; [reflexivity|].
    destruct (Registry.hydrate _ _ r); reflexivity.
  - intros Hin. rewrite page_rows_take_drop.
    assert (Hin' : cursor ∈ Client.row_names (Registry.sort_by_name (Servers i))).
    { unfold Client.row_names. rewrite sort_by_name_Permutation. exact Hin. }
    apply list_elem_of_fmap in Hin' as (e & -> & [k Hk]%list_elem_of_lookup).
    pose proof (sort_by_name_strict (Servers i) Hnd) as Hs.
    rewrite (start_index_found _ k e Hs Hk Hne).
    replace (Z.to_nat (Z.of_nat k + 1)) with (S k) by lia.
    rewrite (drop_after _ k e Hs Hk). reflexivity.
  - intros Hno. rewrite page_rows_take_drop, start_index_absent; [reflexivity|].
    unfold Client.row_names. rewrite sort_by_name_Permutation. exact Hno.
Qed.

End SortedIndex.

Lemma three_rows_distinct :
  NoDup (Client.row_names
           (Domain.Servers (Sample.index_of
              [Sample.row "io.example/c" "servers/c.yaml";
               Sample.row "io.example/a" "servers/a.yaml";
               Sample.row "io.example/b" "servers/b.yaml"]))).
Proof. apply (bool_decide_unpack _). vm_compute. exact I. Qed.

(** The page behind the cursor [io.example/a] of the three rows. *)
Lemma C2_cursor_is_matched_exactly_witness :
  Registry.page_rows
    (Sample.index_of
       [Sample.row "io.example/c" "servers/c.yaml";
        Sample.row "io.example/a" "servers/a.yaml";
        Sample.row "io.example/b" "servers/b.yaml"]) "io.example/a" 1
  = [Sample.row "io.example/b" "servers/b.yaml"].
Proof.
  destruct (C2_cursor_is_matched_exactly Sample.yaml_ServerJSON Sample.three
              (Sample.index_of
                 [Sample.row "io.example/c" "servers/c.yaml";
                  Sample.row "io.example/a" "servers/a.yaml";
                  Sample.row "io.example/b" "servers/b.yaml"]) "io.example/a" 1
              eq_refl three_rows_distinct)
    as (_ & Hin & _); [discriminate|].
  rewrite Hin; [reflexivity|].
  apply list_elem_of_further, list_elem_of_here.
Defined.

(** The cursor [io.example/b] is the name of no row of the catalog with
    the rows [io.example/a] and [io.example/c]: the page begins at
    [io.example/a], which is not greater than the cursor, and not at
    [io.example/c]. *)
Lemma C2_counterexample :
  ("io.example/b" ∉ Client.row_names
     [Sample.row "io.example/a" "servers/a.yaml"; Sample.row "io.example/c" "servers/c.yaml"]) /\
  String.ltb "io.example/b" "io.example/a" = false /\
  String.ltb "io.example/b" "io.example/c" = true /\
  exists resp r',
    Registry.ListServers Sample.yaml_ServerJSON "io.example/b" 10 Sample.stale
    = (Ok resp, r') /\
    Client.page_names resp = ["io.example/a"; "io.example/c"].
Proof.
  split.
  { intros Hin. repeat (apply elem_of_cons in Hin as [Hin|Hin]; [discriminate Hin|]).
    apply elem_of_nil in Hin. exact Hin. }
  split; [reflexivity|]. split; [reflexivity|].
  eexists _, _. split; [vm_compute; reflexivity|reflexivity].
Qed.

(** ** Hydration and the pagination pass *)

Section Pagination.
Import Domain.
Variable yaml_ServerJSON : list byte -> option ServerJSON.

Local Abbreviation GetServer := (Registry.GetServer yaml_ServerJSON).
Local Abbreviation lookup := (Registry.lookup yaml_ServerJSON).
Local Abbreviation hydrate := (Registry.hydrate yaml_ServerJSON).
Local Abbreviation ListServers := (Registry.ListServers yaml_ServerJSON).
Local Abbreviation paginate := (Client.paginate yaml_ServerJSON).
Local Abbreviation faithful := (Client.faithful yaml_ServerJSON).

(** Reads change the cache and the counters only. *)
Lemma lookup_preserves (k : string) (r : Registry.t) :
  Registry.index (lookup k r).2 = Registry.index r /\
  Registry.store (lookup k r).2 = Registry.store r.
Proof. unfold Registry.lookup. repeat case_match; split; reflexivity. Qed.

Lemma hydrate_preserves (rows : list IndexEntry) (r : Registry.t) :
  Registry.index (hydrate rows r).2 = Registry.index r /\
  Registry.store (hydrate rows r).2 = Registry.store r.
Proof.
  revert r. induction rows as [|e rows IH]; intros r; simpl; [split; reflexivity|].
  unfold Registry.GetServer.
  pose proof (lookup_preserves (Client.decoded (entry_Name e)) r) as [Hi Hs].
  unfold Client.decoded in Hi, Hs.
  destruct (lookup _ r) as [res r1]. simpl in Hi, Hs.
  specialize (IH r1). destruct (hydrate rows r1) as [out r2]. simpl in *.
  destruct IH as [IHi IHs]. split; congruence.
Qed.

Lemma LRU_find_elem_of (k : string) (l : list (string * ServerJSON)) (v : ServerJSON) :
  LRU.find k l = Some v -> (k, v) ∈ l.
Proof.
  unfold LRU.find. destruct (List.find _ l) as [[k' v']|] eqn:Hf; [|discriminate].
  intros [= <-]. apply find_some in Hf as [Hin Hk].
  apply bool_decide_eq_true in Hk. simpl in Hk. subst k'.
  apply list_elem_of_In. exact Hin.
Qed.

Lemma LRU_remove_elem_of (k : string) (l : list (string * ServerJSON))
    (x : string * ServerJSON) :
  x ∈ LRU.remove k l -> x ∈ l.
Proof. unfold LRU.remove. intros [_ Hx]%list_elem_of_filter. exact Hx. Qed.

Lemma removelast_elem_of (l : list (string * ServerJSON)) (x : string * ServerJSON) :
  x ∈ removelast l -> x ∈ l.
Proof.
  induction l as [|y l IH]; simpl; [intros []%elem_of_nil|].
  destruct l as [|z l]; [intros []%elem_of_nil|].
  intros [->|Hx]%elem_of_cons; [apply list_elem_of_here|].
  apply list_elem_of_further, IH, Hx.
Qed.

Lemma LRU_Add_elem_of (k : string) (v : ServerJSON) (c : LRU.t ServerJSON)
    (x : string * ServerJSON) :
  x ∈ LRU.items (LRU.Add k v c) -> x = (k, v) \/ x ∈ LRU.items c.
Proof.
  unfold LRU.Add. destruct (LRU.find k (LRU.items c)); cbn [LRU.items].
  - intros [->|Hx]%elem_of_cons; [left; reflexivity|].
    right. eapply LRU_remove_elem_of, Hx.
  - case_decide.
    + intros Hx%removelast_elem_of. apply elem_of_cons in Hx. exact Hx.
    + intros Hx. apply elem_of_cons in Hx. exact Hx.
Qed.

(** Name-faithfulness depends on the index, the working copy and the
    cached manifests only. *)
Lemma faithful_same (r r' : Registry.t) :
  Registry.index r' = Registry.index r ->
  Registry.store r' = Registry.store r ->
  (forall k sv, (k, sv) ∈ LRU.items (Registry.cache r') -> Name sv = k) ->
  faithful r -> faithful r'.
Proof.
  intros Hi Hs Hc (Hdec & Hfile & _). unfold Client.faithful.
  rewrite Hi, Hs. split; [exact Hdec|]. split; [exact Hfile|exact Hc].
Qed.

(** In a name-faithful catalog a lookup by a name yields a manifest of
    that name, and the catalog stays name-faithful. *)
Lemma faithful_lookup (k : string) (r : Registry.t) :
  faithful r ->
  faithful (lookup k r).2 /\
  forall sv, (lookup k r).1 = Ok sv -> Name sv = k.
Proof.
  intros Hf. pose proof Hf as (_ & Hfile & Hcache). unfold Registry.lookup.
  destruct (LRU.Get k (Registry.cache r)) as [[v c]|] eqn:Hget.
  - unfold LRU.Get in Hget.
    destruct (LRU.find k (LRU.items (Registry.cache r))) as [v'|] eqn:Hfind;
      [|discriminate].
    injection Hget as <- <-. apply LRU_find_elem_of in Hfind.
    simpl. split; [|intros sv [= <-]; exact (Hcache k v' Hfind)].
    apply (faithful_same r); [reflexivity|reflexivity| |exact Hf].
    simpl. intros k0 sv [Heq|Hin%LRU_remove_elem_of]%elem_of_cons.
    + injection Heq as -> ->. exact (Hcache k v' Hfind).
    + exact (Hcache k0 sv Hin).
  - assert (Hmiss : faithful (Registry.with_misses (wrap64 (Registry.cacheMisses r + 1)) r)).
    { apply (faithful_same r); [reflexivity|reflexivity|exact Hcache|exact Hf]. }
    cbn [Registry.index Registry.with_misses Registry.store].
    destruct (Registry.index r) as [i|] eqn:Hi;
      [|split; [exact Hmiss|discriminate]].
    destruct (List.find _ (Servers i)) as [entry|] eqn:Hentry;
      [|split; [exact Hmiss|discriminate]].
    apply find_some in Hentry as [Hin Hname].
    apply String.eqb_eq in Hname. apply list_elem_of_In in Hin.
    destruct (GitStore.ReadFile (Registry.store r) (entry_Path entry))
      as [content|err] eqn:Hread; [|split; [exact Hmiss|discriminate]].
    destruct (yaml_ServerJSON content) as [server|] eqn:Hyaml;
      [|split; [exact Hmiss|discriminate]].
    assert (Hsv : Name server = k).
    { rewrite <- Hname. exact (Hfile i entry content server eq_refl Hin Hread Hyaml). }
    cbn [fst snd]. split; [|intros sv [= <-]; exact Hsv].
    apply (faithful_same r); [reflexivity|reflexivity| |exact Hf].
    cbn [Registry.cache Registry.with_cache Registry.with_misses].
    intros k0 sv [Heq|Hin0]%LRU_Add_elem_of.
    + injection Heq as -> ->. exact Hsv.
    + exact (Hcache k0 sv Hin0).
Qed.

Lemma faithful_hydrate (i : Index) (rows : list IndexEntry) (r : Registry.t) :
  Registry.index r = Some i -> rows ⊆ Servers i -> faithful r ->
  faithful (hydrate rows r).2 /\
  (fun s => Name (Server s)) <$> (hydrate rows r).1 = Client.row_names rows.
Proof.
  revert r. induction rows as [|e rows IH]; intros r Hi Hsub Hf; simpl;
    [split; [exact Hf|reflexivity]|].
  assert (He : e ∈ Servers i) by (apply Hsub, list_elem_of_here).
  assert (Hrest : rows ⊆ Servers i).
  { intros x Hx. apply Hsub, list_elem_of_further, Hx. }
  unfold Registry.GetServer.
  pose proof (proj1 Hf i e Hi He) as Hdec. unfold Client.decoded in Hdec. rewrite Hdec.
  pose proof (faithful_lookup (entry_Name e) r Hf) as [Hf1 Hname].
  pose proof (lookup_preserves (entry_Name e) r) as [Hi1 _].
  destruct (lookup (entry_Name e) r) as [res r1]. simpl in Hf1, Hname, Hi1.
  rewrite Hi in Hi1.
  destruct (IH r1 Hi1 Hrest Hf1) as [Hf2 Hnames].
  destruct (hydrate rows r1) as [out r2]. simpl in *.
  split; [exact Hf2|].
  change (list_fmap ServerResponse string (fun s => Name (Server s)) out)
    with ((fun s => Name (Server s)) <$> out).
  rewrite Hnames. f_equal.
  destruct res as [sv|err]; [apply Hname; reflexivity|reflexivity].
Qed.

Lemma page_rows_subseteq (i : Index) (cursor : string) (limit : Z) :
  Registry.page_rows i cursor limit ⊆ Servers i.
Proof.
  rewrite page_rows_take_drop. intros x Hx.
  rewrite <- (sort_by_name_Permutation (Servers i)).
  eapply subseteq_drop, subseteq_take, Hx.
Qed.

(** In a name-faithful catalog the manifests of a page carry the names
    of the rows of the page. *)
Lemma faithful_page (i : Index) (cursor : string) (limit : Z) (r : Registry.t) :
  Registry.index r = Some i -> faithful r ->
  faithful (ListServers cursor limit r).2 /\
  forall resp, (ListServers cursor limit r).1 = Ok resp ->
    Client.page_names resp = Client.row_names (Registry.page_rows i cursor limit).
Proof.
  intros Hi Hf. rewrite (ListServers_loaded yaml_ServerJSON cursor limit r i Hi).
  destruct (faithful_hydrate i (Registry.page_rows i cursor limit) r Hi
              (page_rows_subseteq i cursor limit) Hf) as [Hf' Hnames].
  simpl. split; [exact Hf'|]. intros resp [= <-]. exact Hnames.
Qed.

Lemma next_cursor_cases (endIdx : Z) (l : list IndexEntry) :
  Registry.next_cursor endIdx l = EmptyString \/
  (endIdx < Z.of_nat (length l) /\
   exists x, l !! Z.to_nat (endIdx - 1) = Some x /\
             Registry.next_cursor endIdx l = entry_Name x).
Proof.
  unfold Registry.next_cursor.
  destruct (Z.ltb_spec endIdx (Z.of_nat (length l))); [|left; reflexivity].
  destruct (l !! Z.to_nat (endIdx - 1)) as [x|]; [|left; reflexivity].
  right. split; [assumption|]. exists x. split; reflexivity.
Qed.

Lemma strict_segment (l : list IndexEntry) (s k : nat) :
  StronglySorted Registry.name_lt l ->
  StronglySorted string_lt (Client.row_names (take k (drop s l))).
Proof.
  intros Hs. unfold Client.row_names.
  apply (StronglySorted_fmap entry_Name Registry.name_lt string_lt).
  { intros x y Hxy. exact Hxy. }
  rewrite <- (take_drop s l) in Hs. apply StronglySorted_app_1_r in Hs.
  rewrite <- (take_drop k (drop s l)) in Hs. apply StronglySorted_app_1_l in Hs.
  exact Hs.
Qed.

Lemma string_lt_NoDup (l : list string) : StronglySorted string_lt l -> NoDup l.
Proof.
  induction 1 as [|x l Hs IH Hall]; [constructor|].
  apply NoDup_cons. split; [|exact IH].
  intros Hx. rewrite Forall_forall in Hall. specialize (Hall x Hx).
  unfold string_lt in Hall. rewrite ltb_irrefl in Hall. discriminate.
Qed.

(** A pass that starts behind a cursor runs to its end within one
    request per remaining row and one more; the rows of its pages, page
    after page, are a run of consecutive rows of the sorted index. *)
Lemma paginate_run (i : Index) (limit : Z) :
  NoDup (Client.row_names (Servers i)) ->
  forall (fuel : nat) (cursor : string) (r : Registry.t),
    Registry.index r = Some i ->
    (length (Servers i)
     - Z.to_nat (Registry.start_index cursor (Registry.sort_by_name (Servers i)))
     < fuel)%nat ->
    exists pages r' k,
      paginate fuel cursor limit r = (Some pages, r') /\
      Client.pass_rows i limit pages
      = Client.row_names
          (take k (drop (Z.to_nat (Registry.start_index cursor
                                     (Registry.sort_by_name (Servers i))))
                        (Registry.sort_by_name (Servers i)))) /\
      (faithful r -> Client.pass_names pages = Client.pass_rows i limit pages).
Proof.
  intros Hnd.
  pose proof (sort_by_name_strict (Servers i) Hnd) as Hstrict.
  pose proof (sort_by_name_length (Servers i)) as Hlen.
  pose proof (clamp_limit_range limit) as Hlim.
  induction fuel as [|fuel IH]; intros cursor r Hi Hfuel; [lia|].
  pose proof (start_index_range cursor (Registry.sort_by_name (Servers i))) as Hstart.
  pose proof (faithful_page i cursor limit r Hi) as Hpage.
  pose proof (hydrate_preserves (Registry.page_rows i cursor limit) r) as [Hi1 _].
  cbn [Client.paginate].
  rewrite (ListServers_loaded yaml_ServerJSON cursor limit r i Hi) in Hpage |- *.
  cbn [fst snd NextCursor Metadata] in Hpage |- *.
  set (resp := {| list_Servers := (hydrate (Registry.page_rows i cursor limit) r).1;
                  Metadata := _ |}) in *.
  set (r1 := (hydrate (Registry.page_rows i cursor limit) r).2) in *.
  rewrite Hi in Hi1.
  destruct (next_cursor_cases
              (Registry.end_index
                 (Registry.start_index cursor (Registry.sort_by_name (Servers i)))
                 (Registry.clamp_limit limit) (Registry.sort_by_name (Servers i)))
              (Registry.sort_by_name (Servers i))) as [Hlast|(Hmore & x & Hx & Hnext)].
  - rewrite Hlast. cbn [String.eqb].
    exists [(cursor, resp)], r1, (Z.to_nat (Registry.clamp_limit limit)).
    split; [reflexivity|]. split.
    + unfold Client.pass_rows. cbn [fmap list_fmap concat fst].
      rewrite app_nil_r, page_rows_take_drop. reflexivity.
    + intros Hf. unfold Client.pass_names, Client.pass_rows.
      cbn [fmap list_fmap concat fst snd]. rewrite !app_nil_r.
      apply (proj2 (Hpage Hf)). reflexivity.
  - rewrite Hnext.
    destruct (String.eqb_spec (entry_Name x) EmptyString) as [Hempty|Hne].
    + exists [(cursor, resp)], r1, (Z.to_nat (Registry.clamp_limit limit)).
      split; [reflexivity|]. split.
      * unfold Client.pass_rows. cbn [fmap list_fmap concat fst].
        rewrite app_nil_r, page_rows_take_drop. reflexivity.
      * intros Hf. unfold Client.pass_names, Client.pass_rows.
        cbn [fmap list_fmap concat fst snd]. rewrite !app_nil_r.
        apply (proj2 (Hpage Hf)). reflexivity.
    + rewrite end_index_eq in Hmore, Hx.
      assert (Hend : Z.min (Registry.start_index cursor (Registry.sort_by_name (Servers i))
                            + Registry.clamp_limit limit)
                           (Z.of_nat (length (Registry.sort_by_name (Servers i))))
                     = Registry.start_index cursor (Registry.sort_by_name (Servers i))
                       + Registry.clamp_limit limit) by lia.
      rewrite Hend in Hmore, Hx.
      pose proof (start_index_found _ _ x Hstrict Hx Hne) as Hnextstart.
      destruct (IH (entry_Name x) r1 Hi1) as (pages & r' & k & Hrun & Hrows & Hnames).
      { rewrite Hnextstart. lia. }
      rewrite Hrun.
      exists ((cursor, resp) :: pages), r',
        (Z.to_nat (Registry.clamp_limit limit) + k)%nat.
      split; [reflexivity|]. split.
      * unfold Client.pass_rows in Hrows |- *. cbn [fmap list_fmap concat fst].
        change (list_fmap _ _ ?f pages) with (f <$> pages).
        rewrite Hrows, page_rows_take_drop, Hnextstart.
        unfold Client.row_names. rewrite <- fmap_app. f_equal.
        rewrite <- take_take_drop, drop_drop. do 3 f_equal. lia.
      * intros Hf. specialize (Hnames (proj1 (Hpage Hf))).
        unfold Client.pass_names, Client.pass_rows in Hnames |- *.
        cbn [fmap list_fmap concat fst snd].
        change (list_fmap _ _ ?f pages) with (f <$> pages).
        rewrite Hnames. f_equal. apply (proj2 (Hpage Hf)). reflexivity.
Qed.

(** C7, as the code has it.  In an index with pairwise distinct names
    the rows of every page are strictly increasing by name, and a full
    pagination pass ends and takes no row twice, within or across its
    pages.  The manifests that come back carry the names of these rows
    when hydration is name-faithful. *)
Theorem C7_pages_in_order_without_repeats (r : Registry.t) (i : Index) (limit : Z) :
  Registry.index r = Some i ->
  NoDup (Client.row_names (Servers i)) ->
  (forall cursor : string,
     StronglySorted string_lt (Client.row_names (Registry.page_rows i cursor limit))) /\
  (forall (cursor : string) (resp : ServerListResponse) (r' : Registry.t),
     faithful r -> ListServers cursor limit r = (Ok resp, r') ->
     Client.page_names resp = Client.row_names (Registry.page_rows i cursor limit)) /\
  exists pages r',
    paginate (S (length (Servers i))) EmptyString limit r = (Some pages, r') /\
    StronglySorted string_lt (Client.pass_rows i limit pages) /\
    NoDup (Client.pass_rows i limit pages) /\
    (faithful r -> Client.pass_names pages = Client.pass_rows i limit pages).
Proof.
  intros Hi Hnd.
  pose proof (sort_by_name_strict (Servers i) Hnd) as Hstrict.
  split; [|split].
  - intros cursor. rewrite page_rows_take_drop. apply strict_segment, Hstrict.
  - intros cursor resp r' Hf Hlist.
    apply (proj2 (faithful_page i cursor limit r Hi Hf)). rewrite Hlist. reflexivity.
  - destruct (paginate_run i limit Hnd (S (length (Servers i))) EmptyString r Hi)
      as (pages & r' & k & Hrun & Hrows & Hnames); [lia|].
    exists pages, r'. split; [exact Hrun|].
    assert (Hsorted : StronglySorted string_lt (Client.pass_rows i limit pages)).
    { rewrite Hrows. apply strict_segment, Hstrict. }
    split; [exact Hsorted|]. split; [apply string_lt_NoDup, Hsorted|exact Hnames].
Qed.

End Pagination.

(** The catalog of the three rows is name-faithful. *)
Lemma three_faithful : Client.faithful Sample.yaml_ServerJSON Sample.three.
Proof.
  split; [|split].
  - intros i e [= <-] He. simpl in He.
    repeat (apply elem_of_cons in He as [->|He]; [reflexivity|]).
    apply elem_of_nil in He. destruct He.
  - intros i e content sv [= <-] He. simpl in He.
    repeat (apply elem_of_cons in He as [->|He];
            [vm_compute; intros [= <-] [= <-]; reflexivity|]).
    apply elem_of_nil in He. destruct He.
  - intros k sv Hin. simpl in Hin. apply elem_of_nil in Hin. destruct Hin.
Qed.

(** The pass over the three rows, two rows to a page. *)
Lemma C7_pages_in_order_without_repeats_witness :
  exists pages r',
    Client.paginate Sample.yaml_ServerJSON 4 EmptyString 2 Sample.three
    = (Some pages, r') /\
    NoDup (Client.pass_names pages).
Proof.
  destruct (C7_pages_in_order_without_repeats Sample.yaml_ServerJSON Sample.three
              (Sample.index_of
                 [Sample.row "io.example/c" "servers/c.yaml";
                  Sample.row "io.example/a" "servers/a.yaml";
                  Sample.row "io.example/b" "servers/b.yaml"]) 2
              eq_refl three_rows_distinct)
    as (_ & _ & pages & r' & Hrun & _ & Hnd & Hnames).
  exists pages, r'. split; [exact Hrun|].
  rewrite (Hnames three_faithful). exact Hnd.
Defined.

(** The rows [io.example/a] and [io.example/b] have distinct names;
    their manifest files carry the names [io.example/z] and
    [io.example/y]: the page that comes back is decreasing by name. *)
Lemma C7_counterexample :
  NoDup (Client.row_names
           [Sample.row "io.example/a" "servers/a.yaml";
            Sample.row "io.example/b" "servers/b.yaml"]) /\
  String.ltb "io.example/y" "io.example/z" = true /\
  exists resp r',
    Registry.ListServers Sample.yaml_ServerJSON EmptyString 30 Sample.renamed
    = (Ok resp, r') /\
    Client.page_names resp = ["io.example/z"; "io.example/y"].
Proof.
  split; [apply (bool_decide_unpack _); vm_compute; exact I|].
  split; [reflexivity|].
  eexists _, _. split; [vm_compute; reflexivity|reflexivity].
Qed.

(** * Further properties of the code *)

(** ** Metric labels *)

Lemma take_length_le (n : nat) (s : string) : (String.length (Bytes.take n s) <= n)%nat.
Proof.
  revert s. induction n as [|n IH]; intros [|c s]; simpl; try lia.
  specialize (IH s). lia.
Qed.

(** X1. [normalizePath] returns every path as it is: a slice of twelve
    bytes is never the thirteen bytes [/v0.1/servers], a slice of ten
    bytes never the eleven bytes [/v0/servers], so no path is mapped to
    a [{serverName}] label. *)
Theorem X1_normalizePath_is_identity (path : string) :
  Middleware.normalizePath path = path.
Proof.
  unfold Middleware.normalizePath.
  destruct (String.eqb_spec (Bytes.take 12 path) "/v0.1/servers") as [H12|_].
  { pose proof (take_length_le 12 path) as Hle. rewrite H12 in Hle. simpl in Hle. lia. }
  destruct (String.eqb_spec (Bytes.take 10 path) "/v0/servers") as [H10|_].
  { pose proof (take_length_le 10 path) as Hle. rewrite H10 in Hle. simpl in Hle. lia. }
  rewrite !andb_false_r. reflexivity.
Qed.

(** ** Pulling with retries *)

Section PullFacts.
Context {W : Type}.
Variable Pull : W -> (GitPull.pull_error + bool) * W.
Variable wait : Z -> W -> bool * W.

Local Abbreviation retry := (GitPull.retry Pull wait).
Local Abbreviation PullWithRetry := (GitPull.PullWithRetry Pull wait).
Local Abbreviation after_attempts := (GitPull.after_attempts Pull wait).

Lemma retry_steps (maxRetries : Z) (n : nat) (backoff : Z) (last : option GitPull.pull_error)
    (w : W) :
  (GitPull.pulls (retry maxRetries n backoff last w).2 <= n)%nat /\
  GitPull.waits (retry maxRetries n backoff last w).2
  = GitPull.schedule (length (GitPull.waits (retry maxRetries n backoff last w).2)) backoff /\
  (forall changed, (retry maxRetries n backoff last w).1.1 = inr changed ->
     GitPull.pulls (retry maxRetries n backoff last w).2
     = S (length (GitPull.waits (retry maxRetries n backoff last w).2))).
Proof.
  revert backoff last w. induction n as [|n IH]; intros backoff last w; simpl.
  { split; [lia|]. split; [reflexivity|]. intros changed. discriminate. }
  destruct (Pull w) as [[err|changed] w1]; simpl.
  2:{ split; [lia|]. split; [reflexivity|]. intros _ _. reflexivity. }
  destruct (wait backoff w1) as [[|] w2]; simpl.
  2:{ split; [lia|]. split; [reflexivity|]. intros changed. discriminate. }
  assert (Hcap : (if backoff * 2 >? 30 * GitPull.Second then 30 * GitPull.Second
                  else backoff * 2) = Z.min (backoff * 2) (30 * GitPull.Second)).
  { destruct (Z.gtb_spec (backoff * 2) (30 * GitPull.Second)); lia. }
  rewrite Hcap.
  specialize (IH (Z.min (backoff * 2) (30 * GitPull.Second)) (Some err) w2).
  destruct (retry maxRetries n _ (Some err) w2) as [[res w3] steps].
  simpl in *. destruct IH as (Hp & Hw & Hok).
  split; [lia|]. split; [f_equal; exact Hw|].
  intros changed Hres. rewrite (Hok changed Hres). reflexivity.
Qed.

(** X2. [PullWithRetry] calls [Pull] at most [maxRetries] times; its
    waits are the first waits of the schedule of one second, doubled
    each time and capped at thirty seconds; and when it reports a pull
    as done, every earlier pull was followed by a completed wait. *)
Theorem X2_pull_retry_is_bounded (maxRetries : Z) (w : W) :
  (GitPull.pulls (PullWithRetry maxRetries w).2 <= Z.to_nat maxRetries)%nat /\
  GitPull.waits (PullWithRetry maxRetries w).2
  = GitPull.schedule (length (GitPull.waits (PullWithRetry maxRetries w).2))
      GitPull.Second /\
  (forall changed, (PullWithRetry maxRetries w).1.1 = inr changed ->
     GitPull.pulls (PullWithRetry maxRetries w).2
     = S (length (GitPull.waits (PullWithRetry maxRetries w).2))).
Proof.
  unfold GitPull.PullWithRetry.
  replace (1 * GitPull.Second) with GitPull.Second by (unfold GitPull.Second; lia).
  apply retry_steps.
Qed.

Lemma retry_exhausted (maxRetries : Z) (n : nat) (backoff : Z)
    (last : option GitPull.pull_error) (w : W) :
  (forall w0, exists e, (Pull w0).1 = inl e) ->
  (forall d w0, (wait d w0).1 = true) ->
  (exists last', (retry maxRetries n backoff last w).1.1
                 = inl (GitPull.retries_exhausted maxRetries last') /\
                 (n <> O -> exists e, last' = Some e) /\ (n = O -> last' = last)) /\
  GitPull.pulls (retry maxRetries n backoff last w).2 = n /\
  GitPull.waits (retry maxRetries n backoff last w).2 = GitPull.schedule n backoff.
Proof.
  intros Hfail Hwait. revert backoff last w.
  induction n as [|n IH]; intros backoff last w; simpl.
  { split; [|split; reflexivity]. exists last. split; [reflexivity|]. split; [congruence|reflexivity]. }
  destruct (Hfail w) as [e He]. specialize (Hwait backoff (Pull w).2).
  destruct (Pull w) as [res w1]. simpl in He, Hwait. subst res.
  destruct (wait backoff w1) as [done w2]. simpl in Hwait. subst done.
  assert (Hcap : (if backoff * 2 >? 30 * GitPull.Second then 30 * GitPull.Second
                  else backoff * 2) = Z.min (backoff * 2) (30 * GitPull.Second)).
  { destruct (Z.gtb_spec (backoff * 2) (30 * GitPull.Second)); lia. }
  rewrite Hcap.
  specialize (IH (Z.min (backoff * 2) (30 * GitPull.Second)) (Some e) w2).
  destruct (retry maxRetries n _ (Some e) w2) as [[res w3] steps].
  simpl in *. destruct IH as ((last' & Hres & Hsome & Hsame) & Hp & Hw).
  split; [|split; [congruence|f_equal; exact Hw]].
  exists last'. split; [exact Hres|]. split; [|intros; discriminate].
  intros _. destruct n as [|n]; [exists e; apply Hsame; reflexivity|apply Hsome; discriminate].
Qed.

(** The error that the loop gives up with is the error of its last
    pull: the pull made in the world that the attempts before it left. *)
Lemma retry_last (maxRetries : Z) (n : nat) (backoff : Z)
    (last : option GitPull.pull_error) (w : W) (e : GitPull.pull_error) :
  (forall w0, exists e0, (Pull w0).1 = inl e0) ->
  (forall d w0, (wait d w0).1 = true) ->
  (Pull (after_attempts n backoff w)).1 = inl e ->
  (retry maxRetries (S n) backoff last w).1.1 = inl (GitPull.ErrRetries maxRetries e) /\
  (retry maxRetries (S n) backoff last w).1.2 = after_attempts (S n) backoff w.
Proof.
  intros Hfail Hwait. revert backoff last w.
  induction n as [|n IH]; intros backoff last w Hlast.
  - cbn [GitPull.after_attempts] in Hlast |- *. cbn [GitPull.retry].
    specialize (Hwait backoff (Pull w).2).
    destruct (Pull w) as [res w1]. cbn [fst snd] in Hlast, Hwait |- *. subst res.
    destruct (wait backoff w1) as [done w2]. cbn [fst snd] in Hwait |- *. subst done.
    split; reflexivity.
  - change (after_attempts (S n) backoff w)
      with (after_attempts n (Z.min (backoff * 2) (30 * GitPull.Second))
              (wait backoff (Pull w).2).2) in Hlast.
    change (after_attempts (S (S n)) backoff w)
      with (after_attempts (S n) (Z.min (backoff * 2) (30 * GitPull.Second))
              (wait backoff (Pull w).2).2).
    destruct (Hfail w) as [e0 He0]. specialize (Hwait backoff (Pull w).2).
    change (retry maxRetries (S (S n)) backoff last w)
      with (match Pull w with
            | (inr changed, w1) => (inr changed, w1, [GitPull.StepPull])
            | (inl err, w1) =>
                match wait backoff w1 with
                | (false, w2) => (inl GitPull.ErrContext, w2, [GitPull.StepPull])
                | (true, w2) =>
                    let backoff' := backoff * 2 in
                    let backoff' := if backoff' >? 30 * GitPull.Second
                                    then 30 * GitPull.Second else backoff' in
                    let '(res, w3, steps) :=
                      retry maxRetries (S n) backoff' (Some err) w2 in
                    (res, w3, GitPull.StepPull :: GitPull.StepWait backoff :: steps)
                end
            end).
    destruct (Pull w) as [res w1]. cbn [fst snd] in He0, Hwait, Hlast |- *. subst res.
    destruct (wait backoff w1) as [done w2]. cbn [fst snd] in Hwait, Hlast |- *. subst done.
    assert (Hcap : (if backoff * 2 >? 30 * GitPull.Second then 30 * GitPull.Second
                    else backoff * 2) = Z.min (backoff * 2) (30 * GitPull.Second)).
    { destruct (Z.gtb_spec (backoff * 2) (30 * GitPull.Second)); lia. }
    cbv zeta. rewrite Hcap.
    specialize (IH (Z.min (backoff * 2) (30 * GitPull.Second)) (Some e0) w2 Hlast).
    destruct (retry maxRetries (S n) _ (Some e0) w2) as [[res w3] steps].
    exact IH.
Qed.

(** X3. When every pull fails and no wait is cut short by the context,
    [PullWithRetry] gives up with the retries error around the error of
    the last pull, the one made after [maxRetries - 1] attempts, after
    exactly [maxRetries] pulls and [maxRetries] waits: it also waits
    after the last pull. *)
Theorem X3_pull_retry_gives_up (maxRetries : Z) (w : W) :
  0 < maxRetries ->
  (forall w0, exists e, (Pull w0).1 = inl e) ->
  (forall d w0, (wait d w0).1 = true) ->
  (exists e,
     (Pull (after_attempts (Z.to_nat (maxRetries - 1)) GitPull.Second w)).1 = inl e /\
     (PullWithRetry maxRetries w).1.1 = inl (GitPull.ErrRetries maxRetries e)) /\
  (PullWithRetry maxRetries w).1.2
  = after_attempts (Z.to_nat maxRetries) GitPull.Second w /\
  GitPull.pulls (PullWithRetry maxRetries w).2 = Z.to_nat maxRetries /\
  GitPull.waits (PullWithRetry maxRetries w).2
  = GitPull.schedule (Z.to_nat maxRetries) GitPull.Second.
Proof.
  intros Hpos Hfail Hwait. unfold GitPull.PullWithRetry.
  replace (1 * GitPull.Second) with GitPull.Second by (unfold GitPull.Second; lia).
  destruct (retry_exhausted maxRetries (Z.to_nat maxRetries) GitPull.Second None w
              Hfail Hwait) as (_ & Hp & Hw).
  destruct (Hfail (after_attempts (Z.to_nat (maxRetries - 1)) GitPull.Second w))
    as [e He].
  replace (Z.to_nat maxRetries) with (S (Z.to_nat (maxRetries - 1))) in Hp, Hw |- * by lia.
  destruct (retry_last maxRetries (Z.to_nat (maxRetries - 1)) GitPull.Second None w e
              Hfail Hwait He) as [Hres Hworld].
  split; [exists e; split; [exact He|exact Hres]|].
  split; [exact Hworld|]. split; [exact Hp|exact Hw].
Qed.

(** X4. With no retries allowed ([maxRetries <= 0]) [PullWithRetry]
    never pulls and never waits: it returns the retries error around a
    nil error, and the world is as it was. *)
Theorem X4_pull_retry_without_retries (maxRetries : Z) (w : W) :
  maxRetries <= 0 ->
  PullWithRetry maxRetries w = (inl (GitPull.ErrRetriesNil maxRetries), w, []).
Proof.
  intros Hle. unfold GitPull.PullWithRetry.
  replace (Z.to_nat maxRetries) with O by lia. reflexivity.
Qed.

End PullFacts.

(** A remote that cannot be reached, whose third pull fails in another
    way than the first two: the error of the third pull is reported. *)
Lemma X3_pull_retry_gives_up_witness :
  (GitPull.PullWithRetry Deployment.unreachable Deployment.patient 3 0%nat).1.1
  = inl (GitPull.ErrRetries 3 GitPull.ErrAuth) /\
  (Deployment.unreachable 0%nat).1 = inl GitPull.ErrPull /\
  GitPull.waits (GitPull.PullWithRetry Deployment.unreachable Deployment.patient 3 0%nat).2
  = [1000000000; 2000000000; 4000000000].
Proof.
  destruct (X3_pull_retry_gives_up Deployment.unreachable Deployment.patient 3 0%nat)
    as ((e & Hlast & Hres) & _ & _ & Hw).
  - lia.
  - intros w0. eexists. reflexivity.
  - intros d w0. reflexivity.
  - vm_compute in Hlast. injection Hlast as <-.
    split; [exact Hres|]. split; [reflexivity|]. rewrite Hw. reflexivity.
Defined.

Lemma X4_pull_retry_without_retries_witness :
  GitPull.PullWithRetry (fun w : unit => (inr true, w)) (fun _ (w : unit) => (true, w)) 0 tt
  = (inl (GitPull.ErrRetriesNil 0), tt, []).
Proof.
  apply (X4_pull_retry_without_retries (fun w : unit => (inr true, w))
           (fun _ (w : unit) => (true, w)) 0 tt).
  lia.
Defined.

(** ** The trigger channel *)

(** X5. The trigger channel never holds more than one trigger, and
    after any number of [Trigger] calls, one or many, exactly one
    trigger is pending: further triggers are dropped. *)
Theorem X5_triggers_coalesce (n : nat) (m : Manager.t) :
  (Manager.triggerChan m <= 1)%nat ->
  (Manager.triggerChan (Sync.triggers n m) <= 1)%nat /\
  ((0 < n)%nat -> Manager.triggerChan (Sync.triggers n m) = 1%nat).
Proof.
  revert m. induction n as [|n IH]; intros m Hm; simpl; [split; [exact Hm|lia]|].
  assert (Hone : Manager.triggerChan (Manager.Trigger m).2 = 1%nat).
  { unfold Manager.Trigger. case_decide; simpl; lia. }
  destruct (IH (Manager.Trigger m).2) as [Hle Hpos]; [lia|].
  split; [exact Hle|]. intros _.
  destruct n as [|n]; [exact Hone|apply Hpos; lia].
Qed.

Lemma X5_triggers_coalesce_witness :
  Manager.triggerChan (Sync.triggers 10 Sample.idle) = 1%nat.
Proof.
  apply (X5_triggers_coalesce 10 Sample.idle); simpl; lia.
Defined.

(** ** The sync controller *)

Section SyncFacts.
Context {W : Type}.
Variable Pull : W -> (GitPull.pull_error + bool) * W.
Variable wait : Z -> W -> bool * W.
Variable working_copy : W -> GitStore.t.
Variable yaml_Index : list byte -> option Domain.Index.

Local Abbreviation doSync := (Sync.doSync Pull wait working_copy yaml_Index).
Local Abbreviation debounceSync := (Sync.debounceSync Pull wait working_copy yaml_Index).
Local Abbreviation pulled := (GitPull.PullWithRetry Pull wait 3).

(** X6. A sync that finds another sync in flight does nothing.  Any
    other sync ends with the in-flight flag cleared, and it leaves the
    index, the cache and the counters of the catalog alone unless the
    pull reports a change: a failed pull and a pull without changes
    cause no refresh. *)
Theorem X6_sync_refreshes_only_on_change (t_load t_done : Z) (m : Sync.t)
    (r : Registry.t) (w : W) :
  (Sync.syncing m = true -> doSync t_load t_done m r w = (m, r, w)) /\
  (Sync.syncing m = false ->
     Sync.syncing (doSync t_load t_done m r w).1.1 = false /\
     (doSync t_load t_done m r w).2 = (pulled w).1.2 /\
     ((pulled w).1.1 <> inr true ->
        Registry.index (doSync t_load t_done m r w).1.2 = Registry.index r /\
        Registry.cache (doSync t_load t_done m r w).1.2 = Registry.cache r /\
        Registry.cacheHits (doSync t_load t_done m r w).1.2 = Registry.cacheHits r /\
        Registry.cacheMisses (doSync t_load t_done m r w).1.2 = Registry.cacheMisses r /\
        Registry.lastSyncAt (doSync t_load t_done m r w).1.2 = Registry.lastSyncAt r)).
Proof.
  unfold Sync.doSync. split; intros Hs; rewrite Hs; [reflexivity|].
  destruct (pulled w) as [[res w1] steps]. simpl.
  destruct res as [err|[|]]; simpl.
  - repeat split.
  - destruct (Registry.Refresh yaml_Index t_load _) as [[u|e] r2]; simpl;
      (split; [reflexivity|split; [reflexivity|intros Hne; congruence]]).
  - repeat split.
Qed.

(** X7. The time of the last sync moves, to the reading of the clock at
    the end of the sync, when the pull succeeds without changes or when
    the pull brings changes and the refresh succeeds; it stays as it
    was when the pull fails and when the refresh fails.  After a pull
    with changes the cache is empty and the counters are zero, whether
    the refresh succeeds or not. *)
Theorem X7_sync_moves_last_sync (t_load t_done : Z) (m : Sync.t)
    (r : Registry.t) (w : W) :
  Sync.syncing m = false ->
  let r1 := Registry.with_store (working_copy (pulled w).1.2) r in
  (forall err, (pulled w).1.1 = inl err ->
     Sync.lastSync (doSync t_load t_done m r w).1.1 = Sync.lastSync m) /\
  ((pulled w).1.1 = inr false ->
     Sync.lastSync (doSync t_load t_done m r w).1.1 = t_done) /\
  ((pulled w).1.1 = inr true ->
     (doSync t_load t_done m r w).1.2 = (Registry.Refresh yaml_Index t_load r1).2 /\
     LRU.items (Registry.cache (doSync t_load t_done m r w).1.2) = [] /\
     Registry.cacheHits (doSync t_load t_done m r w).1.2 = 0 /\
     Registry.cacheMisses (doSync t_load t_done m r w).1.2 = 0 /\
     ((Registry.Refresh yaml_Index t_load r1).1 = Ok tt ->
        Sync.lastSync (doSync t_load t_done m r w).1.1 = t_done /\
        Registry.lastSyncAt (doSync t_load t_done m r w).1.2 = t_load) /\
     (forall e, (Registry.Refresh yaml_Index t_load r1).1 = Err e ->
        Sync.lastSync (doSync t_load t_done m r w).1.1 = Sync.lastSync m /\
        Registry.index (doSync t_load t_done m r w).1.2 = Registry.index r)).
Proof.
  intros Hs r1. subst r1. unfold Sync.doSync. rewrite Hs.
  destruct (pulled w) as [[res w1] steps]. simpl.
  split; [|split].
  - intros err ->. reflexivity.
  - intros ->. reflexivity.
  - intros ->.
    unfold Registry.Refresh, Registry.LoadIndex. simpl.
    destruct (GitStore.ReadFile (working_copy w1) "index.yaml") as [content|e0]; simpl.
    + destruct (yaml_Index content) as [i|]; simpl.
      * repeat split; intros; discriminate.
      * repeat split; intros; discriminate.
    + repeat split; intros; discriminate.
Qed.

(** X8. A trigger that is handled less than the debounce time after
    the time of the last sync is dropped: no pull is made and nothing
    changes.  In particular this holds for a trigger that follows a
    sync which found no changes. *)
Theorem X8_trigger_in_debounce_window_is_dropped (now t_load t_done : Z) (m : Sync.t)
    (r : Registry.t) (w : W) :
  (now - Sync.lastSync m < Sync.debounce m ->
     debounceSync now t_load t_done m r w = (m, r, w)) /\
  (Sync.syncing m = false -> (pulled w).1.1 = inr false ->
   now - t_done < Sync.debounce m ->
     forall t_load' t_done',
       debounceSync now t_load' t_done'
         (doSync t_load t_done m r w).1.1 (doSync t_load t_done m r w).1.2
         (doSync t_load t_done m r w).2
       = doSync t_load t_done m r w).
Proof.
  split.
  - intros Hlt. unfold Sync.debounceSync.
    destruct (Z.ltb_spec (now - Sync.lastSync m) (Sync.debounce m)); [reflexivity|lia].
  - intros Hs Hres Hlt t_load' t_done'. unfold Sync.doSync. rewrite Hs.
    destruct (pulled w) as [[res w1] steps]. simpl in Hres. subst res.
    unfold Sync.debounceSync. simpl.
    destruct (Z.ltb_spec (now - t_done) (Sync.debounce m)); [reflexivity|lia].
Qed.

End SyncFacts.

(** A sync over a remote without changes, and a trigger five seconds
    after it with a debounce of ten seconds. *)
Lemma X7_sync_moves_last_sync_witness :
  Sync.lastSync
    (Sync.doSync (fun w : unit => (inr false, w)) (fun _ (w : unit) => (true, w))
       (fun _ => Registry.store Sample.three) Sample.yaml_Index 50 60
       {| Sync.debounce := 10; Sync.lastSync := 0; Sync.syncing := false |}
       Sample.three tt).1.1
  = 60.
Proof.
  destruct (X7_sync_moves_last_sync (fun w : unit => (inr false, w))
              (fun _ (w : unit) => (true, w)) (fun _ => Registry.store Sample.three)
              Sample.yaml_Index 50 60
              {| Sync.debounce := 10; Sync.lastSync := 0; Sync.syncing := false |}
              Sample.three tt eq_refl) as (_ & Hsame & _).
  apply Hsame. reflexivity.
Defined.

Lemma X8_trigger_in_debounce_window_is_dropped_witness :
  Sync.debounceSync (fun w : unit => (inr true, w)) (fun _ (w : unit) => (true, w))
    (fun _ => Registry.store Sample.three) Sample.yaml_Index 65 70 80
    {| Sync.debounce := 10; Sync.lastSync := 60; Sync.syncing := false |}
    Sample.three tt
  = ({| Sync.debounce := 10; Sync.lastSync := 60; Sync.syncing := false |},
     Sample.three, tt).
Proof.
  destruct (X8_trigger_in_debounce_window_is_dropped
              (fun w : unit => (inr true, w)) (fun _ (w : unit) => (true, w))
              (fun _ => Registry.store Sample.three) Sample.yaml_Index 65 70 80
              {| Sync.debounce := 10; Sync.lastSync := 60; Sync.syncing := false |}
              Sample.three tt) as [Hdrop _].
  apply Hdrop. simpl. lia.
Defined.

(** ** The configuration *)

Section ConfigFacts.
Import Config.
Variable env : gmap string string.
Variable ReadFile : string -> result (list byte).
Variable ParseDuration : string -> result Z.

Local Abbreviation Getenv := (Config.Getenv env).
Local Abbreviation Load := (Config.Load env ReadFile ParseDuration).
Local Abbreviation required := (Config.required env).
Local Abbreviation duration := (Config.duration env ParseDuration).
Local Abbreviation optional_number := (Config.optional_number env).
Local Abbreviation optional := (Config.optional env).
Local Abbreviation private_key := (Config.private_key env ReadFile).
Local Abbreviation number_ok := (Config.number_ok env).
Local Abbreviation duration_ok := (Config.duration_ok env ParseDuration).
Local Abbreviation key_ok := (Config.key_ok env ReadFile).

Lemma required_inr (var v : string) :
  required var = inr v <-> Getenv var <> EmptyString /\ v = Getenv var.
Proof.
  unfold Config.required. destruct (String.eqb_spec (Getenv var) EmptyString) as [He|Hne].
  - split; [discriminate|]. intros [Hne _]. contradiction.
  - split; [intros [= <-]; auto|]. intros [_ ->]. reflexivity.
Qed.

Lemma number_inr (var s : string) (n : Z) :
  Config.number var s = inr n <-> Strconv.Atoi s = Ok n.
Proof.
  unfold Config.number. destruct (Strconv.Atoi s); split; congruence.
Qed.

Lemma duration_inr (var : string) (default d : Z) :
  duration var default = inr d <->
  (Getenv var = EmptyString /\ d = default) \/
  (Getenv var <> EmptyString /\ ParseDuration (Getenv var) = Ok d).
Proof.
  unfold Config.duration. destruct (String.eqb_spec (Getenv var) EmptyString) as [He|Hne].
  - split; [intros [= <-]; auto|]. intros [[_ ->]|[Hne _]]; [reflexivity|contradiction].
  - destruct (ParseDuration (Getenv var)) as [x|e].
    + split; [intros [= <-]; auto|]. intros [[He _]|[_ Hx]]; [contradiction|congruence].
    + split; [discriminate|]. intros [[He _]|[_ Hx]]; [contradiction|discriminate].
Qed.

Lemma optional_number_inr (var : string) (default n : Z) :
  optional_number var default = inr n <->
  (Getenv var = EmptyString /\ n = default) \/
  (Getenv var <> EmptyString /\ Strconv.Atoi (Getenv var) = Ok n).
Proof.
  unfold Config.optional_number.
  destruct (String.eqb_spec (Getenv var) EmptyString) as [He|Hne].
  - split; [intros [= <-]; auto|]. intros [[_ ->]|[Hne _]]; [reflexivity|contradiction].
  - rewrite number_inr. split; [auto|]. intros [[He _]|[_ Hx]]; [contradiction|exact Hx].
Qed.

Lemma private_key_inr (key : list byte) :
  private_key = inr key <->
  (Getenv "GITHUB_APP_PRIVATE_KEY_PATH" <> EmptyString /\
   ReadFile (Getenv "GITHUB_APP_PRIVATE_KEY_PATH") = Ok key) \/
  (Getenv "GITHUB_APP_PRIVATE_KEY_PATH" = EmptyString /\
   Getenv "GITHUB_APP_PRIVATE_KEY" <> EmptyString /\
   key = list_byte_of_string (Getenv "GITHUB_APP_PRIVATE_KEY")).
Proof.
  unfold Config.private_key.
  destruct (String.eqb_spec (Getenv "GITHUB_APP_PRIVATE_KEY_PATH") EmptyString)
    as [He|Hne]; simpl.
  - destruct (String.eqb_spec (Getenv "GITHUB_APP_PRIVATE_KEY") EmptyString)
      as [Hv|Hv]; simpl.
    + split; [discriminate|]. intros [[Hne _]|(_ & Hne & _)]; contradiction.
    + split; [intros [= <-]; auto|]. intros [[Hne _]|(_ & _ & ->)]; [contradiction|reflexivity].
  - destruct (ReadFile (Getenv "GITHUB_APP_PRIVATE_KEY_PATH")) as [k|e].
    + split; [intros [= <-]; auto|]. intros [[_ Hk]|[He _]]; [congruence|contradiction].
    + split; [discriminate|]. intros [[_ Hk]|[He _]]; [discriminate|contradiction].
Qed.

(** [Load] step by step. *)
Lemma Load_inr (cfg : Config) :
  Load = inr cfg <->
  required "REGISTRY_REPO_URL" = inr (RegistryRepoURL cfg) /\
  RegistryBranch cfg = optional "REGISTRY_BRANCH" "main" /\
  Getenv "GITHUB_APP_ID" <> EmptyString /\
  Config.number "GITHUB_APP_ID" (Getenv "GITHUB_APP_ID") = inr (GitHubAppID cfg) /\
  private_key = inr (GitHubAppPrivateKey cfg) /\
  Getenv "GITHUB_INSTALLATION_ID" <> EmptyString /\
  Config.number "GITHUB_INSTALLATION_ID" (Getenv "GITHUB_INSTALLATION_ID")
    = inr (GitHubInstallationID cfg) /\
  required "WEBHOOK_SECRET" = inr (WebhookSecret cfg) /\
  duration "POLL_INTERVAL" (5 * Minute) = inr (PollInterval cfg) /\
  duration "CLONE_TIMEOUT" (2 * Minute) = inr (CloneTimeout cfg) /\
  DataPath cfg = optional "DATA_PATH" "/data" /\
  optional_number "CACHE_SIZE" 1000 = inr (CacheSize cfg) /\
  optional_number "PORT" 8080 = inr (Port cfg) /\
  OTLPEndpoint cfg = Getenv "OTLP_ENDPOINT".
Proof.
  unfold Config.Load, Config.bind. split.
  - destruct (required "REGISTRY_REPO_URL") as [|url] eqn:Hurl; [discriminate|].
    destruct (required "GITHUB_APP_ID") as [|appIDStr] eqn:Happ; [discriminate|].
    apply required_inr in Happ as [Happ ->].
    destruct (Config.number "GITHUB_APP_ID" _) as [|appID]; [discriminate|].
    destruct private_key as [|key]; [discriminate|].
    destruct (required "GITHUB_INSTALLATION_ID") as [|installIDStr] eqn:Hinst;
      [discriminate|].
    apply required_inr in Hinst as [Hinst ->].
    destruct (Config.number "GITHUB_INSTALLATION_ID" _) as [|installID]; [discriminate|].
    destruct (required "WEBHOOK_SECRET") as [|secret]; [discriminate|].
    destruct (duration "POLL_INTERVAL" _) as [|poll]; [discriminate|].
    destruct (duration "CLONE_TIMEOUT" _) as [|clone]; [discriminate|].
    destruct (optional_number "CACHE_SIZE" _) as [|size]; [discriminate|].
    destruct (optional_number "PORT" _) as [|port]; [discriminate|].
    intros [= <-]. simpl. repeat split; assumption.
  - intros (Hurl & Hbranch & Happ & Happn & Hkey & Hinst & Hinstn & Hsecret & Hpoll
            & Hclone & Hdata & Hsize & Hport & Hotlp).
    assert (Ha : required "GITHUB_APP_ID" = inr (Getenv "GITHUB_APP_ID")).
    { apply required_inr. auto. }
    assert (Hi : required "GITHUB_INSTALLATION_ID" = inr (Getenv "GITHUB_INSTALLATION_ID")).
    { apply required_inr. auto. }
    rewrite Hurl, Ha, Happn, Hkey, Hi, Hinstn, Hsecret, Hpoll, Hclone, Hsize, Hport.
    rewrite <- Hbranch, <- Hdata, <- Hotlp.
    destruct cfg; reflexivity.
Qed.

(** X9. [Load] succeeds exactly when the repository URL and the webhook
    secret are set, the two GitHub ids are set to numbers, a private key
    is given (a readable key file, or else a key value), and every
    duration, the cache size and the port that is set can be read. *)
Theorem X9_load_succeeds_iff :
  (exists cfg, Load = inr cfg) <->
  Getenv "REGISTRY_REPO_URL" <> EmptyString /\
  (exists n, Strconv.Atoi (Getenv "GITHUB_APP_ID") = Ok n) /\
  key_ok /\
  (exists n, Strconv.Atoi (Getenv "GITHUB_INSTALLATION_ID") = Ok n) /\
  Getenv "WEBHOOK_SECRET" <> EmptyString /\
  duration_ok "POLL_INTERVAL" /\ duration_ok "CLONE_TIMEOUT" /\
  number_ok "CACHE_SIZE" /\ number_ok "PORT".
Proof.
  unfold Config.key_ok, Config.duration_ok, Config.number_ok. split.
  - intros [cfg Hcfg]. apply Load_inr in Hcfg
      as (Hurl & _ & _ & Happ & Hkey & _ & Hinst & Hsecret & Hpoll & Hclone & _
          & Hsize & Hport & _).
    apply required_inr in Hurl as [Hurl _], Hsecret as [Hsecret _].
    apply number_inr in Happ, Hinst.
    apply private_key_inr in Hkey. apply duration_inr in Hpoll, Hclone.
    apply optional_number_inr in Hsize, Hport.
    split; [exact Hurl|]. split; [eauto|]. split; [|split; [eauto|]].
    { destruct Hkey as [[Hp Hk]|(Hp & Hv & _)]; [left|right]; eauto. }
    split; [exact Hsecret|].
    split; [destruct Hpoll as [[? _]|[_ ?]]; eauto|].
    split; [destruct Hclone as [[? _]|[_ ?]]; eauto|].
    split; [destruct Hsize as [[? _]|[_ ?]]; eauto|].
    destruct Hport as [[? _]|[_ ?]]; eauto.
  - intros (Hurl & [appID Happ] & Hkey & [installID Hinst] & Hsecret & Hpoll & Hclone
            & Hsize & Hport).
    assert (Hk : exists key, private_key = inr key).
    { destruct Hkey as [[Hp [key Hk]]|[Hp Hv]].
      - exists key. apply private_key_inr. left. auto.
      - eexists. apply private_key_inr. right. eauto. }
    assert (Hd : forall var default, duration_ok var ->
                   exists d, duration var default = inr d).
    { intros var default [He|[d Hd]].
      - exists default. apply duration_inr. left. auto.
      - destruct (String.eqb_spec (Getenv var) EmptyString) as [He|Hne].
        + exists default. apply duration_inr. left. auto.
        + exists d. apply duration_inr. right. auto. }
    assert (Hn : forall var default, number_ok var ->
                   exists n, optional_number var default = inr n).
    { intros var default [He|[n Hn]].
      - exists default. apply optional_number_inr. left. auto.
      - destruct (String.eqb_spec (Getenv var) EmptyString) as [He|Hne].
        + exists default. apply optional_number_inr. left. auto.
        + exists n. apply optional_number_inr. right. auto. }
    unfold Config.duration_ok, Config.number_ok in Hd, Hn.
    destruct Hk as [key Hk].
    destruct (Hd "POLL_INTERVAL" (5 * Minute) Hpoll) as [poll Hp].
    destruct (Hd "CLONE_TIMEOUT" (2 * Minute) Hclone) as [clone Hc].
    destruct (Hn "CACHE_SIZE" 1000 Hsize) as [size Hs].
    destruct (Hn "PORT" 8080 Hport) as [port Hpt].
    assert (Hne : forall var n, Strconv.Atoi (Getenv var) = Ok n -> Getenv var <> EmptyString).
    { intros var n Hok He. rewrite He in Hok. discriminate Hok. }
    exists {| RegistryRepoURL := Getenv "REGISTRY_REPO_URL";
              RegistryBranch := optional "REGISTRY_BRANCH" "main";
              GitHubAppID := appID; GitHubAppPrivateKey := key;
              GitHubInstallationID := installID;
              WebhookSecret := Getenv "WEBHOOK_SECRET";
              PollInterval := poll; CloneTimeout := clone;
              DataPath := optional "DATA_PATH" "/data";
              CacheSize := size; Port := port;
              OTLPEndpoint := Getenv "OTLP_ENDPOINT" |}.
    apply Load_inr. simpl.
    repeat split; try assumption; try reflexivity;
      try (apply required_inr; auto); try (apply number_inr; assumption);
      eapply Hne; eassumption.
Qed.

(** X10. In a configuration that [Load] returns, every optional
    variable that is unset or empty has its default (branch [main],
    five and two minutes, [/data], 1000, 8080), and the cache size and
    the port that are set are taken as any integer that they spell,
    zero and negative numbers included. *)
Theorem X10_load_defaults (cfg : Config) :
  Load = inr cfg ->
  RegistryRepoURL cfg = Getenv "REGISTRY_REPO_URL" /\
  WebhookSecret cfg = Getenv "WEBHOOK_SECRET" /\
  OTLPEndpoint cfg = Getenv "OTLP_ENDPOINT" /\
  (Getenv "REGISTRY_BRANCH" = EmptyString -> RegistryBranch cfg = "main") /\
  (Getenv "REGISTRY_BRANCH" <> EmptyString -> RegistryBranch cfg = Getenv "REGISTRY_BRANCH") /\
  (Getenv "POLL_INTERVAL" = EmptyString -> PollInterval cfg = 300 * GitPull.Second) /\
  (Getenv "CLONE_TIMEOUT" = EmptyString -> CloneTimeout cfg = 120 * GitPull.Second) /\
  (Getenv "DATA_PATH" = EmptyString -> DataPath cfg = "/data") /\
  (Getenv "CACHE_SIZE" = EmptyString -> CacheSize cfg = 1000) /\
  (Getenv "PORT" = EmptyString -> Port cfg = 8080) /\
  (Getenv "CACHE_SIZE" <> EmptyString ->
     Strconv.Atoi (Getenv "CACHE_SIZE") = Ok (CacheSize cfg)) /\
  (Getenv "PORT" <> EmptyString -> Strconv.Atoi (Getenv "PORT") = Ok (Port cfg)).
Proof.
  intros (Hurl & Hbranch & _ & _ & _ & _ & _ & Hsecret & Hpoll & Hclone & Hdata
          & Hsize & Hport & Hotlp)%Load_inr.
  apply required_inr in Hurl as [_ Hurl], Hsecret as [_ Hsecret].
  apply duration_inr in Hpoll, Hclone. apply optional_number_inr in Hsize, Hport.
  unfold Config.optional in Hbranch, Hdata.
  split; [exact Hurl|]. split; [exact Hsecret|]. split; [exact Hotlp|].
  split; [intros He; rewrite He in Hbranch; exact Hbranch|].
  split; [intros Hne; apply String.eqb_neq in Hne; rewrite Hne in Hbranch; exact Hbranch|].
  split; [intros He; destruct Hpoll as [[_ ->]|[Hne _]]; [reflexivity|contradiction]|].
  split; [intros He; destruct Hclone as [[_ ->]|[Hne _]]; [reflexivity|contradiction]|].
  split; [intros He; rewrite He in Hdata; exact Hdata|].
  split; [intros He; destruct Hsize as [[_ ->]|[Hne _]]; [reflexivity|contradiction]|].
  split; [intros He; destruct Hport as [[_ ->]|[Hne _]]; [reflexivity|contradiction]|].
  split; [intros Hne; destruct Hsize as [[He _]|[_ Hok]]; [contradiction|exact Hok]|].
  intros Hne; destruct Hport as [[He _]|[_ Hok]]; [contradiction|exact Hok].
Qed.

(** X11. When the variable for the key file is set, the key is the
    content of that file and the variable for the key value is not
    looked at: an unreadable file makes [Load] fail even when a key
    value is set as well. *)
Theorem X11_key_file_comes_first :
  Getenv "GITHUB_APP_PRIVATE_KEY_PATH" <> EmptyString ->
  (forall cfg, Load = inr cfg ->
     ReadFile (Getenv "GITHUB_APP_PRIVATE_KEY_PATH") = Ok (GitHubAppPrivateKey cfg)) /\
  (forall e, ReadFile (Getenv "GITHUB_APP_PRIVATE_KEY_PATH") = Err e ->
     forall cfg, Load <> inr cfg).
Proof.
  intros Hpath. split.
  - intros cfg (_ & _ & _ & _ & Hkey & _)%Load_inr.
    apply private_key_inr in Hkey as [[_ Hk]|[He _]]; [exact Hk|contradiction].
  - intros e He cfg (_ & _ & _ & _ & Hkey & _)%Load_inr.
    apply private_key_inr in Hkey as [[_ Hk]|[Hempty _]]; [congruence|contradiction].
Qed.

End ConfigFacts.

(** ** The cache of the catalog *)

Section CacheFacts.
Import Domain.
Variable yaml_Index : list byte -> option Index.
Variable yaml_ServerJSON : list byte -> option ServerJSON.

Local Abbreviation GetServer := (Registry.GetServer yaml_ServerJSON).
Local Abbreviation lookup := (Registry.lookup yaml_ServerJSON).
Local Abbreviation hydrate := (Registry.hydrate yaml_ServerJSON).
Local Abbreviation ListServers := (Registry.ListServers yaml_ServerJSON).
Local Abbreviation Refresh := (Registry.Refresh yaml_Index).
Local Abbreviation LoadIndex := (Registry.LoadIndex yaml_Index).

Lemma LRU_find_head (k : string) (v : ServerJSON) (l : list (string * ServerJSON)) :
  LRU.find k ((k, v) :: l) = Some v.
Proof. unfold LRU.find. simpl. rewrite bool_decide_eq_true_2 by reflexivity. reflexivity. Qed.

Lemma LRU_find_None (k : string) (l : list (string * ServerJSON)) :
  LRU.find k l = None <-> k ∉ l.*1.
Proof.
  unfold LRU.find. induction l as [|[k' v'] l IH]; simpl.
  - split; [intros _ []%elem_of_nil|reflexivity].
  - rewrite not_elem_of_cons. destruct (decide (k' = k)) as [->|Hne].
    + rewrite bool_decide_eq_true_2 by reflexivity. simpl.
      split; [discriminate|]. intros [Hk _]. congruence.
    + rewrite bool_decide_eq_false_2 by exact Hne. rewrite IH.
      split; [intros Hk; split; [congruence|exact Hk]|intros [_ Hk]; exact Hk].
Qed.

Lemma LRU_remove_keys (k : string) (l : list (string * ServerJSON)) :
  (k ∉ (LRU.remove k l).*1) /\
  (NoDup l.*1 -> NoDup (LRU.remove k l).*1) /\
  (length (LRU.remove k l) <= length l)%nat /\
  (k ∈ l.*1 -> length (LRU.remove k l) < length l)%nat.
Proof.
  unfold LRU.remove. induction l as [|[k' v'] l (Hno & Hnd & Hle & Hlt)];
    [split; [intros []%elem_of_nil|]; split; [auto|]; split; [simpl; lia|intros []%elem_of_nil]|].
  destruct (decide (k' = k)) as [->|Hne].
  - rewrite filter_cons_False by (simpl; intros Hk; congruence).
    split; [exact Hno|]. split.
    + rewrite fmap_cons. intros [_ Hl]%NoDup_cons. auto.
    + simpl. split; [lia|]. intros _. lia.
  - rewrite filter_cons_True by (simpl; congruence). rewrite !fmap_cons. simpl.
    split; [rewrite not_elem_of_cons; split; [congruence|exact Hno]|]. split.
    + intros [Hk Hl]%NoDup_cons. apply NoDup_cons. split; [|auto].
      intros Hin. apply Hk. apply list_elem_of_fmap in Hin as ([k0 v0] & -> & Hin).
      apply list_elem_of_filter in Hin as [_ Hin].
      apply list_elem_of_fmap. exists (k0, v0). auto.
    + split; [lia|]. intros [Heq|Hin]%elem_of_cons; [congruence|].
      specialize (Hlt Hin). lia.
Qed.

Lemma removelast_keys (l : list (string * ServerJSON)) :
  l <> [] -> NoDup l.*1 ->
  NoDup (removelast l).*1 /\ S (length (removelast l)) = length l.
Proof.
  intros Hne Hnd.
  destruct (exists_last Hne) as (l' & x & ->).
  rewrite removelast_last. rewrite fmap_app in Hnd.
  apply NoDup_app in Hnd as (Hnd & _ & _).
  split; [exact Hnd|]. rewrite length_app. simpl. lia.
Qed.

(** The cache keeps its shape through a hit and through an insert. *)
Lemma LRU_Get_ok (k : string) (c c' : LRU.t ServerJSON) (v : ServerJSON) :
  (length (LRU.items c) <= LRU.size c)%nat -> NoDup (LRU.items c).*1 ->
  LRU.Get k c = Some (v, c') ->
  (length (LRU.items c') <= LRU.size c')%nat /\ NoDup (LRU.items c').*1 /\
  LRU.size c' = LRU.size c /\ LRU.find k (LRU.items c') = Some v.
Proof.
  intros Hlen Hnd. unfold LRU.Get.
  destruct (LRU.find k (LRU.items c)) as [v0|] eqn:Hfind; [|discriminate].
  intros [= <- <-]. cbn [LRU.items LRU.size].
  destruct (LRU_remove_keys k (LRU.items c)) as (Hno & Hnd' & _ & Hlt).
  assert (Hin : k ∈ (LRU.items c).*1).
  { apply LRU_find_elem_of in Hfind. apply list_elem_of_fmap. exists (k, v0). auto. }
  specialize (Hlt Hin).
  split; [simpl; lia|]. split; [|split; [reflexivity|apply LRU_find_head]].
  rewrite fmap_cons. apply NoDup_cons. split; [exact Hno|auto].
Qed.

Lemma LRU_Add_ok (k : string) (v : ServerJSON) (c : LRU.t ServerJSON) :
  (length (LRU.items c) <= LRU.size c)%nat -> NoDup (LRU.items c).*1 ->
  (length (LRU.items (LRU.Add k v c)) <= LRU.size (LRU.Add k v c))%nat /\
  NoDup (LRU.items (LRU.Add k v c)).*1 /\
  LRU.size (LRU.Add k v c) = LRU.size c /\
  ((0 < LRU.size c)%nat -> LRU.find k (LRU.items (LRU.Add k v c)) = Some v).
Proof.
  intros Hlen Hnd. unfold LRU.Add.
  destruct (LRU.find k (LRU.items c)) as [v0|] eqn:Hfind; cbn [LRU.items LRU.size].
  - destruct (LRU_remove_keys k (LRU.items c)) as (Hno & Hnd' & _ & Hlt).
    assert (Hin : k ∈ (LRU.items c).*1).
    { apply LRU_find_elem_of in Hfind. apply list_elem_of_fmap. exists (k, v0). auto. }
    specialize (Hlt Hin).
    split; [simpl; lia|]. split; [|split; [reflexivity|intros _; apply LRU_find_head]].
    rewrite fmap_cons. apply NoDup_cons. split; [exact Hno|auto].
  - apply LRU_find_None in Hfind.
    assert (Hnd1 : NoDup ((k, v) :: LRU.items c).*1).
    { rewrite fmap_cons. apply NoDup_cons. auto. }
    case_decide as Hfull.
    + destruct (removelast_keys ((k, v) :: LRU.items c)) as [Hnd2 Hl2];
        [discriminate|exact Hnd1|].
      cbn [length] in Hfull, Hl2.
      split; [lia|]. split; [exact Hnd2|]. split; [reflexivity|].
      intros Hpos. destruct (LRU.items c) as [|x l] eqn:Hitems; [simpl in Hfull; lia|].
      change (removelast ((k, v) :: x :: l)) with ((k, v) :: removelast (x :: l)).
      apply LRU_find_head.
    + cbn [length] in Hfull.
      split; [simpl; lia|]. split; [exact Hnd1|]. split; [reflexivity|].
      intros _. apply LRU_find_head.
Qed.

Lemma LRU_Get_None (k : string) (c : LRU.t ServerJSON) :
  LRU.Get k c = None <-> LRU.find k (LRU.items c) = None.
Proof. unfold LRU.Get. destruct (LRU.find k (LRU.items c)); split; congruence. Qed.

Lemma cached_lookup (k : string) (sv : ServerJSON) (r : Registry.t) :
  LRU.find k (LRU.items (Registry.cache r)) = Some sv ->
  lookup k r
  = (Ok sv,
     Registry.with_hits (wrap64 (Registry.cacheHits r + 1))
       (Registry.with_cache
          {| LRU.size := LRU.size (Registry.cache r);
             LRU.items := (k, sv) :: LRU.remove k (LRU.items (Registry.cache r)) |} r)).
Proof.
  intros Hfind. unfold Registry.lookup, LRU.Get. rewrite Hfind. reflexivity.
Qed.

(** X12. A manifest that is in the cache under the decoded name is what
    [GetServer] returns, as a hit, whatever the index and the working
    copy are: neither is consulted, also when no index is loaded. *)
Theorem X12_cached_manifest_is_served (name : string) (sv : ServerJSON) (r : Registry.t) :
  LRU.find (Client.decoded name) (LRU.items (Registry.cache r)) = Some sv ->
  (GetServer name r).1 = Ok sv /\
  Registry.cacheHits (GetServer name r).2 = wrap64 (Registry.cacheHits r + 1) /\
  Registry.cacheMisses (GetServer name r).2 = Registry.cacheMisses r /\
  forall (s : GitStore.t) (i : option Index),
    (GetServer name
       {| Registry.store := s; Registry.cache := Registry.cache r; Registry.index := i;
          Registry.cacheSize := Registry.cacheSize r;
          Registry.cacheHits := Registry.cacheHits r;
          Registry.cacheMisses := Registry.cacheMisses r;
          Registry.lastSyncAt := Registry.lastSyncAt r |}).1 = Ok sv.
Proof.
  intros Hfind. unfold Registry.GetServer. fold (Client.decoded name).
  rewrite (cached_lookup _ sv r Hfind). simpl.
  do 3 (split; [reflexivity|]). intros s i.
  rewrite (cached_lookup (Client.decoded name) sv); [reflexivity|exact Hfind].
Qed.

(** X13. After a successful [GetServer] in a catalog whose cache has
    room for at least one manifest, and whose cache has its shape, the
    same request is a cache hit with the same manifest. *)
Theorem X13_second_get_is_a_hit (name : string) (sv : ServerJSON) (r r1 : Registry.t) :
  (0 < LRU.size (Registry.cache r))%nat ->
  (length (LRU.items (Registry.cache r)) <= LRU.size (Registry.cache r))%nat ->
  NoDup (LRU.items (Registry.cache r)).*1 ->
  GetServer name r = (Ok sv, r1) ->
  (GetServer name r1).1 = Ok sv /\
  Registry.cacheHits (GetServer name r1).2 = wrap64 (Registry.cacheHits r1 + 1) /\
  Registry.cacheMisses (GetServer name r1).2 = Registry.cacheMisses r1.
Proof.
  intros Hpos Hlen Hnd Hget.
  assert (Hfind : LRU.find (Client.decoded name) (LRU.items (Registry.cache r1)) = Some sv).
  { revert Hget. unfold Registry.GetServer, Registry.lookup. fold (Client.decoded name).
    destruct (LRU.Get (Client.decoded name) (Registry.cache r)) as [[v c]|] eqn:Hhit.
    - intros [= <- <-]. simpl.
      apply (LRU_Get_ok _ _ _ _ Hlen Hnd) in Hhit. apply Hhit.
    - simpl. repeat case_match; intros Heq; simplify_eq. simpl.
      apply (LRU_Add_ok _ _ _ Hlen Hnd). exact Hpos. }
  unfold Registry.GetServer. fold (Client.decoded name).
  rewrite (cached_lookup _ sv r1 Hfind). simpl. repeat split.
Qed.

Lemma lookup_cache_ok (k : string) (r : Registry.t) :
  History.cache_ok r ->
  History.cache_ok (lookup k r).2 /\
  Registry.cacheSize (lookup k r).2 = Registry.cacheSize r.
Proof.
  intros (Hlen & Hnd & Hsize). unfold Registry.lookup.
  destruct (LRU.Get k (Registry.cache r)) as [[v c]|] eqn:Hget.
  - destruct (LRU_Get_ok _ _ _ _ Hlen Hnd Hget) as (Hl & Hn & Hs & _).
    unfold History.cache_ok. simpl. rewrite Hs.
    split; [split; [lia|split; [exact Hn|exact Hsize]]|reflexivity].
  - assert (Hsame : History.cache_ok
                      (Registry.with_misses (wrap64 (Registry.cacheMisses r + 1)) r)).
    { split; [exact Hlen|split; [exact Hnd|exact Hsize]]. }
    cbn [Registry.index Registry.store Registry.with_misses].
    destruct (Registry.index r) as [i|]; [|split; [exact Hsame|reflexivity]].
    destruct (List.find _ (Servers i)) as [entry|]; [|split; [exact Hsame|reflexivity]].
    destruct (GitStore.ReadFile (Registry.store r) (entry_Path entry)) as [content|e];
      [|split; [exact Hsame|reflexivity]].
    destruct (yaml_ServerJSON content) as [server|]; [|split; [exact Hsame|reflexivity]].
    destruct (LRU_Add_ok k server (Registry.cache r) Hlen Hnd) as (Hl & Hn & Hs & _).
    unfold History.cache_ok. simpl. rewrite Hs.
    split; [split; [lia|split; [exact Hn|exact Hsize]]|reflexivity].
Qed.

Lemma hydrate_cache_ok (rows : list IndexEntry) (r : Registry.t) :
  History.cache_ok r ->
  History.cache_ok (hydrate rows r).2 /\
  Registry.cacheSize (hydrate rows r).2 = Registry.cacheSize r.
Proof.
  revert r. induction rows as [|e rows IH]; intros r Hok; simpl; [auto|].
  unfold Registry.GetServer.
  pose proof (lookup_cache_ok (Client.decoded (entry_Name e)) r Hok) as [Hok1 Hs1].
  unfold Client.decoded in Hok1, Hs1.
  destruct (lookup _ r) as [res r1]. simpl in Hok1, Hs1.
  specialize (IH r1 Hok1). destruct (hydrate rows r1) as [out r2]. simpl in *.
  destruct IH as [IH1 IH2]. split; [exact IH1|congruence].
Qed.

Lemma step_cache_ok (o : History.Op) (r : Registry.t) :
  History.cache_ok r ->
  History.cache_ok (History.step yaml_Index yaml_ServerJSON o r) /\
  Registry.cacheSize (History.step yaml_Index yaml_ServerJSON o r) = Registry.cacheSize r.
Proof.
  intros Hok. destruct o as [name|cursor limit|now|now|s]; simpl.
  - apply lookup_cache_ok, Hok.
  - unfold Registry.ListServers. destruct (Registry.index r); [|auto].
    match goal with |- context [hydrate ?rows r] =>
      pose proof (hydrate_cache_ok rows r Hok) as Hh; destruct (hydrate rows r) as [out r1]
    end.
    exact Hh.
  - destruct Hok as (Hlen & Hnd & Hsize).
    unfold Registry.Refresh, Registry.LoadIndex. simpl.
    repeat case_match; simpl;
      (split; [split; [simpl; lia|split; [constructor|exact Hsize]]|reflexivity]).
  - unfold Registry.LoadIndex. repeat case_match; auto.
  - auto.
Qed.

(** X14. Whatever size the catalog is created with, zero and negative
    sizes included, its cache has a positive capacity; and through any
    history of lookups, listings, index loads, refreshes and pulls the
    cache holds every name at most once and never more manifests than
    that capacity. *)
Theorem X14_cache_stays_within_capacity (s : GitStore.t) (size : Z)
    (ops : list History.Op) :
  let r := History.run yaml_Index yaml_ServerJSON ops (Registry.New s size) in
  0 < Registry.cacheSize r /\
  (size <= 0 -> Registry.cacheSize r = 1000) /\
  (0 < size -> Registry.cacheSize r = size) /\
  NoDup (LRU.items (Registry.cache r)).*1 /\
  LRU.Len (Registry.cache r) <= Registry.cacheSize r.
Proof.
  assert (Hrun : forall ops r, History.cache_ok r ->
            History.cache_ok (History.run yaml_Index yaml_ServerJSON ops r) /\
            Registry.cacheSize (History.run yaml_Index yaml_ServerJSON ops r)
            = Registry.cacheSize r).
  { clear ops. intros ops. induction ops as [|o ops IH]; intros r Hok; [auto|].
    simpl. destruct (step_cache_ok o r Hok) as [Hok1 Hs1].
    destruct (IH _ Hok1) as [Hok' Hsize']. split; [exact Hok'|congruence]. }
  intros r. subst r.
  assert (Hnew : History.cache_ok (Registry.New s size)).
  { unfold History.cache_ok, Registry.New. simpl.
    split; [lia|]. split; [constructor|].
    destruct (Z.leb_spec size 0); lia. }
  destruct (Hrun ops _ Hnew) as [(Hlen & Hnd & Hsz) Hcap].
  assert (Hc : Registry.cacheSize (Registry.New s size)
               = if size <=? 0 then 1000 else size) by reflexivity.
  rewrite Hc in Hcap. rewrite Hcap in Hsz |- *. unfold LRU.Len.
  destruct (Z.leb_spec size 0);
    (split; [lia|split; [intros; lia|split; [intros; lia|split; [exact Hnd|lia]]]]).
Qed.

(** X15. A refresh that succeeds installs the index that index.yaml
    decodes to, empties the cache, sets both counters to zero and the
    time of the last sync to the reading of the clock; the status is
    [valid] and the server count is the number of rows. *)
Theorem X15_refresh_installs_index (now : Z) (r r' : Registry.t) :
  Refresh now r = (Ok tt, r') ->
  exists content i,
    GitStore.ReadFile (Registry.store r) "index.yaml" = Ok content /\
    yaml_Index content = Some i /\
    Registry.index r' = Some i /\
    LRU.items (Registry.cache r') = [] /\
    Registry.cacheHits r' = 0 /\ Registry.cacheMisses r' = 0 /\
    Registry.lastSyncAt r' = now /\
    Registry.store r' = Registry.store r /\
    Registry.IndexStatus r' = "valid" /\
    Registry.ServerCount r' = Z.of_nat (length (Servers i)).
Proof.
  unfold Registry.Refresh, Registry.LoadIndex. simpl.
  destruct (GitStore.ReadFile (Registry.store r) "index.yaml") as [content|e];
    [|discriminate].
  destruct (yaml_Index content) as [i|] eqn:Hi; [|discriminate].
  intros [= <-]. exists content, i. repeat split. exact Hi.
Qed.

(** X16. After a refresh, successful or not, a manifest that
    [GetServer] returns was read just now from the working copy,
    through the first row of the current index that has the decoded
    name: nothing cached before the refresh is served. *)
Theorem X16_no_stale_manifest_after_refresh (now : Z) (r r' r'' : Registry.t)
    (res : result unit) (name : string) (sv : ServerJSON) :
  Refresh now r = (res, r') ->
  GetServer name r' = (Ok sv, r'') ->
  exists i entry content,
    Registry.index r' = Some i /\
    List.find (fun e => String.eqb (entry_Name e) (Client.decoded name)) (Servers i)
    = Some entry /\
    GitStore.ReadFile (Registry.store r') (entry_Path entry) = Ok content /\
    yaml_ServerJSON content = Some sv /\
    Registry.cacheMisses r'' = 1 /\ Registry.cacheHits r'' = 0.
Proof.
  intros Hrefresh.
  assert (Hempty : LRU.items (Registry.cache r') = [] /\
                   Registry.cacheMisses r' = 0 /\ Registry.cacheHits r' = 0).
  { revert Hrefresh. unfold Registry.Refresh, Registry.LoadIndex. simpl.
    repeat case_match; intros [= <- <-]; repeat split. }
  destruct Hempty as (Hitems & Hm & Hh).
  unfold Registry.GetServer, Registry.lookup, LRU.Get, LRU.find.
  fold (Client.decoded name). rewrite Hitems. simpl.
  destruct (Registry.index r') as [i|] eqn:Hindex; [|discriminate].
  destruct (List.find _ (Servers i)) as [entry|] eqn:Hfind; [|discriminate].
  destruct (GitStore.ReadFile (Registry.store r') (entry_Path entry))
    as [content|e] eqn:Hread; [|discriminate].
  destruct (yaml_ServerJSON content) as [server|] eqn:Hy; [|discriminate].
  intros [= <- <-]. exists i, entry, content. simpl. rewrite Hm, Hh.
  split; [reflexivity|]. split; [exact Hfind|]. split; [exact Hread|].
  split; [exact Hy|]. split; reflexivity.
Qed.

End CacheFacts.

(** ** Pages and the next cursor *)

Section ListFacts.
Import Domain.
Variable yaml_ServerJSON : list byte -> option ServerJSON.

Local Abbreviation GetServer := (Registry.GetServer yaml_ServerJSON).
Local Abbreviation lookup := (Registry.lookup yaml_ServerJSON).
Local Abbreviation hydrate := (Registry.hydrate yaml_ServerJSON).
Local Abbreviation ListServers := (Registry.ListServers yaml_ServerJSON).
Local Abbreviation paginate := (Client.paginate yaml_ServerJSON).

Lemma sorted_names_not_empty (l : list IndexEntry) :
  Forall (fun e => entry_Name e <> EmptyString) l ->
  Forall (fun e => entry_Name e <> EmptyString) (Registry.sort_by_name l).
Proof. intros Hall. rewrite sort_by_name_Permutation. exact Hall. Qed.

(** The next cursor over rows without an empty name: it is empty when
    the page reaches the end of the rows, and the name of the row
    before [endIdx] otherwise. *)
Lemma next_cursor_named (endIdx : Z) (l : list IndexEntry) :
  0 <= endIdx -> Forall (fun e => entry_Name e <> EmptyString) l ->
  (Registry.next_cursor endIdx l = EmptyString /\ Z.of_nat (length l) <= endIdx) \/
  (endIdx < Z.of_nat (length l) /\
   exists x, l !! Z.to_nat (endIdx - 1) = Some x /\
             Registry.next_cursor endIdx l = entry_Name x /\
             entry_Name x <> EmptyString).
Proof.
  intros Hpos Hall. unfold Registry.next_cursor.
  destruct (Z.ltb_spec endIdx (Z.of_nat (length l))) as [Hlt|Hge];
    [|left; split; [reflexivity|lia]].
  destruct (l !! Z.to_nat (endIdx - 1)) as [x|] eqn:Hx.
  - right. split; [exact Hlt|]. exists x. split; [reflexivity|split; [reflexivity|]].
    rewrite Forall_forall in Hall. apply Hall, list_elem_of_lookup. eauto.
  - apply lookup_ge_None in Hx. lia.
Qed.

(** X17. The next cursor of a page.  The count is the number of rows on
    the page.  A next cursor that is not empty comes with a full page,
    is the name of the last index row of that page, and rows remain
    behind the page; when no index row has the empty name, an empty
    next cursor comes with the page that holds all the rows that were
    left. *)
Theorem X17_next_cursor (cursor : string) (limit : Z) (r r' : Registry.t) (i : Index)
    (resp : ServerListResponse) :
  Registry.index r = Some i ->
  ListServers cursor limit r = (Ok resp, r') ->
  Count (Metadata resp) = Z.of_nat (length (list_Servers resp)) /\
  length (list_Servers resp) = length (Registry.page_rows i cursor limit) /\
  (NextCursor (Metadata resp) <> EmptyString ->
     Z.of_nat (length (list_Servers resp)) = Registry.clamp_limit limit /\
     Registry.start_index cursor (Registry.sort_by_name (Servers i))
       + Registry.clamp_limit limit < Z.of_nat (length (Servers i)) /\
     last (Client.row_names (Registry.page_rows i cursor limit))
     = Some (NextCursor (Metadata resp))) /\
  (NextCursor (Metadata resp) = EmptyString ->
     Forall (fun e => entry_Name e <> EmptyString) (Servers i) ->
     Registry.page_rows i cursor limit
     = drop (Z.to_nat (Registry.start_index cursor (Registry.sort_by_name (Servers i))))
         (Registry.sort_by_name (Servers i))).
Proof.
  intros Hi. rewrite (ListServers_loaded yaml_ServerJSON cursor limit r i Hi).
  intros [= <- _]. cbn [Count NextCursor Metadata list_Servers].
  pose proof (hydrate_length yaml_ServerJSON (Registry.page_rows i cursor limit) r) as Hlen.
  pose proof (start_index_range cursor (Registry.sort_by_name (Servers i))) as Hstart.
  pose proof (clamp_limit_range limit) as Hlim.
  pose proof (sort_by_name_length (Servers i)) as Hsorted.
  pose proof (page_rows_length i cursor limit) as Hpage.
  set (sorted := Registry.sort_by_name (Servers i)) in *.
  set (start := Registry.start_index cursor sorted) in *.
  rewrite Hlen. split; [reflexivity|]. split; [reflexivity|]. split.
  - intros Hnext.
    destruct (next_cursor_cases
                (Registry.end_index start (Registry.clamp_limit limit) sorted) sorted)
      as [Hempty|(Hmore & x & Hx & Hname)]; [contradiction|].
    rewrite end_index_eq in Hmore, Hx. rewrite Hname.
    split; [lia|]. split; [lia|].
    rewrite last_lookup. unfold Client.row_names.
    rewrite list_lookup_fmap, length_fmap, page_rows_take_drop.
    fold sorted. fold start.
    rewrite length_take, length_drop, lookup_take_lt, lookup_drop by (rewrite ?length_drop; lia).
    replace (Z.to_nat start + pred (Z.to_nat (Registry.clamp_limit limit)
                                    `min` (length sorted - Z.to_nat start)))%nat
      with (Z.to_nat (Z.min (start + Registry.clamp_limit limit)
                            (Z.of_nat (length sorted)) - 1)) by lia.
    rewrite Hx. reflexivity.
  - intros Hnext Hall.
    destruct (next_cursor_named
                (Registry.end_index start (Registry.clamp_limit limit) sorted) sorted)
      as [[_ Hend]|(_ & x & _ & Hname & Hne)].
    + rewrite end_index_eq. lia.
    + apply sorted_names_not_empty, Hall.
    + rewrite end_index_eq in Hend. rewrite page_rows_take_drop.
      fold sorted. fold start. apply take_ge. rewrite length_drop. lia.
    + congruence.
Qed.

(** A pass over an index without an empty name, started behind a
    cursor, takes every row from there to the end of the sorted index. *)
Lemma paginate_all (i : Index) (limit : Z) :
  NoDup (Client.row_names (Servers i)) ->
  Forall (fun e => entry_Name e <> EmptyString) (Servers i) ->
  forall (fuel : nat) (cursor : string) (r : Registry.t),
    Registry.index r = Some i ->
    (length (Servers i)
     - Z.to_nat (Registry.start_index cursor (Registry.sort_by_name (Servers i)))
     < fuel)%nat ->
    exists pages r',
      paginate fuel cursor limit r = (Some pages, r') /\
      Client.pass_rows i limit pages
      = Client.row_names
          (drop (Z.to_nat (Registry.start_index cursor (Registry.sort_by_name (Servers i))))
                (Registry.sort_by_name (Servers i))).
Proof.
  intros Hnd Hall.
  pose proof (sort_by_name_strict (Servers i) Hnd) as Hstrict.
  pose proof (sort_by_name_length (Servers i)) as Hlen.
  pose proof (clamp_limit_range limit) as Hlim.
  pose proof (sorted_names_not_empty (Servers i) Hall) as Hnamed.
  induction fuel as [|fuel IH]; intros cursor r Hi Hfuel; [lia|].
  pose proof (start_index_range cursor (Registry.sort_by_name (Servers i))) as Hstart.
  pose proof (hydrate_preserves yaml_ServerJSON (Registry.page_rows i cursor limit) r)
    as [Hi1 _].
  cbn [Client.paginate].
  rewrite (ListServers_loaded yaml_ServerJSON cursor limit r i Hi).
  cbn [fst snd NextCursor Metadata].
  set (resp := {| list_Servers := (hydrate (Registry.page_rows i cursor limit) r).1;
                  Metadata := _ |}) in *.
  set (r1 := (hydrate (Registry.page_rows i cursor limit) r).2) in *.
  rewrite Hi in Hi1.
  destruct (next_cursor_named
              (Registry.end_index
                 (Registry.start_index cursor (Registry.sort_by_name (Servers i)))
                 (Registry.clamp_limit limit) (Registry.sort_by_name (Servers i)))
              (Registry.sort_by_name (Servers i)))
    as [[Hlast Hend]|(Hmore & x & Hx & Hnext & Hne)];
    [rewrite end_index_eq; lia|exact Hnamed| |].
  - rewrite Hlast. cbn [String.eqb].
    exists [(cursor, resp)], r1. split; [reflexivity|].
    unfold Client.pass_rows. cbn [fmap list_fmap concat fst].
    rewrite app_nil_r, page_rows_take_drop. f_equal.
    rewrite end_index_eq in Hend. apply take_ge. rewrite length_drop. lia.
  - rewrite Hnext. apply String.eqb_neq in Hne as Hneb. rewrite Hneb.
    rewrite end_index_eq in Hmore, Hx.
    assert (Hend : Z.min (Registry.start_index cursor (Registry.sort_by_name (Servers i))
                          + Registry.clamp_limit limit)
                         (Z.of_nat (length (Registry.sort_by_name (Servers i))))
                   = Registry.start_index cursor (Registry.sort_by_name (Servers i))
                     + Registry.clamp_limit limit) by lia.
    rewrite Hend in Hmore, Hx.
    pose proof (start_index_found _ _ x Hstrict Hx Hne) as Hnextstart.
    destruct (IH (entry_Name x) r1 Hi1) as (pages & r' & Hrun & Hrows).
    { rewrite Hnextstart. lia. }
    rewrite Hrun.
    exists ((cursor, resp) :: pages), r'. split; [reflexivity|].
    unfold Client.pass_rows in Hrows |- *. cbn [fmap list_fmap concat fst].
    change (list_fmap _ _ ?f pages) with (f <$> pages).
    rewrite Hrows, page_rows_take_drop, Hnextstart.
    unfold Client.row_names. rewrite <- fmap_app. f_equal.
    etransitivity;
      [|apply (take_drop (Z.to_nat (Registry.clamp_limit limit))
                 (drop (Z.to_nat (Registry.start_index cursor
                                    (Registry.sort_by_name (Servers i))))
                       (Registry.sort_by_name (Servers i))))].
    rewrite drop_drop. do 2 f_equal. lia.
Qed.

(** X18. In an index with pairwise distinct names, none of them empty,
    a full pagination pass ends within one request per row and one
    more, and the rows of its pages, page after page, are all the rows
    of the index in the order of their names: no row is left out. *)
Theorem X18_full_pass_takes_every_row (r : Registry.t) (i : Index) (limit : Z) :
  Registry.index r = Some i ->
  NoDup (Client.row_names (Servers i)) ->
  Forall (fun e => entry_Name e <> EmptyString) (Servers i) ->
  exists pages r',
    paginate (S (length (Servers i))) EmptyString limit r = (Some pages, r') /\
    Client.pass_rows i limit pages
    = Client.row_names (Registry.sort_by_name (Servers i)) /\
    Client.pass_rows i limit pages ≡ₚ Client.row_names (Servers i).
Proof.
  intros Hi Hnd Hall.
  destruct (paginate_all i limit Hnd Hall (S (length (Servers i))) EmptyString r Hi)
    as (pages & r' & Hrun & Hrows); [lia|].
  exists pages, r'. split; [exact Hrun|].
  change (Registry.start_index EmptyString (Registry.sort_by_name (Servers i))) with 0
    in Hrows.
  change (Z.to_nat 0) with 0%nat in Hrows. rewrite drop_0 in Hrows.
  split; [exact Hrows|]. rewrite Hrows. unfold Client.row_names.
  apply fmap_Permutation, sort_by_name_Permutation.
Qed.

End ListFacts.

(** ** Listings over missing manifests, and repeated reads *)

Section ReadFacts.
Import Domain.
Variable yaml_ServerJSON : list byte -> option ServerJSON.

Local Abbreviation GetServer := (Registry.GetServer yaml_ServerJSON).
Local Abbreviation lookup := (Registry.lookup yaml_ServerJSON).
Local Abbreviation hydrate := (Registry.hydrate yaml_ServerJSON).
Local Abbreviation ListServers := (Registry.ListServers yaml_ServerJSON).

Local Abbreviation unreadable := (History.unreadable yaml_ServerJSON).

Lemma lookup_unreadable (i : Index) (k : string) (r : Registry.t) :
  Registry.index r = Some i -> LRU.items (Registry.cache r) = [] ->
  unreadable i (Registry.store r) ->
  exists e, lookup k r
            = (Err e, Registry.with_misses (wrap64 (Registry.cacheMisses r + 1)) r).
Proof.
  intros Hi Hitems Hun. unfold Registry.lookup, LRU.Get, LRU.find.
  rewrite Hitems. cbn [List.find fmap option_fmap option_map].
  cbn [Registry.index Registry.store Registry.with_misses]. rewrite Hi.
  destruct (List.find _ (Servers i)) as [entry|] eqn:Hfind; [|eauto].
  apply find_some in Hfind as [Hin _]. apply list_elem_of_In in Hin.
  destruct (GitStore.ReadFile (Registry.store r) (entry_Path entry)) as [content|e]
    eqn:Hread; [|eauto].
  rewrite (Hun entry content Hin Hread). eauto.
Qed.

Lemma hydrate_unreadable (i : Index) (rows : list IndexEntry) (r : Registry.t) :
  Registry.index r = Some i -> LRU.items (Registry.cache r) = [] ->
  unreadable i (Registry.store r) ->
  (hydrate rows r).1
  = (fun e => {| Server := Registry.minimal e; Meta := None |}) <$> rows /\
  LRU.items (Registry.cache (hydrate rows r).2) = [] /\
  Registry.cacheHits (hydrate rows r).2 = Registry.cacheHits r.
Proof.
  revert r. induction rows as [|e rows IH]; intros r Hi Hitems Hun;
    [repeat split; assumption|].
  cbn [Registry.hydrate]. unfold Registry.GetServer.
  destruct (lookup_unreadable i
              match URL.PathUnescape (entry_Name e) with
              | Ok d => d
              | Err _ => entry_Name e
              end r Hi Hitems Hun) as [err ->].
  destruct (IH (Registry.with_misses (wrap64 (Registry.cacheMisses r + 1)) r)
              Hi Hitems Hun) as (Hout & Hempty & Hhits).
  destruct (hydrate rows _) as [out r2]. cbn [fst snd] in *.
  rewrite Hout. repeat split; assumption.
Qed.

(** X19. A listing does not fail over manifests that cannot be had.
    In an index with pairwise distinct names, with nothing cached and
    the file of every index row unreadable or undecodable, the page is
    served from the index alone: every row of the page comes back with
    the name, description and version of its index row and nothing
    else, in strictly ascending order of name, and nothing gets
    cached. *)
Theorem X19_listing_falls_back_to_the_index (cursor : string) (limit : Z)
    (r r' : Registry.t) (i : Index) (resp : ServerListResponse) :
  Registry.index r = Some i ->
  NoDup (Client.row_names (Servers i)) ->
  LRU.items (Registry.cache r) = [] ->
  unreadable i (Registry.store r) ->
  ListServers cursor limit r = (Ok resp, r') ->
  list_Servers resp
  = (fun e => {| Server := Registry.minimal e; Meta := None |})
      <$> Registry.page_rows i cursor limit /\
  Client.page_names resp = Client.row_names (Registry.page_rows i cursor limit) /\
  StronglySorted string_lt (Client.page_names resp) /\
  LRU.items (Registry.cache r') = [] /\ Registry.cacheHits r' = Registry.cacheHits r.
Proof.
  intros Hi Hnd Hitems Hun.
  rewrite (ListServers_loaded yaml_ServerJSON cursor limit r i Hi).
  destruct (hydrate_unreadable i (Registry.page_rows i cursor limit) r Hi Hitems Hun)
    as (Hout & Hempty & Hhits).
  intros [= <- <-]. cbn [list_Servers].
  assert (Hnames : Client.page_names
                     {| list_Servers := (hydrate (Registry.page_rows i cursor limit) r).1;
                        Metadata :=
                          {| NextCursor :=
                               Registry.next_cursor
                                 (Registry.end_index
                                    (Registry.start_index cursor
                                       (Registry.sort_by_name (Servers i)))
                                    (Registry.clamp_limit limit)
                                    (Registry.sort_by_name (Servers i)))
                                 (Registry.sort_by_name (Servers i));
                             Count := Z.of_nat
                                        (length (Registry.page_rows i cursor limit)) |} |}
                   = Client.row_names (Registry.page_rows i cursor limit)).
  { unfold Client.page_names, Client.row_names. cbn [list_Servers].
    rewrite Hout, <- list_fmap_compose. reflexivity. }
  split; [exact Hout|]. split; [exact Hnames|]. split; [|split; assumption].
  rewrite Hnames, page_rows_take_drop.
  apply strict_segment, sort_by_name_strict, Hnd.
Qed.

(** The manifest found under a key after an insert under that key is
    the inserted one. *)
Lemma LRU_Add_find (k : string) (v v' : ServerJSON) (c : LRU.t ServerJSON) :
  LRU.find k (LRU.items (LRU.Add k v c)) = Some v' -> v' = v.
Proof.
  unfold LRU.Add.
  destruct (LRU.find k (LRU.items c)) as [v0|]; cbn [LRU.items].
  - rewrite LRU_find_head. congruence.
  - case_decide.
    + destruct (LRU.items c) as [|x l].
      * cbn [removelast]. discriminate.
      * change (removelast ((k, v) :: x :: l)) with ((k, v) :: removelast (x :: l)).
        rewrite LRU_find_head. congruence.
    + rewrite LRU_find_head. congruence.
Qed.

(** A lookup that succeeded succeeds again, with the same manifest,
    whatever the shape and the size of the cache. *)
Lemma lookup_again (k : string) (sv : ServerJSON) (r r1 : Registry.t) :
  lookup k r = (Ok sv, r1) -> exists r2, lookup k r1 = (Ok sv, r2).
Proof.
  unfold Registry.lookup at 1.
  destruct (LRU.Get k (Registry.cache r)) as [[v c]|] eqn:Hget.
  - intros [= <- <-]. eexists. apply cached_lookup.
    unfold LRU.Get in Hget.
    destruct (LRU.find k (LRU.items (Registry.cache r))); [|discriminate].
    injection Hget as <- <-. apply LRU_find_head.
  - cbn [Registry.index Registry.store Registry.with_misses].
    destruct (Registry.index r) as [i|] eqn:Hi; [|discriminate].
    destruct (List.find _ (Servers i)) as [entry|] eqn:Hfind; [|discriminate].
    destruct (GitStore.ReadFile (Registry.store r) (entry_Path entry)) as [content|e]
      eqn:Hread; [|discriminate].
    destruct (yaml_ServerJSON content) as [server|] eqn:Hy; [|discriminate].
    intros [= <- <-].
    destruct (LRU.find k (LRU.items (LRU.Add k server (Registry.cache r))))
      as [v'|] eqn:Hf.
    + pose proof (LRU_Add_find _ _ _ _ Hf) as ->.
      eexists. apply cached_lookup. exact Hf.
    + eexists. unfold Registry.lookup, LRU.Get.
      cbn [Registry.cache Registry.with_cache Registry.with_misses].
      rewrite Hf. cbn [Registry.index Registry.store Registry.with_misses
                       Registry.with_cache].
      rewrite Hi, Hfind, Hread, Hy. reflexivity.
Qed.

End ReadFacts.

(** ** The handlers of the read API *)

Section HandlerFacts.
Import Domain.
Variable yaml_ServerJSON : list byte -> option ServerJSON.

Local Abbreviation lookup := (Registry.lookup yaml_ServerJSON).
Local Abbreviation GetServer := (API.GetServer yaml_ServerJSON).
Local Abbreviation ListServers := (API.ListServers yaml_ServerJSON).
Local Abbreviation GetServerVersion := (Handlers.GetServerVersion yaml_ServerJSON).
Local Abbreviation GetServerVersions := (Handlers.GetServerVersions yaml_ServerJSON).

(** The answer with a manifest, as [GetServer] and [GetServerVersion]
    build it. *)
Local Abbreviation served sv r :=
  {| API.status := 200;
     API.payload := API.PServer
       {| Server := sv;
          Meta := Some {| Official := Some
            {| Status := "active"; PublishedAt := Registry.lastSyncAt r;
               IsLatest := true |} |} |} |}.

(** The handler decodes the name and the catalog decodes it again. *)
Lemma API_GetServer_lookup (name : string) (r : Registry.t) :
  name <> EmptyString ->
  GetServer name r
  = match lookup (Client.decoded (Client.decoded name)) r with
    | (Err _, r1) =>
        (API.writeError 404 "Not Found"
           (String.append "Server not found: " (Client.decoded name)), r1)
    | (Ok sv, r1) => (served sv r1, r1)
    end.
Proof.
  intros Hne%String.eqb_neq. unfold API.GetServer, Registry.GetServer.
  rewrite Hne. reflexivity.
Qed.

Lemma GetServerVersion_lookup (name version : string) (r : Registry.t) :
  name <> EmptyString ->
  GetServerVersion name version r
  = match lookup (Client.decoded (Client.decoded name)) r with
    | (Err _, r1) =>
        (API.writeError 404 "Not Found"
           (String.append "Server not found: " (Client.decoded name)), r1)
    | (Ok sv, r1) =>
        if negb (String.eqb version "latest") && negb (String.eqb version (Version sv))
        then (API.writeError 404 "Not Found"
                "Version not found. This registry only serves the latest version.", r1)
        else (served sv r1, r1)
    end.
Proof.
  intros Hne%String.eqb_neq. unfold Handlers.GetServerVersion, Registry.GetServer.
  rewrite Hne. reflexivity.
Qed.

(** X20. The version endpoint against the server endpoint.  For the
    version [latest] the two give the same answer; for every version
    they leave the same catalog behind, so a manifest is read and cached
    also for a version that is then refused; an error of the server
    endpoint is the error of the version endpoint; and a manifest is
    served for [latest] and for the version that the manifest carries,
    and refused with 404 for every other version. *)
Theorem X20_version_endpoint (name version : string) (r : Registry.t) :
  GetServerVersion name "latest" r = GetServer name r /\
  (GetServerVersion name version r).2 = (GetServer name r).2 /\
  (forall e, API.payload (GetServer name r).1 = API.PError e ->
     GetServerVersion name version r = GetServer name r) /\
  (forall resp, API.payload (GetServer name r).1 = API.PServer resp ->
     (version = "latest" \/ version = Version (Server resp) ->
      GetServerVersion name version r = GetServer name r) /\
     (version <> "latest" -> version <> Version (Server resp) ->
      (GetServerVersion name version r).1
      = API.writeError 404 "Not Found"
          "Version not found. This registry only serves the latest version.")).
Proof.
  destruct (String.eqb_spec name EmptyString) as [->|Hne].
  { repeat split; try reflexivity; discriminate. }
  rewrite !GetServerVersion_lookup, API_GetServer_lookup by exact Hne.
  destruct (lookup _ r) as [[sv|err] r1]; cbn [fst snd negb andb String.eqb].
  - split; [reflexivity|].
    destruct (String.eqb_spec version "latest") as [Hl|Hl];
      destruct (String.eqb_spec version (Version sv)) as [Hv|Hv];
      cbn [negb andb fst snd]; (split; [reflexivity|]);
      (split; [discriminate|]); intros resp [= <-]; cbn [Server];
      split; try reflexivity; try contradiction; intros [?|?]; contradiction.
  - split; [reflexivity|]. split; [reflexivity|]. split; [reflexivity|discriminate].
Qed.

(** X21. The version that the versions endpoint lists is served by the
    version endpoint.  A successful listing has exactly one version,
    marked latest, under the name that the manifest carries; the
    request for that version right after it gives that manifest. *)
Theorem X21_listed_version_is_served (name : string) (r r1 : Registry.t)
    (v : Handlers.VersionsResponse) :
  GetServerVersions name r = (200, inr v, r1) ->
  exists (sv : ServerJSON) (r2 : Registry.t),
    Handlers.versions v = [(Version sv, true)] /\
    Handlers.server_name v = Name sv /\
    GetServerVersion name (Version sv) r1 = (served sv r2, r2).
Proof.
  unfold Handlers.GetServerVersions.
  destruct (String.eqb_spec name EmptyString) as [->|Hne]; [discriminate|].
  unfold Registry.GetServer. fold (Client.decoded (Client.decoded name)).
  destruct (lookup _ r) as [[sv|err] r1'] eqn:Hget; [|discriminate].
  intros [= <- <-]. destruct (lookup_again _ _ _ _ _ Hget) as [r2 Hagain].
  exists sv, r2. split; [reflexivity|]. split; [reflexivity|].
  rewrite GetServerVersion_lookup by exact Hne. rewrite Hagain.
  rewrite String.eqb_refl, andb_false_r. reflexivity.
Qed.

(** X22. The health answer follows the index: the status is [ok]
    exactly when a list request is answered with 200, [degraded]
    exactly when it is answered with 503, and a degraded answer reports
    the index as not loaded, with no servers. *)
Theorem X22_health_follows_the_index {F : Float64} (format : Z -> string)
    (store : Handlers.StoreInfo) (cursor limitStr : string) (r : Registry.t) :
  (Handlers.health_Status (Handlers.Health format store r) = "ok" <->
   API.status (ListServers cursor limitStr r).1 = 200) /\
  (Handlers.health_Status (Handlers.Health format store r) = "degraded" <->
   API.status (ListServers cursor limitStr r).1 = 503) /\
  (Handlers.health_Status (Handlers.Health format store r) = "degraded" ->
   Handlers.health_IndexStatus (Handlers.Health format store r) = "not_loaded" /\
   Handlers.health_ServerCount (Handlers.Health format store r) = 0) /\
  (Handlers.health_Status (Handlers.Health format store r) = "ok" ->
   Handlers.health_IndexStatus (Handlers.Health format store r) = "valid" /\
   Handlers.health_ServerCount (Handlers.Health format store r)
   = Z.of_nat (length (match Registry.index r with
                       | Some i => Servers i
                       | None => []
                       end))).
Proof.
  unfold Handlers.Health, API.ListServers, Registry.IndexStatus, Registry.ServerCount.
  cbn [Handlers.health_Status Handlers.health_IndexStatus Handlers.health_ServerCount].
  destruct (Registry.index r) as [i|] eqn:Hi.
  - rewrite (ListServers_loaded yaml_ServerJSON cursor _ r i Hi).
    cbn. repeat split; try discriminate; reflexivity.
  - unfold Registry.ListServers. rewrite Hi.
    cbn. repeat split; try discriminate; reflexivity.
Qed.

(** X23. The server endpoint answers 200, 400 or 404, and 400 exactly
    for the empty name.  It has no answer for a catalog without an
    index: there, with nothing cached, every name is answered with 404,
    while every list request is answered with 503. *)
Theorem X23_get_is_never_unavailable (name : string) (r : Registry.t) :
  (API.status (GetServer name r).1 = 200 \/ API.status (GetServer name r).1 = 400 \/
   API.status (GetServer name r).1 = 404) /\
  (API.status (GetServer name r).1 = 400 <-> name = EmptyString) /\
  (Registry.index r = None -> LRU.items (Registry.cache r) = [] ->
   name <> EmptyString ->
   API.status (GetServer name r).1 = 404 /\
   forall cursor limitStr : string, API.status (ListServers cursor limitStr r).1 = 503).
Proof.
  destruct (String.eqb_spec name EmptyString) as [->|Hne].
  { split; [right; left; reflexivity|]. split; [split; reflexivity|].
    intros _ _ Hne. contradiction. }
  rewrite API_GetServer_lookup by exact Hne. split; [|split].
  - destruct (lookup _ r) as [[sv|err] r1]; [left|right; right]; reflexivity.
  - destruct (lookup _ r) as [[sv|err] r1]; split; (discriminate || contradiction).
  - intros Hi Hitems _. split.
    + unfold Registry.lookup, LRU.Get, LRU.find. rewrite Hitems.
      cbn [List.find fmap option_fmap option_map Registry.index Registry.with_misses].
      rewrite Hi. reflexivity.
    + intros cursor limitStr. unfold API.ListServers, Registry.ListServers.
      rewrite Hi. reflexivity.
Qed.

Lemma shouldEscape_percent (s : string) : URL.escapes_percent URL.shouldEscape s = true.
Proof.
  unfold URL.escapes_percent. induction s as [|c s IH]; [reflexivity|].
  cbn [Bytes.all]. rewrite IH, andb_true_r.
  destruct (Ascii.eqb_spec c "%") as [->|Hne]; [reflexivity|apply orb_true_r].
Qed.

(** X24. Escaping and decoding of names.  [PathUnescape] undoes
    [PathEscape] on every string, so the catalog looks an escaped name
    up under the name itself; the handler decodes before the catalog
    does, so through the server endpoint an escaped name is looked up
    under its decoding, which is another name when the name holds an
    escape sequence of its own. *)
Theorem X24_escaped_names (name : string) (r : Registry.t) :
  URL.PathUnescape (URL.PathEscape name) = Ok name /\
  Registry.GetServer yaml_ServerJSON (URL.PathEscape name) r = lookup name r /\
  (name <> EmptyString ->
   (GetServer (URL.PathEscape name) r).2 = (lookup (Client.decoded name) r).2 /\
   (API.status (GetServer (URL.PathEscape name) r).1 = 200 <->
    exists sv, (lookup (Client.decoded name) r).1 = Ok sv)).
Proof.
  assert (Hround : URL.PathUnescape (URL.PathEscape name) = Ok name).
  { apply unescape_escape, shouldEscape_percent. }
  split; [exact Hround|]. split.
  - unfold Registry.GetServer. rewrite Hround. reflexivity.
  - intros Hne.
    rewrite API_GetServer_lookup by (apply escape_with_not_empty, Hne).
    assert (Hdec : Client.decoded (URL.PathEscape name) = name).
    { unfold Client.decoded. rewrite Hround. reflexivity. }
    rewrite Hdec.
    destruct (lookup (Client.decoded name) r) as [[sv|err] r1]; cbn [fst snd API.status].
    + split; [reflexivity|]. split; eauto.
    + split; [reflexivity|]. split; [discriminate|intros [sv [=]]].
Qed.

End HandlerFacts.

(** ** What the webhook ingress lets through *)

Section IngressFacts.
Import Webhook.
Variable hmac_sha256 : list byte -> list byte -> list byte.
Variable json_PushEvent : list byte -> option PushEvent.

Local Abbreviation validateSignature := (Webhook.validateSignature hmac_sha256).
Local Abbreviation ServeHTTP := (Webhook.ServeHTTP hmac_sha256 json_PushEvent).

Ltac not_in_trace :=
  let Hin := fresh "Hin" in
  intros Hin;
  repeat (apply elem_of_cons in Hin as [Hin|Hin]; [discriminate Hin|]);
  apply elem_of_nil in Hin; exact Hin.

Lemma slice_to_Some (s t : string) (n : nat) :
  slice_to s n = Some t -> (n <= String.length s)%nat.
Proof. unfold slice_to. case_decide; [auto|discriminate]. Qed.

(** X25. The handler emits a sync trigger exactly for a POST whose
    body could be read, whose signature header is [sha256=] with the
    hex MAC of that body, whose event header is [push], and whose body
    decodes to a push to the tracked branch with commit ids of eight
    bytes or more; these are exactly the requests answered with
    [accepted], and on every other request the manager is left as it
    is. *)
Theorem X25_trigger_only_for_signed_push (h : WebhookHandler) (m : Manager.t)
    (r : Request) :
  (EvTrigger ∈ trace (ServeHTTP h m r) <->
   Method r = "POST" /\
   exists body event,
     ReadAll_LimitReader (Body r) body_limit = Ok body /\
     Header_Get (Header r) "X-Hub-Signature-256"
     = String.append "sha256=" (EncodeToString (hmac_sha256 (secret h) body)) /\
     Header_Get (Header r) "X-GitHub-Event" = "push" /\
     json_PushEvent body = Some event /\
     Ref event = String.append "refs/heads/" (branch h) /\
     (8 <= String.length (Before event))%nat /\
     (8 <= String.length (After event))%nat) /\
  (EvTrigger ∈ trace (ServeHTTP h m r) <->
   outcome (ServeHTTP h m r) = Responded 200 (json_status "accepted" None)) /\
  (EvTrigger ∈ trace (ServeHTTP h m r) ->
   manager (ServeHTTP h m r) = (Manager.Trigger m).2) /\
  (EvTrigger ∉ trace (ServeHTTP h m r) -> manager (ServeHTTP h m r) = m).
Proof.
  assert (Hback : forall body event,
            Method r = "POST" ->
            ReadAll_LimitReader (Body r) body_limit = Ok body ->
            Header_Get (Header r) "X-Hub-Signature-256"
            = String.append "sha256=" (EncodeToString (hmac_sha256 (secret h) body)) ->
            Header_Get (Header r) "X-GitHub-Event" = "push" ->
            json_PushEvent body = Some event ->
            Ref event = String.append "refs/heads/" (branch h) ->
            (8 <= String.length (Before event))%nat ->
            (8 <= String.length (After event))%nat ->
            ServeHTTP h m r
            = {| outcome := Responded API.StatusOK (json_status "accepted" None);
                 manager := (Manager.Trigger m).2;
                 trace := [EvLog "INFO" "webhook received"; EvUnmarshal body;
                           EvLog "INFO" "push event for tracked branch"; EvTrigger] |}).
  { intros body event Hm Hb Hsig Hev Hjson Href Hbefore Hafter.
    rewrite (tracked_push_run hmac_sha256 json_PushEvent h m r body event Hm Hb);
      [|apply validateSignature_true; exact Hsig|exact Hev|exact Hjson|exact Href].
    rewrite !slice_to_long by assumption. reflexivity. }
  assert (Hcases :
            (exists body event,
               Method r = "POST" /\
               ReadAll_LimitReader (Body r) body_limit = Ok body /\
               Header_Get (Header r) "X-Hub-Signature-256"
               = String.append "sha256=" (EncodeToString (hmac_sha256 (secret h) body)) /\
               Header_Get (Header r) "X-GitHub-Event" = "push" /\
               json_PushEvent body = Some event /\
               Ref event = String.append "refs/heads/" (branch h) /\
               (8 <= String.length (Before event))%nat /\
               (8 <= String.length (After event))%nat) \/
            ((EvTrigger ∉ trace (ServeHTTP h m r)) /\
             manager (ServeHTTP h m r) = m /\
             outcome (ServeHTTP h m r) <> Responded 200 (json_status "accepted" None))).
  { unfold Webhook.ServeHTTP.
    destruct (String.eqb_spec (Method r) "POST") as [Hm|Hm]; cbn [negb];
      [|right; split; [not_in_trace|split; [reflexivity|discriminate]]].
    destruct (ReadAll_LimitReader (Body r) body_limit) as [body|e] eqn:Hb;
      [|right; split; [not_in_trace|split; [reflexivity|discriminate]]].
    destruct (Webhook.validateSignature hmac_sha256 h _ body) eqn:Hsig; cbn [negb];
      [|right; split; [not_in_trace|split; [reflexivity|discriminate]]].
    apply validateSignature_true in Hsig.
    destruct (String.eqb_spec (Header_Get (Header r) "X-GitHub-Event") "push")
      as [Hev|Hev]; cbn [negb];
      [|right; split; [not_in_trace|split; [reflexivity|discriminate]]].
    destruct (json_PushEvent body) as [event|] eqn:Hjson;
      [|right; split; [not_in_trace|split; [reflexivity|discriminate]]].
    destruct (String.eqb_spec (Ref event) (String.append "refs/heads/" (branch h)))
      as [Href|Href]; cbn [negb];
      [|right; split; [not_in_trace|split; [reflexivity|discriminate]]].
    destruct (slice_to (Before event) 8) as [b8|] eqn:Hbefore;
      [|right; split; [not_in_trace|split; [reflexivity|discriminate]]].
    destruct (slice_to (After event) 8) as [a8|] eqn:Hafter;
      [|right; split; [not_in_trace|split; [reflexivity|discriminate]]].
    apply slice_to_Some in Hbefore, Hafter.
    left. exists body, event. repeat split; assumption. }
  destruct Hcases as [(body & event & Hm & Hb & Hsig & Hev & Hjson & Href & Hbefore & Hafter)
                     |(Hno & Hsame & Hout)].
  - rewrite (Hback body event) by assumption. cbn [trace outcome manager].
    assert (Hin : EvTrigger ∈ [EvLog "INFO" "webhook received"; EvUnmarshal body;
                               EvLog "INFO" "push event for tracked branch"; EvTrigger]).
    { do 3 apply list_elem_of_further. apply list_elem_of_here. }
    split; [split; [intros _; split; [exact Hm|]; exists body, event;
                    repeat split; assumption|intros _; exact Hin]|].
    split; [split; [reflexivity|intros _; exact Hin]|].
    split; [reflexivity|]. intros Hnot. destruct (Hnot Hin).
  - split; [split; [intros Hin; destruct (Hno Hin)|]|].
    + intros (Hm & body & event & Hb & Hsig & Hev & Hjson & Href & Hbefore & Hafter).
      exfalso. apply Hout. rewrite (Hback body event) by assumption. reflexivity.
    + split; [split; [intros Hin; destruct (Hno Hin)|intros Heq; destruct (Hout Heq)]|].
      split; [intros Hin; destruct (Hno Hin)|intros _; exact Hsame].
Qed.

(** X26. A delivery with a valid signature that is not a push to the
    tracked branch is answered with 200 and [ignored]: an event other
    than [push] without a look into the body, a push to another ref
    after the body was decoded; a signed push whose body does not
    decode is answered with 400.  None of them touches the manager. *)
Theorem X26_signed_deliveries_that_are_ignored (h : WebhookHandler) (m : Manager.t)
    (r : Request) (body : list byte) :
  Method r = "POST" ->
  ReadAll_LimitReader (Body r) body_limit = Ok body ->
  Header_Get (Header r) "X-Hub-Signature-256"
  = String.append "sha256=" (EncodeToString (hmac_sha256 (secret h) body)) ->
  (Header_Get (Header r) "X-GitHub-Event" <> "push" ->
   outcome (ServeHTTP h m r)
   = Responded 200 (json_status "ignored" (Some "not a push event")) /\
   manager (ServeHTTP h m r) = m /\
   forall b, EvUnmarshal b ∉ trace (ServeHTTP h m r)) /\
  (Header_Get (Header r) "X-GitHub-Event" = "push" ->
   json_PushEvent body = None ->
   outcome (ServeHTTP h m r) = http_Error "invalid payload" 400 /\
   manager (ServeHTTP h m r) = m) /\
  (forall event,
     Header_Get (Header r) "X-GitHub-Event" = "push" ->
     json_PushEvent body = Some event ->
     Ref event <> String.append "refs/heads/" (branch h) ->
     outcome (ServeHTTP h m r)
     = Responded 200 (json_status "ignored" (Some "different branch")) /\
     manager (ServeHTTP h m r) = m /\
     trace (ServeHTTP h m r)
     = [EvLog "INFO" "webhook received"; EvUnmarshal body;
        EvLog "DEBUG" "ignoring push to different branch"]).
Proof.
  intros Hm Hb Hsig%validateSignature_true.
  unfold Webhook.ServeHTTP. rewrite Hm, Hb, Hsig. cbn [String.eqb Ascii.eqb Bool.eqb negb].
  split; [|split].
  - intros Hev%String.eqb_neq. rewrite Hev. cbn [negb outcome manager trace].
    split; [reflexivity|]. split; [reflexivity|]. intros b. not_in_trace.
  - intros -> ->. cbn. split; reflexivity.
  - intros event -> -> Href%String.eqb_neq. rewrite Href. cbn.
    repeat split.
Qed.

End IngressFacts.

(** ** Searching the index *)

Section SearchFacts.
Import Domain.
Variable unicode_lower : string -> string.

Local Abbreviation ToLower := (Search.ToLower unicode_lower).
Local Abbreviation SearchServers := (Search.SearchServers unicode_lower).

Lemma has_prefix_refl (s : string) : Search.has_prefix s s = true.
Proof. induction s as [|c s IH]; simpl; [reflexivity|]. rewrite Ascii.eqb_refl. exact IH. Qed.

Lemma Contains_refl (s : string) : Search.Contains s s = true.
Proof. destruct s; simpl; [reflexivity|]. rewrite Ascii.eqb_refl, has_prefix_refl. reflexivity. Qed.

Lemma Contains_empty (s : string) : Search.Contains s EmptyString = true.
Proof. destruct s; reflexivity. Qed.

Lemma lower_byte_lower (c : ascii) :
  Search.lower_byte (Search.lower_byte c) = Search.lower_byte c /\
  (Search.is_ascii c = true -> Search.is_ascii (Search.lower_byte c) = true).
Proof.
  destruct c as [b0 b1 b2 b3 b4 b5 b6 b7].
  destruct b0, b1, b2, b3, b4, b5, b6, b7; vm_compute; split; auto.
Qed.

Lemma ToLower_ascii (s : string) :
  Bytes.all Search.is_ascii s = true ->
  ToLower s = Search.map_bytes Search.lower_byte s /\
  Bytes.all Search.is_ascii (ToLower s) = true /\
  ToLower (ToLower s) = ToLower s.
Proof.
  intros Hs.
  assert (Hmap : Bytes.all Search.is_ascii (Search.map_bytes Search.lower_byte s) = true /\
                 Search.map_bytes Search.lower_byte (Search.map_bytes Search.lower_byte s)
                 = Search.map_bytes Search.lower_byte s).
  { induction s as [|c s IH]; [split; reflexivity|].
    cbn [Bytes.all Search.map_bytes] in Hs |- *.
    apply andb_true_iff in Hs as [Hc Hs]. destruct (IH Hs) as [IHa IHm].
    destruct (lower_byte_lower c) as [Hidem Hascii].
    rewrite (Hascii Hc), IHa, Hidem, IHm. split; reflexivity. }
  destruct Hmap as [Hascii Hidem].
  assert (Heq : ToLower s = Search.map_bytes Search.lower_byte s).
  { unfold Search.ToLower. rewrite Hs. reflexivity. }
  rewrite Heq. split; [reflexivity|]. split; [exact Hascii|].
  unfold Search.ToLower. rewrite Hascii. exact Hidem.
Qed.

Lemma filter_sublist {A : Type} (f : A -> bool) (l : list A) :
  List.filter f l `sublist_of` l.
Proof.
  induction l as [|x l IH]; simpl; [constructor|].
  destruct (f x); [apply sublist_skip|apply sublist_cons]; exact IH.
Qed.

(** X27. A search in a loaded index answers with rows of the index in
    the order of the index, not sorted by name as a listing is; the
    empty query gives all of them; every row is found by its own name
    and by its own description; and a query of ASCII bytes gives the
    same rows as its lower-case form, so letter case in it does not
    matter. *)
Theorem X27_search (query : string) (r : Registry.t) (i : Index) :
  Registry.index r = Some i ->
  SearchServers EmptyString r = Ok (Servers i) /\
  (exists rows, SearchServers query r = Ok rows /\ rows `sublist_of` Servers i) /\
  (forall e rows, e ∈ Servers i ->
     (SearchServers (entry_Name e) r = Ok rows -> e ∈ rows) /\
     (SearchServers (entry_Description e) r = Ok rows -> e ∈ rows)) /\
  (Bytes.all Search.is_ascii query = true ->
   SearchServers (Search.map_bytes Search.lower_byte query) r = SearchServers query r).
Proof.
  intros Hi. unfold Search.SearchServers. rewrite Hi. split; [|split; [|split]].
  - f_equal. change (ToLower EmptyString) with EmptyString.
    induction (Servers i) as [|e l IH]; [reflexivity|].
    cbn [List.filter]. rewrite Contains_empty. cbn [orb]. rewrite IH. reflexivity.
  - eexists. split; [reflexivity|apply filter_sublist].
  - intros e rows He. apply list_elem_of_In in He.
    split; intros [= <-]; apply list_elem_of_In, filter_In; (split; [exact He|]).
    + rewrite Contains_refl. reflexivity.
    + rewrite (Contains_refl (ToLower (entry_Description e))). apply orb_true_r.
  - intros Hq. destruct (ToLower_ascii query Hq) as (Hlow & _ & Hidem).
    rewrite <- Hlow, Hidem. reflexivity.
Qed.

End SearchFacts.

(** ** The properties above on the deployment of the examples *)

Lemma X10_load_defaults_witness :
  Config.RegistryBranch Deployment.loaded = "main" /\
  Strconv.Atoi "-1" = Ok (Config.Port Deployment.loaded).
Proof.
  destruct (X10_load_defaults Deployment.env Deployment.ReadFile Deployment.ParseDuration
              Deployment.loaded)
    as (_ & _ & _ & Hbranch & _ & _ & _ & _ & _ & _ & _ & Hport).
  - vm_compute. reflexivity.
  - split; [apply Hbranch; reflexivity|apply Hport; vm_compute; discriminate].
Defined.

Lemma X11_key_file_comes_first_witness :
  Deployment.ReadFile "/keys/app.pem" = Ok (Config.GitHubAppPrivateKey Deployment.loaded).
Proof.
  destruct (X11_key_file_comes_first Deployment.env Deployment.ReadFile
              Deployment.ParseDuration) as [Hkey _].
  - vm_compute. discriminate.
  - apply (Hkey Deployment.loaded). vm_compute. reflexivity.
Defined.

(** The catalog of the three rows after one read of [io.example/b]. *)
Lemma X12_cached_manifest_is_served_witness :
  (Registry.GetServer Sample.yaml_ServerJSON "io.example%2Fb"
     (Registry.GetServer Sample.yaml_ServerJSON "io.example/b" Sample.three).2).1
  = Ok (Sample.named "io.example/b").
Proof.
  apply (X12_cached_manifest_is_served Sample.yaml_ServerJSON "io.example%2Fb"
           (Sample.named "io.example/b")
           (Registry.GetServer Sample.yaml_ServerJSON "io.example/b" Sample.three).2).
  vm_compute. reflexivity.
Defined.

Lemma X13_second_get_is_a_hit_witness :
  Registry.cacheHits
    (Registry.GetServer Sample.yaml_ServerJSON "io.example/b"
       (Registry.GetServer Sample.yaml_ServerJSON "io.example/b" Sample.three).2).2
  = wrap64
      (Registry.cacheHits
         (Registry.GetServer Sample.yaml_ServerJSON "io.example/b" Sample.three).2 + 1).
Proof.
  destruct (X13_second_get_is_a_hit Sample.yaml_ServerJSON "io.example/b"
              (Sample.named "io.example/b") Sample.three
              (Registry.GetServer Sample.yaml_ServerJSON "io.example/b" Sample.three).2)
    as (_ & Hhits & _).
  - simpl. lia.
  - simpl. lia.
  - constructor.
  - vm_compute. reflexivity.
  - exact Hhits.
Defined.

(** The first refresh of the cloned catalog, and a read after it. *)
Lemma X15_refresh_installs_index_witness :
  Registry.IndexStatus (Registry.Refresh Deployment.yaml_Index 9 Deployment.cloned).2
  = "valid" /\
  Registry.lastSyncAt (Registry.Refresh Deployment.yaml_Index 9 Deployment.cloned).2 = 9.
Proof.
  destruct (X15_refresh_installs_index Deployment.yaml_Index 9 Deployment.cloned
              (Registry.Refresh Deployment.yaml_Index 9 Deployment.cloned).2)
    as (content & i & _ & _ & _ & _ & _ & _ & Hnow & _ & Hstatus & _).
  - vm_compute. reflexivity.
  - split; [exact Hstatus|exact Hnow].
Defined.

Lemma X16_no_stale_manifest_after_refresh_witness :
  Registry.cacheMisses
    (Registry.GetServer Sample.yaml_ServerJSON "io.example/a"
       (Registry.Refresh Deployment.yaml_Index 9 Deployment.cloned).2).2 = 1.
Proof.
  destruct (X16_no_stale_manifest_after_refresh Deployment.yaml_Index
              Sample.yaml_ServerJSON 9 Deployment.cloned
              (Registry.Refresh Deployment.yaml_Index 9 Deployment.cloned).2
              (Registry.GetServer Sample.yaml_ServerJSON "io.example/a"
                 (Registry.Refresh Deployment.yaml_Index 9 Deployment.cloned).2).2
              (Ok tt) "io.example/a" (Sample.named "io.example/a"))
    as (i & entry & content & _ & _ & _ & _ & Hmisses & _).
  - vm_compute. reflexivity.
  - vm_compute. reflexivity.
  - exact Hmisses.
Defined.

(** The first page of the three rows, two rows to a page, and the pass
    that it begins. *)
Lemma X17_next_cursor_witness :
  exists resp r',
    Registry.ListServers Sample.yaml_ServerJSON EmptyString 2 Sample.three = (Ok resp, r') /\
    last (Client.row_names
            (Registry.page_rows (Sample.index_of Deployment.rows) EmptyString 2))
    = Some (Domain.NextCursor (Domain.Metadata resp)).
Proof.
  pose proof (ListServers_loaded Sample.yaml_ServerJSON EmptyString 2 Sample.three
                (Sample.index_of Deployment.rows) eq_refl) as Hlist.
  eexists _, _. split; [exact Hlist|].
  destruct (X17_next_cursor Sample.yaml_ServerJSON EmptyString 2 Sample.three _
              (Sample.index_of Deployment.rows) _ eq_refl Hlist) as (_ & _ & Hnext & _).
  apply Hnext. vm_compute. discriminate.
Defined.

Lemma X18_full_pass_takes_every_row_witness :
  exists pages r',
    Client.paginate Sample.yaml_ServerJSON 4 EmptyString 2 Sample.three = (Some pages, r') /\
    Client.pass_rows (Sample.index_of Deployment.rows) 2 pages
    = ["io.example/a"; "io.example/b"; "io.example/c"].
Proof.
  destruct (X18_full_pass_takes_every_row Sample.yaml_ServerJSON Sample.three
              (Sample.index_of Deployment.rows) 2 eq_refl three_rows_distinct)
    as (pages & r' & Hrun & Hrows & _).
  - repeat constructor; discriminate.
  - exists pages, r'. split; [exact Hrun|]. rewrite Hrows. vm_compute. reflexivity.
Defined.

(** The two rows whose manifest files are gone. *)
Lemma X19_listing_falls_back_to_the_index_witness :
  exists resp r',
    Registry.ListServers Sample.yaml_ServerJSON EmptyString 30 Sample.stale = (Ok resp, r') /\
    Client.page_names resp = ["io.example/a"; "io.example/c"].
Proof.
  pose proof (ListServers_loaded Sample.yaml_ServerJSON EmptyString 30 Sample.stale
                _ eq_refl) as Hlist.
  assert (Hgone : History.unreadable Sample.yaml_ServerJSON
                    (Sample.index_of [Sample.row "io.example/a" "servers/a.yaml";
                                      Sample.row "io.example/c" "servers/c.yaml"])
                    (Registry.store Sample.stale)).
  { intros e content _ Hread. unfold GitStore.ReadFile in Hread. simpl in Hread.
    rewrite lookup_empty in Hread. discriminate Hread. }
  eexists _, _. split; [exact Hlist|].
  assert (Hdistinct : NoDup (Client.row_names
                              [Sample.row "io.example/a" "servers/a.yaml";
                               Sample.row "io.example/c" "servers/c.yaml"])).
  { apply (bool_decide_unpack _). vm_compute. exact I. }
  destruct (X19_listing_falls_back_to_the_index Sample.yaml_ServerJSON EmptyString 30
              Sample.stale _ _ _ eq_refl Hdistinct eq_refl Hgone Hlist)
    as (_ & Hnames & _ & _).
  rewrite Hnames. vm_compute. reflexivity.
Defined.

Lemma X21_listed_version_is_served_witness :
  exists sv r2,
    Handlers.GetServerVersion Sample.yaml_ServerJSON "io.example/b" (Domain.Version sv)
      (Handlers.GetServerVersions Sample.yaml_ServerJSON "io.example/b" Sample.three).2
    = ({| API.status := 200;
          API.payload := API.PServer
            {| Domain.Server := sv;
               Domain.Meta := Some {| Domain.Official := Some
                 {| Domain.Status := "active";
                    Domain.PublishedAt := Registry.lastSyncAt r2;
                    Domain.IsLatest := true |} |} |} |}, r2).
Proof.
  destruct (X21_listed_version_is_served Sample.yaml_ServerJSON "io.example/b" Sample.three
              (Handlers.GetServerVersions Sample.yaml_ServerJSON "io.example/b"
                 Sample.three).2
              {| Handlers.server_name := "io.example/b";
                 Handlers.versions := [(EmptyString, true)] |})
    as (sv & r2 & _ & _ & Hserved).
  - vm_compute. reflexivity.
  - exists sv, r2. exact Hserved.
Defined.

Lemma X26_signed_deliveries_that_are_ignored_witness :
  Webhook.outcome
    (Webhook.ServeHTTP Sample.hmac_sha256 Sample.json_PushEvent Sample.handler Sample.idle
       Deployment.ping)
  = Webhook.Responded 200 (Webhook.json_status "ignored" (Some "not a push event")).
Proof.
  destruct (X26_signed_deliveries_that_are_ignored Sample.hmac_sha256
              Sample.json_PushEvent Sample.handler Sample.idle Deployment.ping
              Sample.small_body) as [Hignored _].
  - reflexivity.
  - vm_compute. reflexivity.
  - vm_compute. reflexivity.
  - apply Hignored. vm_compute. discriminate.
Defined.

Lemma X27_search_witness :
  Search.SearchServers (fun s => s) (Search.map_bytes Search.lower_byte "IO.Example/B")
    Sample.three
  = Search.SearchServers (fun s => s) "IO.Example/B" Sample.three.
Proof.
  destruct (X27_search (fun s => s) "IO.Example/B" Sample.three
              (Sample.index_of Deployment.rows) eq_refl) as (_ & _ & _ & Hcase).
  apply Hcase. reflexivity.
Defined.

(** A sync over a remote without changes. *)
Lemma X6_sync_refreshes_only_on_change_witness :
  Registry.cache
    (Sync.doSync (fun w : unit => (inr false, w)) (fun _ (w : unit) => (true, w))
       (fun _ => Registry.store Sample.three) Sample.yaml_Index 50 60
       {| Sync.debounce := 10; Sync.lastSync := 0; Sync.syncing := false |}
       Sample.three tt).1.2
  = Registry.cache Sample.three.
Proof.
  destruct (X6_sync_refreshes_only_on_change (fun w : unit => (inr false, w))
              (fun _ (w : unit) => (true, w)) (fun _ => Registry.store Sample.three)
              Sample.yaml_Index 50 60
              {| Sync.debounce := 10; Sync.lastSync := 0; Sync.syncing := false |}
              Sample.three tt) as [_ Hidle].
  destruct (Hidle eq_refl) as (_ & _ & Hsame).
  apply Hsame. discriminate.
Defined.

Lemma X9_load_succeeds_iff_witness :
  Config.key_ok Deployment.env Deployment.ReadFile /\
  Config.number_ok Deployment.env "PORT".
Proof.
  destruct (proj1 (X9_load_succeeds_iff Deployment.env Deployment.ReadFile
                     Deployment.ParseDuration))
    as (_ & _ & Hkey & _ & _ & _ & _ & _ & Hport).
  - exists Deployment.loaded. vm_compute. reflexivity.
  - split; [exact Hkey|exact Hport].
Defined.

(** A catalog that never loaded an index. *)
Lemma X23_get_is_never_unavailable_witness :
  API.status (API.GetServer Sample.yaml_ServerJSON "io.example/a" Sample.fresh).1 = 404 /\
  API.status (API.ListServers Sample.yaml_ServerJSON EmptyString "30" Sample.fresh).1 = 503.
Proof.
  destruct (X23_get_is_never_unavailable Sample.yaml_ServerJSON "io.example/a" Sample.fresh)
    as (_ & _ & Hfresh).
  destruct Hfresh as [Hget Hlist]; [reflexivity|reflexivity|discriminate|].
  split; [exact Hget|apply Hlist].
Defined.

Lemma X24_escaped_names_witness :
  (API.GetServer Sample.yaml_ServerJSON (URL.PathEscape "io.example/b") Sample.three).2
  = (Registry.lookup Sample.yaml_ServerJSON (Client.decoded "io.example/b") Sample.three).2.
Proof.
  destruct (X24_escaped_names Sample.yaml_ServerJSON "io.example/b" Sample.three)
    as (_ & _ & Hhandler).
  destruct Hhandler as [Hsame _]; [discriminate|exact Hsame].
Defined.

(** A signed push to [main] with full commit ids. *)
Lemma X25_trigger_only_for_signed_push_witness :
  Webhook.EvTrigger
  ∈ Webhook.trace
      (Webhook.ServeHTTP Sample.hmac_sha256 Deployment.json_PushEvent Sample.handler
         Sample.idle Deployment.delivery).
Proof.
  destruct (X25_trigger_only_for_signed_push Sample.hmac_sha256 Deployment.json_PushEvent
              Sample.handler Sample.idle Deployment.delivery) as [[_ Hback] _].
  apply Hback. split; [reflexivity|].
  exists Sample.small_body, Deployment.pushed.
  split; [vm_compute; reflexivity|]. split; [vm_compute; reflexivity|].
  split; [vm_compute; reflexivity|]. split; [reflexivity|]. split; [reflexivity|].
  split; simpl; lia.
Defined.
